(** * FortiGate syslog dashboard: parser, aggregator and viewer hook

    Shallow embedding of
    - [FortiGateSyslogCollector.parse_fortigate_log] and [_categorize_log],
    - [LogAggregator.add_log], [_is_ip_address] and [get_stats]
      (backend/collectors/syslog_collector.py, as the setup guide lists it;
      in this tree the guide follows the chart component in
      frontend/src/components/TrafficChart.jsx),
    - the [ws.onmessage] handler and [pauseUpdates] of hooks/useWebSocket.js,
    - [datagram_received] of the collector, [get_recent_logs], and the parts
      of the components [LogTable], [TopList] and [ExpandableTopList] that
      compute what is shown.

    Text is modelled by [string]: a character is a code point below 256
    (ASCII and the Latin-1 supplement), and the Python character predicates
    are the ones CPython applies to those code points.  Python integers and
    counters are [Z]; [int()] and [str()] carry the limit CPython 3.11 and
    later put on the number of digits they convert.  A Python [dict] is an
    association list in insertion order, which is the order [items()]
    enumerates. *)

From Stdlib Require Import ZArith String Ascii List Bool Lia DecimalString.
From Stdlib Require Import Sorted Permutation.
From Stdlib Require DecimalFacts DecimalZ.
Import ListNotations.
Open Scope string_scope.
Open Scope Z_scope.

(** ** Python text *)

Module PyText.

Definition code (c : ascii) : N := N_of_ascii c.

Definition between (lo hi : N) (c : ascii) : bool :=
  (N.leb lo (code c) && N.leb (code c) hi)%bool.

(** [str.isspace] on one character, also the class [\s] of [re]. *)
Definition is_space (c : ascii) : bool :=
  between 9 13 c || between 28 32 c || N.eqb (code c) 133 || N.eqb (code c) 160.

(** The class [\w] of [re] on [str] patterns: alphanumeric or underscore. *)
Definition is_word (c : ascii) : bool :=
  between 48 57 c || between 65 90 c || N.eqb (code c) 95 || between 97 122 c
  || N.eqb (code c) 170 || between 178 179 c || N.eqb (code c) 181
  || between 185 186 c || between 188 190 c || between 192 214 c
  || between 216 246 c || between 248 255 c.

(** Decimal digits, the only digits [int()] reads. *)
Definition is_decimal (c : ascii) : bool := between 48 57 c.

(** [str.isdigit] on one character: decimal digits and the superscripts
    two, three and one. *)
Definition is_digit (c : ascii) : bool :=
  is_decimal c || between 178 179 c || N.eqb (code c) 185.

Fixpoint all_chars (p : ascii -> bool) (s : string) : bool :=
  match s with
  | EmptyString => true
  | String c s' => p c && all_chars p s'
  end.

Definition is_empty (s : string) : bool :=
  match s with EmptyString => true | _ => false end.

(** [s.isdigit()]: at least one character, all of them digits. *)
Definition isdigit (s : string) : bool := negb (is_empty s) && all_chars is_digit s.

(** All characters are ASCII. *)
Definition is_ascii (s : string) : bool := all_chars (fun c => N.ltb (code c) 128) s.

Definition lower_char (c : ascii) : ascii :=
  if between 65 90 c || between 192 214 c || between 216 222 c
  then ascii_of_N (code c + 32) else c.

(** [s.lower()] *)
Fixpoint lower (s : string) : string :=
  match s with
  | EmptyString => EmptyString
  | String c s' => String (lower_char c) (lower s')
  end.

(** Longest prefix whose characters satisfy [p], and the rest. *)
Fixpoint span (p : ascii -> bool) (s : string) : string * string :=
  match s with
  | EmptyString => (EmptyString, EmptyString)
  | String c s' =>
      if p c then let (a, b) := span p s' in (String c a, b)
      else (EmptyString, s)
  end.

Fixpoint rev_acc (s acc : string) : string :=
  match s with
  | EmptyString => acc
  | String c s' => rev_acc s' (String c acc)
  end.

Definition rev (s : string) : string := rev_acc s EmptyString.

(** The characters [int()] skips around a number. *)
Definition int_space (c : ascii) : bool :=
  between 9 13 c || N.eqb (code c) 32 || N.eqb (code c) 133 || N.eqb (code c) 160.

Definition int_strip (s : string) : string :=
  rev (snd (span int_space (rev (snd (span int_space s))))).

Definition digit_val (c : ascii) : Z := Z.of_N (code c) - 48.

(** Digits of a base-10 literal after its first digit: a digit, or one
    underscore followed by a digit. *)
Fixpoint int_digits (acc : Z) (s : string) : option Z :=
  match s with
  | EmptyString => Some acc
  | String c s' =>
      if is_decimal c then int_digits (10 * acc + digit_val c) s'
      else if N.eqb (code c) 95 then
        match s' with
        | String d s'' =>
            if is_decimal d then int_digits (10 * acc + digit_val d) s'' else None
        | EmptyString => None
        end
      else None
  end.

Definition int_unsigned (s : string) : option Z :=
  match s with
  | String c s' => if is_decimal c then int_digits (digit_val c) s' else None
  | EmptyString => None
  end.

(** The value of a base-10 literal: white space around it, a sign, digits;
    [None] where the text is no literal. *)
Definition int_literal (s : string) : option Z :=
  match int_strip s with
  | String c s' =>
      if Ascii.eqb c "+" then int_unsigned s'
      else if Ascii.eqb c "-" then option_map Z.opp (int_unsigned s')
      else int_unsigned (String c s')
  | EmptyString => None
  end.

(** The most digits CPython converts between [int] and [str]
    ([sys.int_max_str_digits], 4300 unless the interpreter is configured
    otherwise, from Python 3.11 on); above it both [int(s)] and [str(n)]
    raise [ValueError]. *)
Definition int_max_str_digits : Z := 4300.

(** Number of decimal digits in a text. *)
Fixpoint digit_count (s : string) : Z :=
  match s with
  | EmptyString => 0
  | String c s' => (if is_decimal c then 1 else 0) + digit_count s'
  end.

(** [int(s)] in base 10; [None] stands for [ValueError]: the text has more
    digits than the limit, or it is no literal. *)
Definition to_int (s : string) : option Z :=
  if int_max_str_digits <? digit_count s then None else int_literal s.

(** The decimal text of an integer. *)
Definition str_of_int (n : Z) : string := NilZero.string_of_int (Z.to_int n).

(** [str(n)] for an integer; [None] stands for the [ValueError] of an
    integer with more digits than the limit. *)
Definition str_int (n : Z) : option string :=
  let s := str_of_int n in
  if int_max_str_digits <? digit_count s then None else Some s.

(** [s.split(sep)] for a one-character separator. *)
Fixpoint split_on (sep : ascii) (s : string) : list string :=
  match s with
  | EmptyString => [EmptyString]
  | String c s' =>
      if Ascii.eqb c sep then EmptyString :: split_on sep s'
      else match split_on sep s' with
           | p :: ps => String c p :: ps
           | [] => [String c EmptyString]
           end
  end.

End PyText.

(** ** Values, exceptions and dictionaries *)

(** The values the parser stores: [str] or [int]. *)
Inductive value : Type :=
| VStr (s : string)
| VInt (n : Z).

Inductive exn : Type := AttributeError | ValueError.

Inductive result (A : Type) : Type :=
| Ok (a : A)
| Raise (e : exn).
Arguments Ok {A} a.
Arguments Raise {A} e.

Definition value_eqb (a b : value) : bool :=
  match a, b with
  | VStr s, VStr t => String.eqb s t
  | VInt n, VInt m => Z.eqb n m
  | _, _ => false
  end.

(** Truth value of an object in a condition. *)
Definition truthy (v : value) : bool :=
  match v with
  | VStr s => negb (PyText.is_empty s)
  | VInt n => negb (Z.eqb n 0)
  end.

(** Truth value of the result of [dict.get(key)], [None] when absent. *)
Definition truthy_opt (o : option value) : bool :=
  match o with Some v => truthy v | None => false end.

Definition opt_eqb (a b : option value) : bool :=
  match a, b with
  | Some x, Some y => value_eqb x y
  | None, None => true
  | _, _ => false
  end.

(** [str(v)], also the text an f-string substitutes for [v]; it raises on
    an integer above the conversion limit. *)
Definition py_str (v : value) : result string :=
  match v with
  | VStr s => Ok s
  | VInt n =>
      match PyText.str_int n with
      | Some s => Ok s
      | None => Raise ValueError
      end
  end.

(** Equality of dictionary keys, [==] in the source. *)
Class KeyEq (K : Type) : Type := { keyb : K -> K -> bool }.

#[export] Instance KeyEq_string : KeyEq string := {| keyb := String.eqb |}.

#[export] Instance KeyEq_value : KeyEq value := {| keyb := value_eqb |}.

Definition dict (K V : Type) : Type := list (K * V).

Section Dict.
Context {K V : Type} `{KeyEq K}.

(** [d.get(k)] *)
Fixpoint dict_get (d : dict K V) (k : K) : option V :=
  match d with
  | [] => None
  | (k', v) :: d' => if keyb k' k then Some v else dict_get d' k
  end.

(** [d.get(k, dflt)] *)
Definition dict_get_default (d : dict K V) (k : K) (dflt : V) : V :=
  match dict_get d k with Some v => v | None => dflt end.

(** [k in d] *)
Definition dict_mem (d : dict K V) (k : K) : bool :=
  match dict_get d k with Some _ => true | None => false end.

(** [d[k] = v]: a key already present keeps its place, a new key goes
    last. *)
Fixpoint dict_set (d : dict K V) (k : K) (v : V) : dict K V :=
  match d with
  | [] => [(k, v)]
  | (k', v') :: d' =>
      if keyb k' k then (k', v) :: d' else (k', v') :: dict_set d' k v
  end.

Definition dict_keys (d : dict K V) : list K := map fst d.
End Dict.

(** One parsed log line: a [dict] from field name to value. *)
Definition record : Type := dict string value.

(** ** The syslog collector *)

Module Collector.
Import PyText.

Definition is_quote (c : ascii) : bool := Ascii.eqb c "034"%char.

(** The quoted alternative, tried right after the [=]: an opening quote, the
    longest run of characters other than the quote, and a closing quote. *)
Definition match_quoted (s : string) : option string :=
  match s with
  | String c s1 =>
      if is_quote c then
        let (q, rest) := span (fun x => negb (is_quote x)) s1 in
        match rest with
        | String _ _ => Some q
        | EmptyString => None
        end
      else None
  | EmptyString => None
  end.

(** One attempt of the pattern of [parse_fortigate_log] (a run of [\w], an
    [=], then a quoted value or a run of [\S]) at the head of [s]: the three
    groups and the length of the match.  The key is the
    longest run of word characters (a shorter run is followed by a word
    character, never by [=]); a group that takes no part is empty, as
    [re.findall] reports it. *)
Definition match_at (s : string) : option (string * string * string * nat) :=
  let (key, r1) := span is_word s in
  if is_empty key then None
  else match r1 with
       | String c r2 =>
           if Ascii.eqb c "="%char then
             match match_quoted r2 with
             | Some q =>
                 Some (key, q, EmptyString,
                       (String.length key + 1 + (String.length q + 2))%nat)
             | None =>
                 let (u, _) := span (fun x => negb (is_space x)) r2 in
                 if is_empty u then None
                 else Some (key, EmptyString, u,
                            (String.length key + 1 + String.length u)%nat)
             end
           else None
       | EmptyString => None
       end.

(** [re.findall]: leftmost matches, scanning on after each match; [skip]
    counts the characters of the last match still to be passed. *)
Fixpoint findall_from (skip : nat) (s : string) : list (string * string * string) :=
  match s with
  | EmptyString => []
  | String _ s' =>
      match skip with
      | S k => findall_from k s'
      | O =>
          match match_at s with
          | Some (m, len) => m :: findall_from (Nat.pred len) s'
          | None => findall_from 0 s'
          end
      end
  end.

Definition findall (raw : string) : list (string * string * string) :=
  findall_from 0 raw.

(** The body of the loop over the matches: pick the group, turn an
    all-digit value into an [int]. *)
Definition token_value (quoted_val unquoted_val : string) : result value :=
  let value := if is_empty quoted_val then unquoted_val else quoted_val in
  if isdigit value then
    match to_int value with
    | Some n => Ok (VInt n)
    | None => Raise ValueError
    end
  else Ok (VStr value).

Fixpoint store_tokens (matches : list (string * string * string)) (parsed : record)
  : result record :=
  match matches with
  | [] => Ok parsed
  | (key, quoted_val, unquoted_val) :: rest =>
      match token_value quoted_val unquoted_val with
      | Ok v => store_tokens rest (dict_set parsed key v)
      | Raise e => Raise e
      end
  end.

Definition categories : list (string * string * string) :=
  [ ("traffic", "forward", "traffic_forward");
    ("traffic", "local", "traffic_local");
    ("utm", "virus", "security_av");
    ("utm", "webfilter", "security_web");
    ("utm", "ips", "security_ips");
    ("utm", "app-ctrl", "security_app");
    ("event", "system", "event_system");
    ("event", "vpn", "event_vpn");
    ("event", "user", "event_user") ].

Fixpoint categories_get (tbl : list (string * string * string)) (t s : value)
  : option string :=
  match tbl with
  | [] => None
  | (t', s', c) :: tbl' =>
      if value_eqb (VStr t') t && value_eqb (VStr s') s then Some c
      else categories_get tbl' t s
  end.

(** The f-string [f"{a}{sep}{b}"]: the text of [a], then that of [b]. *)
Definition joined (a : value) (sep : string) (b : value) : result string :=
  match py_str a with
  | Raise e => Raise e
  | Ok sa =>
      match py_str b with
      | Raise e => Raise e
      | Ok sb => Ok (sa ++ sep ++ sb)
      end
  end.

(** The default handed to [categories.get] is an argument of the call, so
    the f-string is formatted whether or not the pair is in the table. *)
Definition _categorize_log (log : record) : result string :=
  let log_type := dict_get_default log "type" (VStr "") in
  let subtype := dict_get_default log "subtype" (VStr "") in
  match joined log_type "_" subtype with
  | Raise e => Raise e
  | Ok dflt =>
      match categories_get categories log_type subtype with
      | Some c => Ok c
      | None => Ok dflt
      end
  end.

(** The lines that set [timestamp]. *)
Definition stamp (parsed : record) : result record :=
  match dict_get parsed "date", dict_get parsed "time" with
  | Some d, Some t =>
      match joined d "T" t with
      | Raise e => Raise e
      | Ok ts => Ok (dict_set parsed "timestamp" (VStr ts))
      end
  | _, _ => Ok parsed
  end.

(** [now] is the text of [datetime.utcnow().isoformat()] at the call. *)
Definition parse_fortigate_log (now : string) (raw : string) : result record :=
  let parsed := [("raw", VStr raw); ("received_at", VStr now)] in
  match store_tokens (findall raw) parsed with
  | Raise e => Raise e
  | Ok parsed =>
      match stamp parsed with
      | Raise e => Raise e
      | Ok parsed =>
          match _categorize_log parsed with
          | Raise e => Raise e
          | Ok log_category =>
              Ok (dict_set parsed "log_category" (VStr log_category))
          end
      end
  end.

End Collector.


(** ** The log aggregator *)

Module Aggregator.

Record statistics : Type := mkStats {
  total_logs : Z;
  by_action : dict value Z;
  by_srcip : dict value Z;
  by_dstip : dict value Z;
  by_type : dict value Z;
  blocked_count : Z;
  allowed_count : Z;
  blocked_sites : dict value Z;
  by_destination : dict value Z;
  blocked_categories : dict value Z;
  blocked_sites_detail : dict value (dict value Z);
  blocked_categories_detail : dict value (dict value (dict value Z))
}.

(** The object state of [LogAggregator]: [max_logs], [_logs], [stats]. *)
Record aggregator : Type := mkAgg {
  max_logs : Z;
  _logs : list record;
  stats : statistics
}.

Definition empty_stats : statistics :=
  mkStats 0 [] [] [] [] 0 0 [] [] [] [] [].

(** [LogAggregator(max_logs)] *)
Definition init (max_logs : Z) : aggregator := mkAgg max_logs [] empty_stats.

(** [reset] *)
Definition reset (a : aggregator) : aggregator := mkAgg (max_logs a) [] empty_stats.

Definition set_logs (l : list record) (a : aggregator) : aggregator :=
  mkAgg (max_logs a) l (stats a).

Definition on_stats (f : statistics -> statistics) (a : aggregator) : aggregator :=
  mkAgg (max_logs a) (_logs a) (f (stats a)).

Definition bump_total (s : statistics) : statistics :=
  mkStats (total_logs s + 1) (by_action s) (by_srcip s) (by_dstip s) (by_type s)
    (blocked_count s) (allowed_count s) (blocked_sites s) (by_destination s)
    (blocked_categories s) (blocked_sites_detail s) (blocked_categories_detail s).

Definition bump_blocked (s : statistics) : statistics :=
  mkStats (total_logs s) (by_action s) (by_srcip s) (by_dstip s) (by_type s)
    (blocked_count s + 1) (allowed_count s) (blocked_sites s) (by_destination s)
    (blocked_categories s) (blocked_sites_detail s) (blocked_categories_detail s).

Definition bump_allowed (s : statistics) : statistics :=
  mkStats (total_logs s) (by_action s) (by_srcip s) (by_dstip s) (by_type s)
    (blocked_count s) (allowed_count s + 1) (blocked_sites s) (by_destination s)
    (blocked_categories s) (blocked_sites_detail s) (blocked_categories_detail s).

Definition with_by_action (f : dict value Z -> dict value Z) (s : statistics)
  : statistics :=
  mkStats (total_logs s) (f (by_action s)) (by_srcip s) (by_dstip s) (by_type s)
    (blocked_count s) (allowed_count s) (blocked_sites s) (by_destination s)
    (blocked_categories s) (blocked_sites_detail s) (blocked_categories_detail s).

Definition with_by_srcip (f : dict value Z -> dict value Z) (s : statistics)
  : statistics :=
  mkStats (total_logs s) (by_action s) (f (by_srcip s)) (by_dstip s) (by_type s)
    (blocked_count s) (allowed_count s) (blocked_sites s) (by_destination s)
    (blocked_categories s) (blocked_sites_detail s) (blocked_categories_detail s).

Definition with_by_dstip (f : dict value Z -> dict value Z) (s : statistics)
  : statistics :=
  mkStats (total_logs s) (by_action s) (by_srcip s) (f (by_dstip s)) (by_type s)
    (blocked_count s) (allowed_count s) (blocked_sites s) (by_destination s)
    (blocked_categories s) (blocked_sites_detail s) (blocked_categories_detail s).

Definition with_by_type (f : dict value Z -> dict value Z) (s : statistics)
  : statistics :=
  mkStats (total_logs s) (by_action s) (by_srcip s) (by_dstip s) (f (by_type s))
    (blocked_count s) (allowed_count s) (blocked_sites s) (by_destination s)
    (blocked_categories s) (blocked_sites_detail s) (blocked_categories_detail s).

Definition with_blocked_sites (f : dict value Z -> dict value Z) (s : statistics)
  : statistics :=
  mkStats (total_logs s) (by_action s) (by_srcip s) (by_dstip s) (by_type s)
    (blocked_count s) (allowed_count s) (f (blocked_sites s)) (by_destination s)
    (blocked_categories s) (blocked_sites_detail s) (blocked_categories_detail s).

Definition with_by_destination (f : dict value Z -> dict value Z) (s : statistics)
  : statistics :=
  mkStats (total_logs s) (by_action s) (by_srcip s) (by_dstip s) (by_type s)
    (blocked_count s) (allowed_count s) (blocked_sites s) (f (by_destination s))
    (blocked_categories s) (blocked_sites_detail s) (blocked_categories_detail s).

Definition with_blocked_categories (f : dict value Z -> dict value Z) (s : statistics)
  : statistics :=
  mkStats (total_logs s) (by_action s) (by_srcip s) (by_dstip s) (by_type s)
    (blocked_count s) (allowed_count s) (blocked_sites s) (by_destination s)
    (f (blocked_categories s)) (blocked_sites_detail s) (blocked_categories_detail s).

Definition with_blocked_sites_detail
  (f : dict value (dict value Z) -> dict value (dict value Z)) (s : statistics)
  : statistics :=
  mkStats (total_logs s) (by_action s) (by_srcip s) (by_dstip s) (by_type s)
    (blocked_count s) (allowed_count s) (blocked_sites s) (by_destination s)
    (blocked_categories s) (f (blocked_sites_detail s)) (blocked_categories_detail s).

Definition with_blocked_categories_detail
  (f : dict value (dict value (dict value Z)) -> dict value (dict value (dict value Z)))
  (s : statistics) : statistics :=
  mkStats (total_logs s) (by_action s) (by_srcip s) (by_dstip s) (by_type s)
    (blocked_count s) (allowed_count s) (blocked_sites s) (by_destination s)
    (blocked_categories s) (blocked_sites_detail s) (f (blocked_categories_detail s)).

(** *** A method body: state kept across a raised exception *)

Definition M (A : Type) : Type := aggregator -> result A * aggregator.

Definition ret {A} (x : A) : M A := fun a => (Ok x, a).

Definition bind {A B} (m : M A) (k : A -> M B) : M B :=
  fun a => match m a with
           | (Ok x, a') => k x a'
           | (Raise e, a') => (Raise e, a')
           end.

Definition get : M aggregator := fun a => (Ok a, a).

Definition modify (f : aggregator -> aggregator) : M unit := fun a => (Ok tt, f a).

Definition update (f : statistics -> statistics) : M unit := modify (on_stats f).

Definition lift {A} (r : result A) : M A := fun a => (r, a).

Definition when (b : bool) (m : M unit) : M unit := if b then m else ret tt.

Notation "x <- m ;; k" := (bind m (fun x => k))
  (at level 61, m at next level, right associativity).
Notation "m ;; k" := (bind m (fun _ => k))
  (at level 61, right associativity).

(** *** Helpers of [add_log] *)

(** [l[start:]] *)
Definition slice_from (start : Z) {A} (l : list A) : list A :=
  let len := Z.of_nat (length l) in
  let i := if start <? 0 then Z.max (len + start) 0 else Z.min start len in
  skipn (Z.to_nat i) l.

(** [d[k] = d.get(k, 0) + 1] *)
Definition incr (k : value) (d : dict value Z) : dict value Z :=
  dict_set d k (dict_get_default d k 0 + 1).

Definition block_words : list string := ["deny"; "denied"; "blocked"; "drop"; "block"].
Definition allow_words : list string := ["accept"; "accepted"; "allow"; "allowed"; "pass"].

(** [x in (w1, w2, ...)] *)
Definition mem (x : string) (ws : list string) : bool := existsb (String.eqb x) ws.

(** [str(action).lower() if action else ''] *)
Definition action_lower (action : value) : result string :=
  if truthy action then
    match py_str action with
    | Ok s => Ok (PyText.lower s)
    | Raise e => Raise e
    end
  else Ok EmptyString.

(** The generator under [all(...)] in [_is_ip_address]: stops at the first
    part out of range, raises where [int(part)] does. *)
Fixpoint all_octets (parts : list string) : result bool :=
  match parts with
  | [] => Ok true
  | part :: rest =>
      match PyText.to_int part with
      | None => Raise ValueError
      | Some n => if (0 <=? n) && (n <=? 255) then all_octets rest else Ok false
      end
  end.

(** [_is_ip_address(value)]; the [split] is outside the [try], so a non-empty
    value without that method raises. *)
Definition _is_ip_address (v : option value) : result bool :=
  if negb (truthy_opt v) then Ok false
  else match v with
       | Some (VStr s) =>
           let parts := PyText.split_on "."%char s in
           if negb (Nat.eqb (length parts) 4) then Ok false
           else match all_octets parts with
                | Ok b => Ok b
                | Raise _ => Ok false
                end
       | _ => Raise AttributeError
       end.

(** [hostname and hostname != dstip and not self._is_ip_address(hostname)],
    evaluated left to right. *)
Definition hostname_names_site (hostname dstip : option value) : result bool :=
  if truthy_opt hostname && negb (opt_eqb hostname dstip) then
    match _is_ip_address hostname with
    | Ok b => Ok (negb b)
    | Raise e => Raise e
    end
  else Ok false.

(** [a or b] on two results of [dict.get]. *)
Definition py_or (a b : option value) : option value :=
  if truthy_opt a then a else b.

(** The body of [if blocked_site:] in the blocked-sites branch. *)
Definition count_blocked_site (site : value) (srcip : option value) : M unit :=
  update (with_blocked_sites (incr site)) ;;
  a <- get ;;
  when (negb (dict_mem (blocked_sites_detail (stats a)) site))
       (update (with_blocked_sites_detail (fun d => dict_set d site []))) ;;
  match srcip with
  | Some src =>
      when (truthy src)
        (update (with_blocked_sites_detail (fun d =>
           dict_set d site (incr src (dict_get_default d site [])))))
  | None => ret tt
  end.

(** The body of [if subtype == 'webfilter' or catdesc:]. *)
Definition count_blocked_category (catdesc srcip blocked_site : option value)
  : M unit :=
  let category :=
    match catdesc with
    | Some c => if truthy c then c else VStr "Other"
    | None => VStr "Other"
    end in
  update (with_blocked_categories (incr category)) ;;
  a <- get ;;
  when (negb (dict_mem (blocked_categories_detail (stats a)) category))
       (update (with_blocked_categories_detail (fun d => dict_set d category []))) ;;
  match srcip with
  | Some src =>
      when (truthy src)
        (a <- get ;;
         when (negb (dict_mem
                 (dict_get_default (blocked_categories_detail (stats a)) category [])
                 src))
           (update (with_blocked_categories_detail (fun d =>
              dict_set d category (dict_set (dict_get_default d category []) src [])))) ;;
         match blocked_site with
         | Some site =>
             when (truthy site)
               (update (with_blocked_categories_detail (fun d =>
                  let per_cat := dict_get_default d category [] in
                  dict_set d category
                    (dict_set per_cat src
                       (incr site (dict_get_default per_cat src []))))))
         | None => ret tt
         end)
  | None => ret tt
  end.

(** [add_log(log)], block by block. *)

(** [self._logs.append(log)] and the cut to the last [max_logs] entries. *)
Definition append_log (log : record) : M unit :=
  modify (fun a => set_logs (_logs a ++ [log]) a) ;;
  a <- get ;;
  when (Z.of_nat (length (_logs a)) >? max_logs a)
       (modify (fun a => set_logs (slice_from (- max_logs a) (_logs a)) a)).

Definition action_of (log : record) : value :=
  dict_get_default log "action" (VStr "unknown").

(** [total_logs], [by_action] and the blocked or allowed counter; what it
    returns is [action_lower], which the blocked branch reads again. *)
Definition count_action (log : record) : M string :=
  update bump_total ;;
  let action := action_of log in
  update (with_by_action (incr action)) ;;
  action_lower <- lift (action_lower action) ;;
  (if mem action_lower block_words then update bump_blocked
   else if mem action_lower allow_words then update bump_allowed
   else ret tt) ;;
  ret action_lower.

(** [by_srcip] and [by_dstip]. *)
Definition count_addresses (log : record) : M unit :=
  let srcip := dict_get log "srcip" in
  match srcip with
  | Some src => when (truthy src) (update (with_by_srcip (incr src)))
  | None => ret tt
  end ;;
  let dstip := dict_get log "dstip" in
  match dstip with
  | Some dst => when (truthy dst) (update (with_by_dstip (incr dst)))
  | None => ret tt
  end.

(** The choice of [destination] and [by_destination]. *)
Definition count_destination (log : record) : M unit :=
  let dstip := dict_get log "dstip" in
  let hostname := dict_get log "hostname" in
  use_hostname <- lift (hostname_names_site hostname dstip) ;;
  let destination := if use_hostname then hostname else dstip in
  match destination with
  | Some dest => when (truthy dest) (update (with_by_destination (incr dest)))
  | None => ret tt
  end.

(** The branch for a blocked [utm] record: blocked sites and categories. *)
Definition count_blocked (action_lower : string) (log : record) : M unit :=
  let srcip := dict_get log "srcip" in
  let dstip := dict_get log "dstip" in
  let hostname := dict_get log "hostname" in
  let log_type := dict_get_default log "type" (VStr "") in
  let subtype := dict_get_default log "subtype" (VStr "") in
  when (mem action_lower block_words && value_eqb log_type (VStr "utm"))
    (let blocked_site := py_or (dict_get log "hostname") (dict_get log "dstip") in
     site_is_host <-
       (if truthy_opt blocked_site
        then lift (hostname_names_site hostname dstip)
        else ret false) ;;
     let blocked_site :=
       if site_is_host then hostname
       else if negb (truthy_opt blocked_site) then dstip
       else blocked_site in
     match blocked_site with
     | Some site => when (truthy site) (count_blocked_site site srcip)
     | None => ret tt
     end ;;
     let catdesc := dict_get log "catdesc" in
     when (value_eqb subtype (VStr "webfilter") || truthy_opt catdesc)
          (count_blocked_category catdesc srcip blocked_site)).

(** [by_type] *)
Definition count_type (log : record) : M unit :=
  let log_cat := dict_get_default log "log_category" (VStr "unknown") in
  update (with_by_type (incr log_cat)).

Definition add_log (log : record) : M unit :=
  append_log log ;;
  action_lower <- count_action log ;;
  count_addresses log ;;
  count_destination log ;;
  count_blocked action_lower log ;;
  count_type log.

(** The aggregator after [add_log(log)], whether it returned or raised. *)
Definition after_add (a : aggregator) (log : record) : aggregator :=
  snd (add_log log a).

(** Records handed to [add_log] one after the other; the collector logs a
    failing callback and goes on with the next record. *)
Definition ingest (a : aggregator) (logs : list record) : aggregator :=
  fold_left after_add logs a.

(** [get_recent_logs(limit)] *)
Definition get_recent_logs (limit : Z) (a : aggregator) : list record :=
  slice_from (- limit) (_logs a).

(** *** [get_stats] *)

Section TopN.
Context {A : Type} (count : A -> Z).

(** Where a stable descending sort puts [x] in front of a sorted list: before
    the first entry that does not count more. *)
Fixpoint insert_desc (x : A) (l : list A) : list A :=
  match l with
  | [] => [x]
  | y :: l' => if count x <? count y then y :: insert_desc x l' else x :: l
  end.

(** [sorted(l, key=count, reverse=True)]: entries of equal count keep the
    order they have in [l]. *)
Definition sorted_desc (l : list A) : list A := fold_right insert_desc [] l.

(** [sorted(...)[:10]] *)
Definition top10 (l : list A) : list A := firstn 10 (sorted_desc l).
End TopN.

Record site_entry : Type := mkSite {
  site : value;
  site_count : Z;
  site_sources : list (value * Z)
}.

Record category_entry : Type := mkCategory {
  category : value;
  category_count : Z;
  category_sources : list (value * value * Z)
}.

Record stats_view : Type := mkView {
  view_total_logs : Z;
  view_blocked_count : Z;
  view_allowed_count : Z;
  view_by_action : dict value Z;
  view_by_type : dict value Z;
  top_sources : list (value * Z);
  top_destinations : list (value * Z);
  top_blocked : list (value * Z);
  top_blocked_categories : list (value * Z);
  top_blocked_detail : list site_entry;
  top_blocked_categories_detail : list category_entry
}.

(** The nested loops that fill [flattened]. *)
Definition flatten (cat_data : dict value (dict value Z)) : list (value * value * Z) :=
  flat_map (fun sd => map (fun dc => (fst sd, fst dc, snd dc)) (snd sd)) cat_data.

Definition site_detail (s : statistics) (sc : value * Z) : site_entry :=
  let sources := dict_get_default (blocked_sites_detail s) (fst sc) [] in
  mkSite (fst sc) (snd sc) (top10 snd sources).

Definition category_detail (s : statistics) (cc : value * Z) : category_entry :=
  let cat_data := dict_get_default (blocked_categories_detail s) (fst cc) [] in
  mkCategory (fst cc) (snd cc) (top10 snd (flatten cat_data)).

Definition get_stats (a : aggregator) : stats_view :=
  let s := stats a in
  let top_blocked := top10 snd (blocked_sites s) in
  let top_blocked_categories := top10 snd (blocked_categories s) in
  mkView (total_logs s) (blocked_count s) (allowed_count s) (by_action s) (by_type s)
    (top10 snd (by_srcip s))
    (top10 snd (by_destination s))
    top_blocked
    top_blocked_categories
    (map (site_detail s) top_blocked)
    (map (category_detail s) top_blocked_categories).

End Aggregator.


(** ** The datagram handler of the collector *)

Module Ingestor.
Import PyText Collector.

(** [s.strip()] *)
Definition strip (s : string) : string :=
  rev (snd (span is_space (rev (snd (span is_space s))))).

(** [s.startswith('<')] *)
Definition starts_with_bracket (s : string) : bool :=
  match s with
  | String c _ => Ascii.eqb c "<"
  | EmptyString => false
  end.

(** [s.find(c)] for a one-character [c]: the first index, or [-1]. *)
Fixpoint find_char (c : ascii) (s : string) : Z :=
  match s with
  | EmptyString => -1
  | String x s' =>
      if Ascii.eqb x c then 0
      else let i := find_char c s' in if i <? 0 then -1 else i + 1
  end.

Fixpoint drop (n : nat) (s : string) : string :=
  match n, s with
  | O, _ => s
  | S k, String _ s' => drop k s'
  | S _, EmptyString => EmptyString
  end.

(** [s[start:]] *)
Definition text_from (start : Z) (s : string) : string :=
  let len := Z.of_nat (String.length s) in
  let i := if start <? 0 then Z.max (len + start) 0 else Z.min start len in
  drop (Z.to_nat i) s.

(** The text [datagram_received] hands to the parser; [text] is the
    datagram once decoded. *)
Definition payload (text : string) : string :=
  let raw := strip text in
  if starts_with_bracket raw then
    let idx := find_char ">" raw in
    if idx >? 0 then strip (text_from (idx + 1) raw) else raw
  else raw.

(** [datagram_received(data, addr)]: the record passed on to [_notify], or
    [None] when the [except] clause logs a failure; [addr] is [addr[0]]. *)
Definition datagram_received (now text addr : string) : option record :=
  match parse_fortigate_log now (payload text) with
  | Ok log_entry => Some (dict_set log_entry "source_ip" (VStr addr))
  | Raise _ => None
  end.

End Ingestor.

(** ** The viewer: [useWebSocket] *)

Module WebSocketHook.

(** A JSON payload as [JSON.parse] returns it; numbers are integers here. *)
#[local] Unset Elimination Schemes.
Inductive json : Type :=
| JNull
| JBool (b : bool)
| JNum (n : Z)
| JStr (s : string)
| JList (l : list json)
| JObj (fields : list (string * json)).
#[local] Set Elimination Schemes.

(** Truth value of a message field in a condition or under [||]; a field the
    message does not carry is [undefined], here [None]. *)
Definition js_truthy (o : option json) : bool :=
  match o with
  | None | Some JNull => false
  | Some (JBool b) => b
  | Some (JNum n) => negb (Z.eqb n 0)
  | Some (JStr s) => negb (PyText.is_empty s)
  | Some (JList _) | Some (JObj _) => true
  end.

(** [field || dflt] *)
Definition js_or (o : option json) (dflt : json) : json :=
  match o with
  | Some v => if js_truthy o then v else dflt
  | None => dflt
  end.

(** The [stats] state; [other_stats] holds the fields the hook only copies
    ([by_action], [by_type] and whatever else the server sent). *)
Record view_stats : Type := mkViewStats {
  total_logs : Z;
  allowed_count : Z;
  blocked_count : Z;
  top_sources : json;
  top_destinations : json;
  other_stats : json
}.

(** One point of [trafficOverTime]; [total] is absent on the points built
    from the initial logs. *)
Record bucket : Type := mkBucket {
  time : string;
  allowed : Z;
  blocked : Z;
  total : option Z
}.

Record hook : Type := mkHook {
  logs : list record;
  stats : view_stats;
  trafficOverTime : list bucket;
  topBlocked : json;
  topBlockedCategories : json;
  topBlockedDetail : json;
  topBlockedCategoriesDetail : json;
  isPaused : bool
}.

(** The state [useState] and [useRef] start from. *)
Definition initial_stats : view_stats :=
  mkViewStats 0 0 0 (JList []) (JList [])
    (JObj [("by_action", JObj []); ("by_type", JObj [])]).

Definition initial : hook :=
  mkHook [] initial_stats [] (JList []) (JList []) (JList []) (JList []) false.

Inductive message : Type :=
| MsgInit (init_stats : view_stats) (init_logs : option (list record))
    (top_blocked top_blocked_categories top_blocked_detail
       top_blocked_categories_detail : option json)
| MsgLog (log : record)
| MsgStatsUpdate (top_sources top_destinations top_blocked top_blocked_categories
    top_blocked_detail top_blocked_categories_detail : option json)
| MsgOther (type : string).

Definition blocked_actions : list string := ["deny"; "block"; "drop"; "blocked"].
Definition allowed_actions : list string := ["accept"; "allow"; "pass"; "passthrough"].

(** [list.includes(log.action)]: strict equality with one of the strings. *)
Definition includes (ws : list string) (action : option value) : bool :=
  match action with
  | Some (VStr s) => existsb (String.eqb s) ws
  | _ => false
  end.

Definition flag (b : bool) : Z := if b then 1 else 0.

(** [l.slice(-n)] *)
Definition last_n {A} (n : nat) (l : list A) : list A :=
  skipn (length l - n) l.

Section Handler.
(** What the browser's [Date] supplies: a reading of the clock, the [H:MM]
    key of a log (from its [timestamp], or from the clock without one), and
    the per-minute points the [init] branch builds from the initial logs. *)
Variable clock : Type.
Variable time_key : record -> clock -> string.
Variable history_traffic : list record -> clock -> list bucket.

Definition init_branch (now : clock) (init_stats : view_stats)
  (init_logs : option (list record))
  (top_blocked top_blocked_categories top_blocked_detail
     top_blocked_categories_detail : option json) (h : hook) : hook :=
  let initialLogs := match init_logs with Some l => l | None => [] end in
  mkHook initialLogs init_stats (history_traffic initialLogs now)
    (js_or top_blocked (JList []))
    (js_or top_blocked_categories (JList []))
    (js_or top_blocked_detail (JList []))
    (js_or top_blocked_categories_detail (JList []))
    (isPaused h).

(** The updater given to [setTrafficOverTime] in the [log] branch. *)
Definition traffic_step (timeKey : string) (isAllowed isBlocked : bool)
  (prev : list bucket) : list bucket :=
  match List.rev prev with
  | lastEntry :: before =>
      if String.eqb (time lastEntry) timeKey then
        List.rev before ++
          [mkBucket (time lastEntry)
             (allowed lastEntry + flag isAllowed)
             (blocked lastEntry + flag isBlocked)
             (Some (match total lastEntry with
                    | Some t => if Z.eqb t 0 then 0 else t
                    | None => 0
                    end + 1))]
      else last_n 20 (prev ++ [mkBucket timeKey (flag isAllowed) (flag isBlocked) (Some 1)])
  | [] => last_n 20 (prev ++ [mkBucket timeKey (flag isAllowed) (flag isBlocked) (Some 1)])
  end.

Definition log_branch (now : clock) (log : record) (h : hook) : hook :=
  let isBlocked := includes blocked_actions (dict_get log "action") in
  let isAllowed := includes allowed_actions (dict_get log "action") in
  let prev := stats h in
  mkHook
    (firstn 1000 (log :: logs h))
    (mkViewStats (total_logs prev + 1)
       (allowed_count prev + flag isAllowed)
       (blocked_count prev + flag isBlocked)
       (top_sources prev) (top_destinations prev) (other_stats prev))
    (traffic_step (time_key log now) isAllowed isBlocked (trafficOverTime h))
    (topBlocked h) (topBlockedCategories h) (topBlockedDetail h)
    (topBlockedCategoriesDetail h) (isPaused h).

(** The [stats_update] branch; [if (x) setX(x)] leaves the state as it is
    when the field is absent or falsy, which is [js_or x (the state)]. *)
Definition stats_update_branch
  (top_sources' top_destinations' top_blocked top_blocked_categories
     top_blocked_detail top_blocked_categories_detail : option json) (h : hook) : hook :=
  let prev := stats h in
  let stats' :=
    if js_truthy top_sources' || js_truthy top_destinations' then
      mkViewStats (total_logs prev) (allowed_count prev) (blocked_count prev)
        (js_or top_sources' (top_sources prev))
        (js_or top_destinations' (top_destinations prev))
        (other_stats prev)
    else prev in
  mkHook (logs h) stats' (trafficOverTime h)
    (js_or top_blocked (topBlocked h))
    (js_or top_blocked_categories (topBlockedCategories h))
    (js_or top_blocked_detail (topBlockedDetail h))
    (js_or top_blocked_categories_detail (topBlockedCategoriesDetail h))
    (isPaused h).

(** [ws.onmessage]: three tests on [msg.type], one after the other. *)
Definition onmessage (now : clock) (msg : message) (h : hook) : hook :=
  match msg with
  | MsgInit st lg tb tbc tbd tbcd => init_branch now st lg tb tbc tbd tbcd h
  | MsgLog log => if negb (isPaused h) then log_branch now log h else h
  | MsgStatsUpdate ts td tb tbc tbd tbcd => stats_update_branch ts td tb tbc tbd tbcd h
  | MsgOther _ => h
  end.

(** [pauseUpdates(paused)] *)
Definition pauseUpdates (paused : bool) (h : hook) : hook :=
  mkHook (logs h) (stats h) (trafficOverTime h) (topBlocked h)
    (topBlockedCategories h) (topBlockedDetail h) (topBlockedCategoriesDetail h)
    paused.

(** [clearLogs()] *)
Definition clearLogs (h : hook) : hook :=
  mkHook [] initial_stats [] (JList []) (JList []) (JList []) (JList []) (isPaused h).

(** What happens to the hook: a message arrives at some clock reading, or
    the page calls [pauseUpdates] or [clearLogs]. *)
Inductive event : Type :=
| Receive (now : clock) (msg : message)
| Pause (paused : bool)
| Clear.

Definition step (h : hook) (e : event) : hook :=
  match e with
  | Receive now msg => onmessage now msg h
  | Pause paused => pauseUpdates paused h
  | Clear => clearLogs h
  end.

Definition run (h : hook) (es : list event) : hook := fold_left step es h.

End Handler.

End WebSocketHook.


(** ** The initial traffic map of [useWebSocket] and the log table *)

Module TrafficMap.
Import WebSocketHook.

Definition inc_allowed (b : bucket) : bucket :=
  mkBucket (time b) (allowed b + 1) (blocked b) (total b).

Definition inc_blocked (b : bucket) : bucket :=
  mkBucket (time b) (allowed b) (blocked b + 1) (total b).

(** [trafficMap[timeKey].field++] on an entry that is there. *)
Definition on_entry (f : bucket -> bucket) (timeKey : string)
  (m : dict string bucket) : dict string bucket :=
  match dict_get m timeKey with
  | Some b => dict_set m timeKey (f b)
  | None => m
  end.

(** The body of [initialLogs.forEach] in the [init] branch; [timeKey] is the
    key the browser's [Date] gave for the log. *)
Definition note (m : dict string bucket) (keyed : string * record)
  : dict string bucket :=
  let timeKey := fst keyed in
  let log := snd keyed in
  let isBlocked := includes blocked_actions (dict_get log "action") in
  let isAllowed := includes allowed_actions (dict_get log "action") in
  let m := if dict_mem m timeKey then m
           else dict_set m timeKey (mkBucket timeKey 0 0 None) in
  let m := if isAllowed then on_entry inc_allowed timeKey m else m in
  if isBlocked then on_entry inc_blocked timeKey m else m.

(** [s.padStart(2, '0')] *)
Definition pad2 (s : string) : string :=
  match s with
  | EmptyString => "00"
  | String c EmptyString => String "0" (String c EmptyString)
  | _ => s
  end.

(** The key of a log: hours and minutes of its [Date], [None] for an invalid
    date, whose parts print as [NaN]. *)
Definition timeKey (logTime : option (Z * Z)) : string :=
  match logTime with
  | Some (hours, minutes) =>
      PyText.str_of_int hours ++ ":" ++ pad2 (PyText.str_of_int minutes)
  | None => "NaN:NaN"
  end.

(** [trafficMap] after the loop over the initial logs, each with the time its
    [Date] gave. *)
Definition trafficMap (timed : list (option (Z * Z) * record)) : dict string bucket :=
  fold_left note (map (fun tl => (timeKey (fst tl), snd tl)) timed) [].

End TrafficMap.

Module LogTable.
Import WebSocketHook.

Definition allow_list : list string := ["accept"; "allow"; "pass"; "passthrough"].
Definition block_list : list string := ["deny"; "block"; "drop"; "blocked"].

(** [(field || '').toLowerCase()]; [None] stands for the [TypeError] a
    non-zero number raises, having no such method. *)
Definition lowered (field : option value) : option string :=
  match field with
  | Some (VStr s) => Some (PyText.lower s)
  | Some (VInt n) => if n =? 0 then Some EmptyString else None
  | None => Some EmptyString
  end.

(** [s.includes(t)] *)
Fixpoint contains (t s : string) : bool :=
  String.prefix t s ||
  match s with
  | String _ s' => contains t s'
  | EmptyString => false
  end.

(** The callback given to [logs.filter]. *)
Definition keep (filter search : string) (log : record) : option bool :=
  if String.eqb filter "allow" && negb (includes allow_list (dict_get log "action"))
  then Some false
  else if String.eqb filter "block" && negb (includes block_list (dict_get log "action"))
  then Some false
  else if negb (PyText.is_empty search) then
    let searchLower := PyText.lower search in
    match lowered (dict_get log "srcip"), lowered (dict_get log "dstip"),
          lowered (dict_get log "hostname"), lowered (dict_get log "url") with
    | Some srcip, Some dstip, Some hostname, Some url =>
        if negb (contains searchLower srcip) && negb (contains searchLower dstip)
           && negb (contains searchLower hostname) && negb (contains searchLower url)
        then Some false
        else Some true
    | _, _, _, _ => None
    end
  else Some true.

(** [matchedLogs]: [logs.filter(...)], which throws where its callback does. *)
Fixpoint matchedLogs (filter search : string) (logs : list record)
  : option (list record) :=
  match logs with
  | [] => Some []
  | log :: rest =>
      match keep filter search log with
      | None => None
      | Some b =>
          match matchedLogs filter search rest with
          | None => None
          | Some r => Some (if b then log :: r else r)
          end
      end
  end.

(** [l.slice(0, stop)] *)
Definition slice_to (stop : Z) {A} (l : list A) : list A :=
  let len := Z.of_nat (length l) in
  let j := if stop <? 0 then Z.max (len + stop) 0 else Z.min stop len in
  firstn (Z.to_nat j) l.

(** [filteredLogs] *)
Definition filteredLogs (filter search : string) (viewLimit : Z) (logs : list record)
  : option (list record) :=
  option_map (slice_to viewLimit) (matchedLogs filter search logs).

(** [getActionClass(action)] *)
Definition getActionClass (action : option value) : string :=
  if includes allow_list action then "action-allow"
  else if includes block_list action then "action-block"
  else EmptyString.

(** [formatTime(log)]; [local_time] stands for
    [new Date(x).toLocaleTimeString()], and [None] for the [TypeError] of
    calling [split] on a number. *)
Definition formatTime (local_time : value -> string) (log : record) : option string :=
  let from_received_at :=
    match dict_get log "received_at" with
    | Some r => if truthy r then local_time r else "-"
    | None => "-"
    end in
  match dict_get log "timestamp" with
  | Some (VStr s) =>
      if PyText.is_empty s then Some from_received_at
      else match PyText.split_on "T" s with
           | _ :: part :: _ => Some (if PyText.is_empty part then s else part)
           | _ => Some s
           end
  | Some (VInt n) => if n =? 0 then Some from_received_at else None
  | None => Some from_received_at
  end.

End LogTable.

(** ** The bars of [TopList] and [ExpandableTopList] *)

Module TopList.

(** [items.slice(0, maxItems)] *)
Definition displayItems {A} (maxItems : Z) (items : list A) : list A :=
  LogTable.slice_to maxItems items.

(** [maxCount], the count of the first item shown, read by [count]:
    [item[1]] in [TopList], [item.count] in [ExpandableTopList]. *)
Definition maxCount {A} (count : A -> Z) (maxItems : Z) (items : list A) : Z :=
  match displayItems maxItems items with
  | first :: _ => count first
  | [] => 0
  end.

End TopList.

(** * Vocabulary of the statements *)

(** What [==] on keys must satisfy. *)
Class KeyEqLaws (K : Type) `{KeyEq K} : Prop := {
  keyb_eq : forall x y : K, keyb x y = true <-> x = y
}.

(** The text of a value: the string itself, the decimal text of an integer.
    It is what [str] returns whenever it returns. *)
Definition value_text (v : value) : string :=
  match v with
  | VStr s => s
  | VInt n => PyText.str_of_int n
  end.

(** The value is an integer of more than 4300 digits, more than [str]
    converts. *)
Definition too_many_digits (v : value) : bool :=
  match v with
  | VInt n => 4300 <? PyText.digit_count (PyText.str_of_int n)
  | VStr _ => false
  end.

Module AggregatorSpec.
Import Aggregator.

(** [m] leaves the component [f] of the aggregator as it was. *)
Definition keeps {A X} (f : aggregator -> X) (m : M A) : Prop :=
  forall a, f (snd (m a)) = f a.

(** [m] returns, it never raises. *)
Definition returns {A} (m : M A) : Prop :=
  forall a, exists x, fst (m a) = Ok x.

(** The three counters of the statistics. *)
Definition counters (a : aggregator) : Z * Z * Z :=
  (total_logs (stats a), blocked_count (stats a), allowed_count (stats a)).

Definition ring (a : aggregator) : Z * list record := (max_logs a, _logs a).

(** The text the membership tests of [add_log] read when [str] gives it:
    the action in lower case, the empty text for an empty or zero action. *)
Definition action_text (log : record) : string :=
  if truthy (action_of log) then PyText.lower (value_text (action_of log))
  else EmptyString.

(** The membership tests of [add_log] on a record; it reaches neither when
    [str] raises on the action. *)
Definition action_in (ws : list string) (log : record) : bool :=
  match action_lower (action_of log) with
  | Ok text => mem text ws
  | Raise _ => false
  end.

Definition block_like (log : record) : bool := action_in block_words log.

Definition allow_like (log : record) : bool := action_in allow_words log.

Definition classified (log : record) : bool := block_like log || allow_like log.

(** Number of records that one of the two tests accepts. *)
Definition count_classified (logs : list record) : Z :=
  Z.of_nat (length (filter classified logs)).

(** The allow-like class as the specification words it: membership of the
    action value itself in a fixed set. *)
Definition spec_allow_like (log : record) : bool :=
  match dict_get log "action" with
  | Some (VStr s) => existsb (String.eqb s) ["accept"; "allow"; "pass"; "passthrough"]
  | _ => false
  end.

Definition lastn {A} (n : nat) (l : list A) : list A := skipn (length l - n) l.

Definition destinations (a : aggregator) : dict value Z := by_destination (stats a).

Definition site_tables (a : aggregator)
  : dict value Z * dict value (dict value Z) :=
  (blocked_sites (stats a), blocked_sites_detail (stats a)).

Definition actions (a : aggregator) : dict value Z := by_action (stats a).

Section Ranking.
Context {A : Type} (count : A -> Z).

Definition counts (c : Z) (x : A) : bool := count x =? c.

Definition descending (x y : A) : Prop := count y <= count x.

(** [out] is the head of the ranking of [src]: at most ten entries which,
    followed by the entries left out, are [src] rearranged by descending
    count, entries of one count keeping the order they have in [src]. *)
Definition ranked (src out : list A) : Prop :=
  (length out <= 10)%nat /\
  exists rest,
    Permutation src (out ++ rest) /\
    StronglySorted descending (out ++ rest) /\
    (forall c, filter (counts c) (out ++ rest) = filter (counts c) src) /\
    (rest <> [] -> length out = 10%nat).

End Ranking.

(** The keys of a run in the order of their first occurrence. *)
Definition note_key (seen : list value) (k : value) : list value :=
  if existsb (fun k' => value_eqb k' k) seen then seen else seen ++ [k].

Definition first_occurrences (ks : list value) : list value :=
  fold_left note_key ks [].

(** The source a record is counted under, if any: none when [add_log]
    raised at the action, before it read the source. *)
Definition counted_source (log : record) : list value :=
  if too_many_digits (action_of log) then []
  else match dict_get log "srcip" with
       | Some src => if truthy src then [src] else []
       | None => []
       end.

(** The source and destination a blocked record is filed under, and the
    place in the run where a pair of them is seen first. *)
Definition filed_under (log : record) : option (value * value) :=
  match dict_get log "srcip", dict_get log "hostname" with
  | Some src, Some dest => Some (src, dest)
  | _, _ => None
  end.

Fixpoint first_seen (p : value * value) (logs : list record) : nat :=
  match logs with
  | [] => 0
  | log :: rest =>
      match filed_under log with
      | Some q =>
          if value_eqb (fst p) (fst q) && value_eqb (snd p) (snd q) then 0
          else S (first_seen p rest)
      | None => S (first_seen p rest)
      end
  end.

Definition gambling (src dest : string) : record :=
  [("type", VStr "utm"); ("subtype", VStr "webfilter"); ("action", VStr "blocked");
   ("srcip", VStr src); ("hostname", VStr dest); ("catdesc", VStr "Gambling")].

End AggregatorSpec.

Module ParserSpec.
Import PyText Collector.

(** The number a text of decimal digits denotes, most significant first. *)
Fixpoint decimal_from (acc : Z) (s : string) : Z :=
  match s with
  | EmptyString => acc
  | String c s' => decimal_from (10 * acc + (Z.of_N (N_of_ascii c) - 48)) s'
  end.

Definition decimal_value (s : string) : Z := decimal_from 0 s.

(** The value a match stands for: the quoted group unless it is empty. *)
Definition token_text (quoted_val unquoted_val : string) : string :=
  if is_empty quoted_val then unquoted_val else quoted_val.

(** Every value of the record is one [str] returns on. *)
Definition printable (d : record) : Prop :=
  forall k v, dict_get d k = Some v -> too_many_digits v = false.

(** A text of [n] nines. *)
Definition nines (n : N) : string := N.iter n (String "9"%char) EmptyString.

(** The call returned. *)
Definition returned {A} (r : result A) : bool :=
  match r with
  | Ok _ => true
  | Raise _ => false
  end.

(** The groups of the last match whose key is [key]. *)
Fixpoint last_token (key : string) (matches : list (string * string * string))
  : option (string * string) :=
  match matches with
  | [] => None
  | (k, q, u) :: rest =>
      match last_token key rest with
      | Some r => Some r
      | None => if String.eqb k key then Some (q, u) else None
      end
  end.

End ParserSpec.

Module HookSpec.
Import WebSocketHook.

(** The event is the arrival of a [log] message. *)
Definition is_log {clock : Type} (e : event clock) : Prop :=
  exists now log, e = Receive clock now (MsgLog log).

Definition sample_log : record :=
  [("action", VStr "deny"); ("srcip", VStr "10.0.0.5")].

End HookSpec.


Module ExtraSpec.
Import Aggregator AggregatorSpec.

(** Sum of the counts of a counting dictionary. *)
Definition sum_counts {K} (d : list (K * Z)) : Z :=
  fold_right (fun kv acc => snd kv + acc) 0 d.

(** Every count is at least one. *)
Definition positive_counts {K} (d : list (K * Z)) : Prop :=
  Forall (fun kv => 1 <= snd kv) d.

(** The hostname is a non-zero integer that differs from the destination
    IP: the value [_is_ip_address] is called on and cannot split. *)
Definition integer_hostname (log : record) : bool :=
  match dict_get log "hostname" with
  | Some (VInt n) =>
      negb (n =? 0) && negb (opt_eqb (Some (VInt n)) (dict_get log "dstip"))
  | _ => false
  end.

(** [add_log] raises on the record: at [str(action)], or later at the
    [split] of the hostname. *)
Definition raises (log : record) : bool :=
  too_many_digits (action_of log) || integer_hostname log.

(** The record passes the test of the blocked branch of [add_log]. *)
Definition blocked_utm (log : record) : bool :=
  block_like log && value_eqb (dict_get_default log "type" (VStr "")) (VStr "utm").

(** The key a record is filed under in a counting dictionary, if any. *)
Definition counted (o : option value) : list value :=
  match o with
  | Some k => if truthy k then [k] else []
  | None => []
  end.

(** [d[k] = d.get(k, 0) + 1] for each key of the list in turn. *)
Definition count_keys (ks : list value) (d : dict value Z) : dict value Z :=
  fold_left (fun d k => incr k d) ks d.

(** The category a blocked record is filed under. *)
Definition category_of (log : record) : list value :=
  if value_eqb (dict_get_default log "subtype" (VStr "")) (VStr "webfilter")
     || truthy_opt (dict_get log "catdesc")
  then match dict_get log "catdesc" with
       | Some c => if truthy c then [c] else [VStr "Other"]
       | None => [VStr "Other"]
       end
  else [].

(** The site and the category a record is counted under in the blocked
    tables, if any: none when [add_log] raises before it gets there. *)
Definition site_of (log : record) : list value :=
  if blocked_utm log && negb (integer_hostname log)
  then counted (py_or (dict_get log "hostname") (dict_get log "dstip")) else [].

Definition blocked_category_of (log : record) : list value :=
  if blocked_utm log && negb (integer_hostname log) then category_of log else [].

(** [k] is the key, among at most one. *)
Definition is_key (k : value) (ks : list value) : bool :=
  existsb (fun x => value_eqb x k) ks.

(** Number of entries of a list that pass a test. *)
Definition number_of {A} (p : A -> bool) (l : list A) : Z :=
  Z.of_nat (length (filter p l)).

(** The four tables of the blocked branch. *)
Definition blocked_tables (a : aggregator) :=
  (blocked_sites (stats a), blocked_sites_detail (stats a),
   blocked_categories (stats a), blocked_categories_detail (stats a)).

(** The detail tables list the same keys as the count tables, in the same
    order. *)
Definition details_aligned (a : aggregator) : Prop :=
  dict_keys (blocked_sites_detail (stats a)) = dict_keys (blocked_sites (stats a)) /\
  dict_keys (blocked_categories_detail (stats a)) =
    dict_keys (blocked_categories (stats a)).

(** The text of an address in dotted decimal. *)
Definition dotted (a b c d : Z) : string :=
  PyText.str_of_int a ++ "." ++ PyText.str_of_int b ++ "." ++
  PyText.str_of_int c ++ "." ++ PyText.str_of_int d.

Fixpoint count_char (c : ascii) (s : string) : nat :=
  match s with
  | EmptyString => 0
  | String x s' => (if Ascii.eqb x c then 1 else 0) + count_char c s'
  end.

End ExtraSpec.

Module ViewerSpec.
Import WebSocketHook TrafficMap LogTable.

(** The arrival of one [log] message per record, each at its clock reading. *)
Definition log_events {clock : Type} (arrivals : list (clock * record))
  : list (event clock) :=
  map (fun nl => Receive clock (fst nl) (MsgLog (snd nl))) arrivals.

(** The two tests of the viewer on the action of a record. *)
Definition isBlocked (log : record) : bool :=
  includes blocked_actions (dict_get log "action").

Definition isAllowed (log : record) : bool :=
  includes allowed_actions (dict_get log "action").

(** The record passes the action filter of the table. *)
Definition passes_action (filter : string) (log : record) : bool :=
  negb (String.eqb filter "allow" && negb (includes allow_list (dict_get log "action")))
  && negb (String.eqb filter "block" && negb (includes block_list (dict_get log "action"))).

(** One of the four fields the search reads is a number other than zero. *)
Definition is_number (field : option value) : bool :=
  match field with
  | Some (VInt n) => negb (n =? 0)
  | _ => false
  end.

Definition numeric_field (log : record) : bool :=
  existsb (fun name => is_number (dict_get log name))
    ["srcip"; "dstip"; "hostname"; "url"].

(** The text of a field the search looks into. *)
Definition text_of (field : option value) : string :=
  match field with
  | Some (VStr s) => PyText.lower s
  | _ => EmptyString
  end.

Definition matches_search (search : string) (log : record) : bool :=
  PyText.is_empty search
  || existsb (fun name => contains (PyText.lower search) (text_of (dict_get log name)))
       ["srcip"; "dstip"; "hostname"; "url"].

End ViewerSpec.

(** * Properties *)

(** ** Dictionaries *)


Lemma value_eqb_eq (a b : value) : value_eqb a b = true <-> a = b.
Proof.
  destruct a as [s|n], b as [t|m]; simpl; split; intro E;
    try discriminate; try (inversion E; subst).
  - apply String.eqb_eq in E. now subst.
  - apply String.eqb_refl.
  - apply Z.eqb_eq in E. now subst.
  - apply Z.eqb_refl.
Qed.

Lemma value_eqb_refl (a : value) : value_eqb a a = true.
Proof. now apply value_eqb_eq. Qed.

#[export] Instance KeyEqLaws_string : @KeyEqLaws string KeyEq_string.
Proof. constructor. exact String.eqb_eq. Qed.

#[export] Instance KeyEqLaws_value : @KeyEqLaws value KeyEq_value.
Proof. constructor. exact value_eqb_eq. Qed.

Section DictFacts.
Context {K V : Type} `{KeyEqLaws K}.

Lemma keyb_refl (k : K) : keyb k k = true.
Proof. now apply keyb_eq. Qed.

Lemma keyb_neq (k k' : K) : k <> k' -> keyb k k' = false.
Proof.
  intros N. destruct (keyb k k') eqn:E; [|reflexivity].
  apply keyb_eq in E. contradiction.
Qed.

Lemma dict_get_set_same (d : dict K V) k v :
  dict_get (dict_set d k v) k = Some v.
Proof.
  induction d as [|[k' v'] d IH]; simpl.
  - now rewrite keyb_refl.
  - destruct (keyb k' k) eqn:E; simpl; rewrite E; auto.
Qed.

Lemma dict_get_set_other (d : dict K V) k k' v :
  k <> k' -> dict_get (dict_set d k v) k' = dict_get d k'.
Proof.
  intros N. induction d as [|[k0 v0] d IH]; simpl.
  - now rewrite keyb_neq.
  - destruct (keyb k0 k) eqn:E; simpl.
    + apply keyb_eq in E. subst k0. now rewrite keyb_neq.
    + destruct (keyb k0 k'); auto.
Qed.

(** A key already in the dictionary keeps its place; a new one goes last. *)
Lemma dict_keys_set (d : dict K V) k v :
  dict_keys (dict_set d k v) =
  if dict_mem d k then dict_keys d else (dict_keys d ++ [k])%list.
Proof.
  unfold dict_mem, dict_keys.
  induction d as [|[k' v'] d IH]; simpl; auto.
  destruct (keyb k' k) eqn:E; simpl; auto.
  rewrite IH. destruct (dict_get d k); auto.
Qed.

End DictFacts.

Module AggregatorFacts.
Import Aggregator AggregatorSpec.

(** *** Running a method body *)

Lemma keeps_ret {A X} (f : aggregator -> X) (x : A) : keeps f (ret x).
Proof. now intros a. Qed.

Lemma keeps_get {X} (f : aggregator -> X) : keeps f get.
Proof. now intros a. Qed.

Lemma keeps_lift {A X} (f : aggregator -> X) (r : result A) : keeps f (lift r).
Proof. now intros a. Qed.

Lemma keeps_bind {A B X} (f : aggregator -> X) (m : M A) (k : A -> M B) :
  keeps f m -> (forall x, keeps f (k x)) -> keeps f (bind m k).
Proof.
  intros Hm Hk a. unfold bind.
  specialize (Hm a). destruct (m a) as [[x|e] a']; simpl in *.
  - now rewrite Hk.
  - exact Hm.
Qed.

Lemma keeps_when {X} (f : aggregator -> X) b (m : M unit) :
  keeps f m -> keeps f (when b m).
Proof. destruct b; simpl; auto using keeps_ret. Qed.

Lemma keeps_modify {X} (f : aggregator -> X) g :
  (forall a, f (g a) = f a) -> keeps f (modify g).
Proof. intros E a. apply E. Qed.

Lemma keeps_update {X} (f : aggregator -> X) g :
  (forall a, f (on_stats g a) = f a) -> keeps f (update g).
Proof. intros E a. apply E. Qed.

Lemma returns_ret {A} (x : A) : returns (ret x).
Proof. intros a. now exists x. Qed.

Lemma returns_get : returns get.
Proof. intros a. now exists a. Qed.

Lemma returns_modify g : returns (modify g).
Proof. intros a. now exists tt. Qed.

Lemma returns_update g : returns (update g).
Proof. intros a. now exists tt. Qed.

Lemma returns_bind {A B} (m : M A) (k : A -> M B) :
  returns m -> (forall x, returns (k x)) -> returns (bind m k).
Proof.
  intros Hm Hk a. unfold bind.
  destruct (Hm a) as [x Hx]. destruct (m a) as [[y|e] a']; simpl in *.
  - apply Hk.
  - discriminate.
Qed.

Lemma returns_when b (m : M unit) : returns m -> returns (when b m).
Proof. destruct b; simpl; auto using returns_ret. Qed.

(** After a step that returns, the rest runs from the state it left. *)
Lemma snd_bind_returns {B} (m : M unit) (k : unit -> M B) a :
  returns m -> snd (bind m k a) = snd (k tt (snd (m a))).
Proof.
  intros Hm. unfold bind. destruct (Hm a) as [x Hx].
  destruct (m a) as [[[]|e] a']; simpl in *; [reflexivity|discriminate].
Qed.

(** What the rest keeps is decided by the first step, raised or not. *)
Lemma keeps_rest {A B X} (f : aggregator -> X) (m : M A) (k : A -> M B) a :
  (forall x, keeps f (k x)) -> f (snd (bind m k a)) = f (snd (m a)).
Proof.
  intros Hk. unfold bind. destruct (m a) as [[x|e] a']; simpl;
    [apply Hk | reflexivity].
Qed.

(** A body made of updates of two kinds that both keep the component. *)
Ltac keeps_by E1 E2 :=
  repeat first
    [ apply keeps_ret | apply keeps_get
    | apply keeps_update; intros; first [apply E1 | apply E2]
    | apply keeps_when
    | apply keeps_bind; [ | intros ? ]
    | match goal with |- keeps _ (match ?x with _ => _ end) => destruct x end ].

Ltac returns_tac :=
  repeat first
    [ apply returns_ret | apply returns_get
    | apply returns_update | apply returns_modify
    | apply returns_when
    | apply returns_bind; [ | intros ? ]
    | match goal with
      | |- returns (match ?x with _ => _ end) => destruct x
      end ].

Lemma append_log_returns log : returns (append_log log).
Proof. unfold append_log. returns_tac. Qed.

Lemma count_addresses_returns log : returns (count_addresses log).
Proof. unfold count_addresses. cbv zeta. returns_tac. Qed.

Lemma count_type_returns log : returns (count_type log).
Proof. unfold count_type. cbv zeta. returns_tac. Qed.

Lemma count_blocked_site_keeps {X} (f : aggregator -> X) site srcip :
  (forall g a, f (on_stats (with_blocked_sites g) a) = f a) ->
  (forall g a, f (on_stats (with_blocked_sites_detail g) a) = f a) ->
  keeps f (count_blocked_site site srcip).
Proof.
  intros E1 E2. unfold count_blocked_site.
  keeps_by E1 E2.
Qed.

Lemma count_blocked_category_keeps {X} (f : aggregator -> X) catdesc srcip site :
  (forall g a, f (on_stats (with_blocked_categories g) a) = f a) ->
  (forall g a, f (on_stats (with_blocked_categories_detail g) a) = f a) ->
  keeps f (count_blocked_category catdesc srcip site).
Proof.
  intros E1 E2. unfold count_blocked_category. cbv zeta.
  keeps_by E1 E2.
Qed.

Lemma count_blocked_keeps {X} (f : aggregator -> X) text log :
  (forall g a, f (on_stats (with_blocked_sites g) a) = f a) ->
  (forall g a, f (on_stats (with_blocked_sites_detail g) a) = f a) ->
  (forall g a, f (on_stats (with_blocked_categories g) a) = f a) ->
  (forall g a, f (on_stats (with_blocked_categories_detail g) a) = f a) ->
  keeps f (count_blocked text log).
Proof.
  intros E1 E2 E3 E4. unfold count_blocked. cbv zeta.
  apply keeps_when. apply keeps_bind.
  - destruct (truthy_opt _); [apply keeps_lift | apply keeps_ret].
  - intros b. apply keeps_bind.
    + match goal with |- keeps _ (match ?x with _ => _ end) => destruct x end.
      * apply keeps_when. now apply count_blocked_site_keeps.
      * apply keeps_ret.
    + intros _. apply keeps_when. now apply count_blocked_category_keeps.
Qed.

Lemma count_destination_keeps {X} (f : aggregator -> X) log :
  (forall g a, f (on_stats (with_by_destination g) a) = f a) ->
  keeps f (count_destination log).
Proof.
  intros E. unfold count_destination. cbv zeta.
  apply keeps_bind; [apply keeps_lift|]. intros b.
  match goal with |- keeps _ (match ?x with _ => _ end) => destruct x end.
  - apply keeps_when. apply keeps_update. intros; apply E.
  - apply keeps_ret.
Qed.

Lemma count_addresses_keeps {X} (f : aggregator -> X) log :
  (forall g a, f (on_stats (with_by_srcip g) a) = f a) ->
  (forall g a, f (on_stats (with_by_dstip g) a) = f a) ->
  keeps f (count_addresses log).
Proof.
  intros E1 E2. unfold count_addresses. cbv zeta.
  apply keeps_bind.
  - destruct (dict_get log "srcip");
      [apply keeps_when, keeps_update; intros; apply E1 | apply keeps_ret].
  - intros _. destruct (dict_get log "dstip");
      [apply keeps_when, keeps_update; intros; apply E2 | apply keeps_ret].
Qed.

Lemma count_type_keeps {X} (f : aggregator -> X) log :
  (forall g a, f (on_stats (with_by_type g) a) = f a) ->
  keeps f (count_type log).
Proof. intros E. unfold count_type. cbv zeta. apply keeps_update. intros; apply E. Qed.

Lemma count_action_keeps {X} (f : aggregator -> X) log :
  (forall a, f (on_stats bump_total a) = f a) ->
  (forall a, f (on_stats bump_blocked a) = f a) ->
  (forall a, f (on_stats bump_allowed a) = f a) ->
  (forall g a, f (on_stats (with_by_action g) a) = f a) ->
  keeps f (count_action log).
Proof.
  intros E1 E2 E3 E4. unfold count_action. cbv zeta.
  apply keeps_bind; [apply keeps_update; intros; apply E1|]. intros _.
  apply keeps_bind; [apply keeps_update; intros; apply E4|]. intros _.
  apply keeps_bind; [apply keeps_lift|]. intros text.
  apply keeps_bind; [|intros _; apply keeps_ret].
  destruct (mem _ block_words); [apply keeps_update; intros; apply E2|].
  destruct (mem _ allow_words); [apply keeps_update; intros; apply E3|apply keeps_ret].
Qed.

Lemma append_log_keeps {X} (f : aggregator -> X) log :
  (forall l a, f (set_logs l a) = f a) -> keeps f (append_log log).
Proof.
  intros E. unfold append_log.
  apply keeps_bind; [apply keeps_modify; intros; apply E|]. intros _.
  apply keeps_bind; [apply keeps_get|]. intros a.
  apply keeps_when. apply keeps_modify. intros; apply E.
Qed.


(** *** The text of the action *)

Lemma py_str_cases v :
  py_str v = if too_many_digits v then Raise ValueError else Ok (value_text v).
Proof.
  destruct v as [s|n]; [reflexivity|].
  unfold py_str, PyText.str_int, too_many_digits, value_text. cbv zeta.
  now destruct (_ <? _).
Qed.

(** Zero prints with one digit. *)
Lemma too_many_digits_truthy v : too_many_digits v = true -> truthy v = true.
Proof.
  destruct v as [s|n]; [discriminate|].
  destruct n; [intros H; vm_compute in H; discriminate|reflexivity..].
Qed.

Lemma action_lower_cases log :
  action_lower (action_of log) =
  if too_many_digits (action_of log) then Raise ValueError else Ok (action_text log).
Proof.
  unfold action_lower, action_text. rewrite py_str_cases.
  destruct (too_many_digits (action_of log)) eqn:T.
  - now rewrite (too_many_digits_truthy _ T).
  - now destruct (truthy _).
Qed.

(** The first block of counters: where [str] raises, the total and the
    counter of the action have moved and nothing else has. *)
Lemma count_action_run log a :
  count_action log a =
  let a1 := on_stats (with_by_action (incr (action_of log))) (on_stats bump_total a) in
  if too_many_digits (action_of log) then (Raise ValueError, a1)
  else (Ok (action_text log),
        if mem (action_text log) block_words then on_stats bump_blocked a1
        else if mem (action_text log) allow_words then on_stats bump_allowed a1
        else a1).
Proof.
  unfold count_action. cbv zeta. rewrite action_lower_cases.
  destruct (too_many_digits (action_of log)); [reflexivity|].
  unfold bind, update, modify, lift, ret. cbn [fst snd].
  destruct (mem (action_text log) block_words);
    [|destruct (mem (action_text log) allow_words)]; reflexivity.
Qed.

Lemma count_action_result log a :
  fst (count_action log a) = action_lower (action_of log).
Proof.
  rewrite count_action_run, action_lower_cases. cbv zeta.
  now destruct (too_many_digits _).
Qed.

Lemma count_action_returns log :
  too_many_digits (action_of log) = false -> returns (count_action log).
Proof.
  intros T a. exists (action_text log).
  now rewrite count_action_result, action_lower_cases, T.
Qed.

Lemma action_in_text ws log :
  action_in ws log = negb (too_many_digits (action_of log)) && mem (action_text log) ws.
Proof.
  unfold action_in. rewrite action_lower_cases.
  now destruct (too_many_digits _).
Qed.

(** *** The counters *)

Lemma rest_keeps_counters log text :
  keeps counters
    (count_addresses log ;; count_destination log ;;
     count_blocked text log ;; count_type log).
Proof.
  apply keeps_bind; [now apply count_addresses_keeps|]. intros _.
  apply keeps_bind; [now apply count_destination_keeps|]. intros _.
  apply keeps_bind; [now apply count_blocked_keeps|]. intros _.
  now apply count_type_keeps.
Qed.

Lemma count_action_counters log a :
  counters (snd (count_action log a)) =
  (total_logs (stats a) + 1,
   blocked_count (stats a) + (if block_like log then 1 else 0),
   allowed_count (stats a) +
     (if block_like log then 0 else if allow_like log then 1 else 0)).
Proof.
  rewrite count_action_run. cbv zeta.
  unfold block_like, allow_like. rewrite !action_in_text.
  destruct (too_many_digits (action_of log)); cbn [negb andb snd];
    [|destruct (mem (action_text log) block_words);
      [|destruct (mem (action_text log) allow_words)]];
    unfold counters; simpl; f_equal; try f_equal; lia.
Qed.

Lemma after_add_counters a log :
  counters (after_add a log) =
  (total_logs (stats a) + 1,
   blocked_count (stats a) + (if block_like log then 1 else 0),
   allowed_count (stats a) +
     (if block_like log then 0 else if allow_like log then 1 else 0)).
Proof.
  unfold after_add, add_log.
  rewrite snd_bind_returns by apply append_log_returns.
  rewrite (keeps_rest counters) by (intros text; apply rest_keeps_counters).
  rewrite count_action_counters.
  assert (E : counters (snd (append_log log a)) = counters a)
    by now apply append_log_keeps.
  unfold counters in E. now inversion E.
Qed.

Lemma mem_In x ws : mem x ws = true <-> In x ws.
Proof.
  unfold mem. rewrite existsb_exists. split.
  - intros [y [Hy E]]. apply String.eqb_eq in E. now subst.
  - intros Hx. exists x. split; [assumption|apply String.eqb_refl].
Qed.

Lemma block_not_allow x : mem x block_words = true -> mem x allow_words = false.
Proof.
  intros Hx. apply mem_In in Hx. simpl in Hx.
  repeat destruct Hx as [Hx|Hx]; subst; try reflexivity; contradiction.
Qed.

Lemma ingest_counters a logs :
  let s := stats a in
  let s' := stats (ingest a logs) in
  total_logs s' = total_logs s + Z.of_nat (length logs) /\
  blocked_count s <= blocked_count s' /\
  allowed_count s <= allowed_count s' /\
  allowed_count s' + blocked_count s' =
    allowed_count s + blocked_count s + count_classified logs.
Proof.
  revert a. induction logs as [|log logs IH]; intros a; cbv zeta.
  - unfold count_classified. simpl. lia.
  - change (ingest a (log :: logs)) with (ingest (after_add a log) logs).
    specialize (IH (after_add a log)). cbv zeta in IH.
    pose proof (after_add_counters a log) as E. unfold counters in E.
    inversion E as [[E1 E2 E3]]. clear E.
    rewrite E1, E2, E3 in IH.
    unfold count_classified in *. simpl length. simpl filter.
    unfold classified at 1.
    destruct (block_like log); [|destruct (allow_like log)]; simpl orb; cbv iota;
      simpl length; lia.
Qed.

Lemma filter_all {A} (p : A -> bool) l :
  length (filter p l) = length l <-> forall x, In x l -> p x = true.
Proof.
  induction l as [|y l IH]; simpl.
  - split; [intros _ x []|reflexivity].
  - pose proof (filter_length_le p l) as L.
    destruct (p y) eqn:E; simpl.
    + split.
      * intros Hl x [->|Hx]; [assumption|]. apply IH; [lia|assumption].
      * intros Hall. f_equal. apply IH. intros x Hx. apply Hall. now right.
    + split.
      * intros Hl. lia.
      * intros Hall. specialize (Hall y (or_introl eq_refl)). congruence.
Qed.



Lemma lower_char_decimal c :
  PyText.is_decimal (PyText.lower_char c) = PyText.is_decimal c.
Proof. destruct c as [[] [] [] [] [] [] [] []]; reflexivity. Qed.

Lemma lower_keeps_digits s : PyText.digit_count (PyText.lower s) = PyText.digit_count s.
Proof.
  induction s as [|c s IH]; [reflexivity|].
  cbn [PyText.lower PyText.digit_count]. now rewrite lower_char_decimal, IH.
Qed.

(** The tests read the lower-cased text of the action.  An empty or zero
    action gives the empty text, which no word list holds, and no word is
    the text of an integer. *)
Lemma action_in_words ws log :
  (forall w, In w ws -> PyText.digit_count w = 0 /\ w <> EmptyString) ->
  action_in ws log = true <-> In (PyText.lower (value_text (action_of log))) ws.
Proof.
  intros W. rewrite action_in_text, andb_true_iff, negb_true_iff, mem_In.
  unfold action_text. split.
  - intros [_ I]. destruct (truthy (action_of log)); [exact I|].
    now destruct (W _ I).
  - intros I. destruct (W _ I) as [D N]. rewrite lower_keeps_digits in D.
    destruct (action_of log) as [s|n].
    + split; [reflexivity|]. cbn [truthy value_text] in *.
      destruct s; [now elim N|exact I].
    + cbn [value_text] in *. split.
      * unfold too_many_digits. apply Z.ltb_ge. rewrite D.
        unfold PyText.int_max_str_digits. lia.
      * destruct n; [discriminate D|exact I..].
Qed.

Lemma block_like_text log :
  block_like log = true <->
  In (PyText.lower (value_text (action_of log)))
     ["deny"; "denied"; "blocked"; "drop"; "block"].
Proof.
  apply (action_in_words block_words). intros w I. simpl in I.
  repeat destruct I as [<-|I]; try contradiction; split; (reflexivity || discriminate).
Qed.

Lemma allow_like_text log :
  allow_like log = true <->
  In (PyText.lower (value_text (action_of log)))
     ["accept"; "accepted"; "allow"; "allowed"; "pass"].
Proof.
  apply (action_in_words allow_words). intros w I. simpl in I.
  repeat destruct I as [<-|I]; try contradiction; split; (reflexivity || discriminate).
Qed.

(** *** The ring buffer *)

Lemma lastn_length {A} n (l : list A) : length (lastn n l) = Nat.min n (length l).
Proof. unfold lastn. rewrite length_skipn. lia. Qed.

Lemma lastn_app {A} n (l r : list A) :
  lastn n (lastn n l ++ r) = lastn n (l ++ r).
Proof.
  unfold lastn. rewrite !skipn_app, skipn_skipn, !length_app, !length_skipn.
  f_equal; f_equal; lia.
Qed.

Lemma lastn_all {A} n (l : list A) : (length l <= n)%nat -> lastn n l = l.
Proof.
  intros L. unfold lastn. replace (length l - n)%nat with 0%nat by lia. reflexivity.
Qed.

Lemma rest_keeps_ring log x :
  keeps ring
    ((fun _ : unit => action_lower <- count_action log ;; count_addresses log ;;
                      count_destination log ;; count_blocked action_lower log ;;
                      count_type log) x).
Proof.
  apply keeps_bind; [now apply count_action_keeps|]. intros text.
  apply keeps_bind; [now apply count_addresses_keeps|]. intros _.
  apply keeps_bind; [now apply count_destination_keeps|]. intros _.
  apply keeps_bind; [now apply count_blocked_keeps|]. intros _.
  now apply count_type_keeps.
Qed.

Lemma after_add_ring a log :
  1 <= max_logs a ->
  ring (after_add a log) =
  (max_logs a, lastn (Z.to_nat (max_logs a)) (_logs a ++ [log])).
Proof.
  intros C. unfold after_add, add_log.
  rewrite (keeps_rest ring) by apply rest_keeps_ring.
  unfold append_log, bind, modify, get, when, ret, ring. simpl.
  destruct (Z.gtb_spec (Z.of_nat (length (_logs a ++ [log]))) (max_logs a)) as [G|G];
    simpl; f_equal.
  - unfold slice_from, lastn.
    destruct (Z.ltb_spec (- max_logs a) 0); [|lia].
    f_equal. lia.
  - unfold lastn.
    replace (length (_logs a ++ [log]) - Z.to_nat (max_logs a))%nat with 0%nat by lia.
    reflexivity.
Qed.

Lemma ingest_ring a logs :
  1 <= max_logs a ->
  Z.of_nat (length (_logs a)) <= max_logs a ->
  ring (ingest a logs) =
  (max_logs a, lastn (Z.to_nat (max_logs a)) (_logs a ++ logs)).
Proof.
  revert a. induction logs as [|log logs IH]; intros a C L.
  - simpl. unfold ring. f_equal. rewrite app_nil_r, lastn_all; [reflexivity|lia].
  - change (ingest a (log :: logs)) with (ingest (after_add a log) logs).
    pose proof (after_add_ring a log C) as E. unfold ring in E.
    assert (E1 : max_logs (after_add a log) = max_logs a) by congruence.
    assert (E2 : _logs (after_add a log) =
                 lastn (Z.to_nat (max_logs a)) (_logs a ++ [log])) by congruence.
    rewrite IH; rewrite E1, ?E2; try assumption.
    + f_equal. rewrite lastn_app, <- app_assoc. reflexivity.
    + rewrite lastn_length. lia.
Qed.

(** C3.  With a capacity [C >= 1], the ring buffer never holds more than [C]
    records, whatever was ingested; once [C + k] records have been ingested
    it holds exactly the last [C] of them, in the order they arrived. *)
Theorem ring_buffer_keeps_last (C : Z) (logs : list record) :
  1 <= C ->
  let buffer := _logs (ingest (init C) logs) in
  Z.of_nat (length buffer) <= C /\
  (forall k : nat, Z.of_nat (length logs) = C + Z.of_nat k -> buffer = skipn k logs).
Proof.
  intros HC. cbv zeta.
  pose proof (ingest_ring (init C) logs) as E. simpl in E.
  specialize (E HC ltac:(lia)). unfold ring in E.
  assert (E2 : _logs (ingest (init C) logs) = lastn (Z.to_nat C) logs) by congruence.
  rewrite E2. clear E E2.
  split.
  - rewrite lastn_length. lia.
  - intros k Hk. unfold lastn. f_equal. lia.
Qed.

Lemma ring_buffer_keeps_last_witness :
  1 <= 2 /\
  _logs (ingest (init 2)
           [[("n", VInt 1)]; [("n", VInt 2)]; [("n", VInt 3)]]) =
    [[("n", VInt 2)]; [("n", VInt 3)]].
Proof.
  split; [lia|].
  exact (proj2 (ring_buffer_keeps_last 2
                  [[("n", VInt 1)]; [("n", VInt 2)]; [("n", VInt 3)]]
                  ltac:(lia)) 1%nat eq_refl).
Defined.


(** *** Counters over a run *)





(** C4, as amended.  Every ingested record adds one to [total_logs].  It
    adds one to [allowed_count], and nothing to [blocked_count], when its
    action, lower-cased, is one of accept, accepted, allow, allowed, pass; one
    to [blocked_count], and nothing to [allowed_count], when it is one of
    deny, denied, blocked, drop, block; and a record whose lower-cased action
    is none of these words, and is not passthrough, moves neither counter. *)
Theorem action_classes (a : aggregator) (log : record) :
  let s := stats a in
  let s' := stats (after_add a log) in
  let action := PyText.lower (value_text (action_of log)) in
  total_logs s' = total_logs s + 1 /\
  (In action ["accept"; "accepted"; "allow"; "allowed"; "pass"] ->
     allowed_count s' = allowed_count s + 1 /\ blocked_count s' = blocked_count s) /\
  (In action ["deny"; "denied"; "blocked"; "drop"; "block"] ->
     blocked_count s' = blocked_count s + 1 /\ allowed_count s' = allowed_count s) /\
  (~ In action ["accept"; "accepted"; "allow"; "allowed"; "pass"; "passthrough"] ->
   ~ In action ["deny"; "denied"; "blocked"; "drop"; "block"] ->
     allowed_count s' = allowed_count s /\ blocked_count s' = blocked_count s).
Proof.
  cbv zeta.
  pose proof (after_add_counters a log) as E. unfold counters in E.
  inversion E as [[E1 E2 E3]]. clear E.
  assert (P : ~ In (PyText.lower (value_text (action_of log)))
                  ["accept"; "accepted"; "allow"; "allowed"; "pass"; "passthrough"] ->
              allow_like log = false).
  { intros N. destruct (allow_like log) eqn:A; [|reflexivity].
    apply allow_like_text in A. elim N. simpl in *. tauto. }
  rewrite <- allow_like_text, <- block_like_text.
  split; [reflexivity|].
  assert (D : block_like log = true -> allow_like log = false).
  { unfold block_like, allow_like. rewrite !action_in_text.
    destruct (too_many_digits (action_of log)); [discriminate|].
    apply block_not_allow. }
  destruct (block_like log) eqn:B; [rewrite (D eq_refl)|destruct (allow_like log) eqn:A];
    repeat split; intros; try discriminate; try congruence; try lia;
    try (exfalso; apply P in H; congruence).
Qed.

Lemma action_classes_witness :
  allowed_count (stats (after_add (init 1000) [("action", VStr "Accept")])) =
    allowed_count (stats (init 1000)) + 1 /\
  blocked_count (stats (after_add (init 1000) [("action", VStr "Accept")])) =
    blocked_count (stats (init 1000)).
Proof.
  apply (proj1 (proj2 (action_classes (init 1000) [("action", VStr "Accept")]))).
  simpl. auto.
Defined.

(** C4 as worded: a record whose action is [accepted] is outside the
    allow-like set of the specification, and [allowed_count] moves all the
    same. *)
Lemma accepted_is_counted :
  spec_allow_like [("action", VStr "accepted")] = false /\
  allowed_count (stats (after_add (init 1000) [("action", VStr "accepted")])) =
    allowed_count (stats (init 1000)) + 1.
Proof. split; reflexivity. Qed.


(** *** The destination counter *)

Lemma opt_eqb_eq (x y : option value) : opt_eqb x y = true <-> x = y.
Proof.
  destruct x as [x|], y as [y|]; simpl; try (split; congruence).
  rewrite value_eqb_eq. split; congruence.
Qed.

Lemma before_destination_keeps {X} (f : aggregator -> X) log a :
  (forall l a, f (set_logs l a) = f a) ->
  (forall a, f (on_stats bump_total a) = f a) ->
  (forall a, f (on_stats bump_blocked a) = f a) ->
  (forall a, f (on_stats bump_allowed a) = f a) ->
  (forall g a, f (on_stats (with_by_action g) a) = f a) ->
  (forall g a, f (on_stats (with_by_srcip g) a) = f a) ->
  (forall g a, f (on_stats (with_by_dstip g) a) = f a) ->
  f (snd (count_addresses log (snd (count_action log (snd (append_log log a)))))) = f a.
Proof.
  intros. rewrite count_addresses_keeps, count_action_keeps, append_log_keeps; auto.
Qed.

(** The aggregator after [add_log]: what the first counters left when
    [str] raised on the action, what the later blocks leave otherwise. *)
Lemma after_add_split a log :
  after_add a log =
  let a2 := snd (count_action log (snd (append_log log a))) in
  if too_many_digits (action_of log) then a2
  else snd ((count_addresses log ;; count_destination log ;;
             count_blocked (action_text log) log ;; count_type log) a2).
Proof.
  unfold after_add, add_log.
  rewrite snd_bind_returns by apply append_log_returns.
  cbv zeta. unfold bind at 1. rewrite count_action_run. cbv zeta.
  now destruct (too_many_digits (action_of log)).
Qed.

(** Where [str] raised on the action, only the ring buffer, the total and
    the counter of the action have moved. *)
Lemma after_add_raised {X} (f : aggregator -> X) a log :
  (forall l a, f (set_logs l a) = f a) ->
  (forall a, f (on_stats bump_total a) = f a) ->
  (forall a, f (on_stats bump_blocked a) = f a) ->
  (forall a, f (on_stats bump_allowed a) = f a) ->
  (forall g a, f (on_stats (with_by_action g) a) = f a) ->
  too_many_digits (action_of log) = true ->
  f (after_add a log) = f a.
Proof.
  intros E1 E2 E3 E4 E5 T. rewrite after_add_split, T. cbv zeta.
  rewrite count_action_keeps, append_log_keeps; auto.
Qed.

(** The state [add_log] leaves is the one its destination block leaves, for
    any component the two later blocks do not touch. *)
Lemma after_add_through_destination {X} (f : aggregator -> X) a log :
  too_many_digits (action_of log) = false ->
  (forall text, keeps f (count_blocked text log ;; count_type log)) ->
  f (after_add a log) =
  f (snd (count_destination log
            (snd (count_addresses log (snd (count_action log (snd (append_log log a)))))))).
Proof.
  intros T K. rewrite after_add_split, T. cbv zeta.
  rewrite snd_bind_returns by apply count_addresses_returns.
  now rewrite (keeps_rest f).
Qed.

Lemma count_destination_effect log a :
  destinations (snd (count_destination log a)) =
  match hostname_names_site (dict_get log "hostname") (dict_get log "dstip") with
  | Raise _ => destinations a
  | Ok use_hostname =>
      match (if use_hostname then dict_get log "hostname" else dict_get log "dstip") with
      | Some dest => if truthy dest then incr dest (destinations a) else destinations a
      | None => destinations a
      end
  end.
Proof.
  unfold count_destination, bind, lift. cbv zeta.
  destruct (hostname_names_site _ _) as [b|e]; [|reflexivity].
  destruct (if b then _ else _) as [dest|]; [|reflexivity].
  destruct (truthy dest); reflexivity.
Qed.

Lemma after_add_destinations a log :
  destinations (after_add a log) =
  if too_many_digits (action_of log) then destinations a
  else
    match hostname_names_site (dict_get log "hostname") (dict_get log "dstip") with
    | Raise _ => destinations a
    | Ok use_hostname =>
        match (if use_hostname then dict_get log "hostname" else dict_get log "dstip") with
        | Some dest => if truthy dest then incr dest (destinations a) else destinations a
        | None => destinations a
        end
    end.
Proof.
  destruct (too_many_digits (action_of log)) eqn:T.
  - now apply after_add_raised.
  - rewrite (after_add_through_destination destinations) by
      first [ exact T
            | intros text; apply keeps_bind;
              [now apply count_blocked_keeps|intros _; now apply count_type_keeps] ].
    rewrite count_destination_effect.
    now rewrite (before_destination_keeps destinations).
Qed.

Lemma is_ip_address_text s : exists b, _is_ip_address (Some (VStr s)) = Ok b.
Proof.
  unfold _is_ip_address.
  destruct (negb (truthy_opt (Some (VStr s)))); [now exists false|].
  destruct (negb (Nat.eqb _ 4)); [now exists false|].
  destruct (all_octets _) as [b|e]; [now exists b|now exists false].
Qed.



(** A hostname that is a non-zero integer: [_is_ip_address] raises at
    [split], after the counters and the address dictionaries were updated
    and before [by_destination] and [by_type] are. *)
Example integer_hostname_raises :
  fst (add_log [("hostname", VInt 12345); ("srcip", VStr "10.0.0.5")] (init 1000)) =
    Raise AttributeError /\
  stats (after_add (init 1000) [("hostname", VInt 12345); ("srcip", VStr "10.0.0.5")]) =
    mkStats 1 [(VStr "unknown", 1)] [(VStr "10.0.0.5", 1)] [] [] 0 0 [] [] [] [] [].
Proof. split; reflexivity. Qed.



(** *** Blocked sites *)

Lemma count_blocked_site_returns site srcip : returns (count_blocked_site site srcip).
Proof. unfold count_blocked_site. returns_tac. Qed.

Lemma count_blocked_category_returns catdesc srcip site :
  returns (count_blocked_category catdesc srcip site).
Proof. unfold count_blocked_category. cbv zeta. returns_tac. Qed.

Lemma count_destination_returns log :
  dict_get log "hostname" = None -> returns (count_destination log).
Proof.
  intros H. unfold count_destination. cbv zeta. rewrite H. simpl.
  apply returns_bind; [intros a; now exists false|]. intros b. returns_tac.
Qed.

Lemma count_blocked_returns text log :
  dict_get log "hostname" = None -> returns (count_blocked text log).
Proof.
  intros H. unfold count_blocked. cbv zeta. rewrite H.
  apply returns_when. apply returns_bind.
  - destruct (truthy_opt _); [intros a; now exists false|apply returns_ret].
  - intros b. apply returns_bind.
    + match goal with |- returns (match ?x with _ => _ end) => destruct x end;
        [apply returns_when, count_blocked_site_returns | apply returns_ret].
    + intros _. apply returns_when. apply count_blocked_category_returns.
Qed.

Lemma count_blocked_without_site text log :
  dict_get log "hostname" = None -> dict_get log "dstip" = None ->
  keeps site_tables (count_blocked text log).
Proof.
  intros H D. unfold count_blocked. cbv zeta. rewrite H, D. simpl.
  apply keeps_when. apply keeps_bind; [apply keeps_ret|]. intros b.
  apply keeps_bind; [destruct b; apply keeps_ret|]. intros _.
  apply keeps_when. now apply count_blocked_category_keeps.
Qed.

Lemma after_add_actions a log :
  actions (after_add a log) = incr (action_of log) (actions a).
Proof.
  unfold after_add, add_log.
  rewrite snd_bind_returns by apply append_log_returns.
  rewrite (keeps_rest actions).
  - assert (E : actions (snd (append_log log a)) = actions a)
      by now apply append_log_keeps.
    rewrite <- E. generalize (snd (append_log log a)). intros a1.
    rewrite count_action_run. cbv zeta.
    destruct (too_many_digits _); [reflexivity|]. cbn [snd].
    destruct (mem _ block_words); [|destruct (mem _ allow_words)]; reflexivity.
  - intros text.
    apply keeps_bind; [now apply count_addresses_keeps|]. intros _.
    apply keeps_bind; [now apply count_destination_keeps|]. intros _.
    apply keeps_bind; [now apply count_blocked_keeps|]. intros _.
    now apply count_type_keeps.
Qed.

(** C10.  A record whose action is block-like and whose type is [utm], with
    neither a [hostname] nor a [dstip] field: [add_log] returns, adds one to
    [total_logs], to [blocked_count] and to the counter of the action, and
    leaves [blocked_sites] and [blocked_sites_detail] as they were. *)
Theorem blocked_without_site (a : aggregator) (log : record) :
  block_like log = true ->
  dict_get log "type" = Some (VStr "utm") ->
  dict_get log "hostname" = None ->
  dict_get log "dstip" = None ->
  let s := stats a in
  let s' := stats (after_add a log) in
  fst (add_log log a) = Ok tt /\
  total_logs s' = total_logs s + 1 /\
  blocked_count s' = blocked_count s + 1 /\
  dict_get (by_action s') (action_of log) =
    Some (dict_get_default (by_action s) (action_of log) 0 + 1) /\
  blocked_sites s' = blocked_sites s /\
  blocked_sites_detail s' = blocked_sites_detail s.
Proof.
  intros B T H D. cbv zeta.
  pose proof (after_add_counters a log) as E. unfold counters in E.
  rewrite B in E. inversion E as [[E1 E2 E3]]. clear E.
  assert (P : too_many_digits (action_of log) = false).
  { unfold block_like in B. rewrite action_in_text in B.
    now destruct (too_many_digits _). }
  assert (R : returns (add_log log)).
  { unfold add_log.
    apply returns_bind; [apply append_log_returns|]. intros _.
    apply returns_bind; [now apply count_action_returns|]. intros text.
    apply returns_bind; [apply count_addresses_returns|]. intros _.
    apply returns_bind; [now apply count_destination_returns|]. intros _.
    apply returns_bind; [now apply count_blocked_returns|]. intros _.
    apply count_type_returns. }
  assert (K : keeps site_tables (add_log log)).
  { unfold add_log.
    apply keeps_bind; [now apply append_log_keeps|]. intros _.
    apply keeps_bind; [now apply count_action_keeps|]. intros text.
    apply keeps_bind; [now apply count_addresses_keeps|]. intros _.
    apply keeps_bind; [now apply count_destination_keeps|]. intros _.
    apply keeps_bind; [now apply count_blocked_without_site|]. intros _.
    now apply count_type_keeps. }
  specialize (K a). unfold site_tables in K. fold (after_add a log) in K.
  pose proof (after_add_actions a log) as A. unfold actions in A.
  repeat split.
  - destruct (R a) as [[] Hx]. exact Hx.
  - rewrite A. unfold incr. apply dict_get_set_same.
  - congruence.
  - congruence.
Qed.

Lemma blocked_without_site_witness :
  total_logs (stats (after_add (init 1000)
                [("type", VStr "utm"); ("action", VStr "blocked")])) = 1 /\
  blocked_count (stats (after_add (init 1000)
                   [("type", VStr "utm"); ("action", VStr "blocked")])) = 1 /\
  blocked_sites (stats (after_add (init 1000)
                   [("type", VStr "utm"); ("action", VStr "blocked")])) = [] /\
  blocked_sites_detail (stats (after_add (init 1000)
                          [("type", VStr "utm"); ("action", VStr "blocked")])) = [].
Proof.
  pose proof (blocked_without_site (init 1000)
                [("type", VStr "utm"); ("action", VStr "blocked")]
                eq_refl eq_refl eq_refl eq_refl)
    as [_ [T [B [_ [S D]]]]].
  repeat split; assumption.
Defined.

End AggregatorFacts.

Module TopFacts.
Import Aggregator AggregatorSpec.

Section Ranking.
Context {A : Type} (count : A -> Z).

Lemma insert_desc_perm x l : Permutation (x :: l) (insert_desc count x l).
Proof.
  induction l as [|y l IH]; simpl; [reflexivity|].
  destruct (count x <? count y); [|reflexivity].
  rewrite perm_swap. now constructor.
Qed.

Lemma sorted_desc_perm l : Permutation l (sorted_desc count l).
Proof.
  induction l as [|x l IH]; simpl; [constructor|].
  rewrite <- insert_desc_perm. now constructor.
Qed.

Lemma insert_desc_sorted x l :
  StronglySorted (descending count) l -> StronglySorted (descending count) (insert_desc count x l).
Proof.
  induction 1 as [|y l S IH F]; simpl.
  - repeat constructor.
  - destruct (Z.ltb_spec (count x) (count y)) as [L|G].
    + constructor; [assumption|].
      rewrite <- insert_desc_perm. constructor; [unfold descending; lia|assumption].
    + constructor; [now constructor|].
      constructor; [exact G|].
      rewrite Forall_forall in *. intros z Hz. specialize (F z Hz).
      unfold descending in *. lia.
Qed.

Lemma sorted_desc_sorted l : StronglySorted (descending count) (sorted_desc count l).
Proof.
  induction l as [|x l IH]; simpl; [constructor|now apply insert_desc_sorted].
Qed.

Lemma insert_desc_stable c x l :
  filter (counts count c) (insert_desc count x l) = filter (counts count c) (x :: l).
Proof.
  induction l as [|y l IH]; [reflexivity|]. simpl insert_desc.
  destruct (Z.ltb_spec (count x) (count y)) as [L|G]; [|reflexivity].
  simpl in *. rewrite IH. unfold counts.
  destruct (Z.eqb_spec (count x) c), (Z.eqb_spec (count y) c); try reflexivity; lia.
Qed.

(** Entries of equal count come out in the order they went in. *)
Lemma sorted_desc_stable c l :
  filter (counts count c) (sorted_desc count l) = filter (counts count c) l.
Proof.
  induction l as [|x l IH]; [reflexivity|]. simpl sorted_desc.
  rewrite insert_desc_stable. simpl. now rewrite IH.
Qed.

Lemma top10_ranked l : ranked count l (top10 count l).
Proof.
  unfold ranked, top10. split; [apply firstn_le_length|].
  exists (skipn 10 (sorted_desc count l)).
  rewrite firstn_skipn. repeat split.
  - apply sorted_desc_perm.
  - apply sorted_desc_sorted.
  - intros c. apply sorted_desc_stable.
  - intros N. rewrite length_firstn.
    destruct (Nat.le_gt_cases 10 (length (sorted_desc count l))) as [L|L]; [lia|].
    rewrite skipn_all2 in N by lia. now elim N.
Qed.

End Ranking.

(** C5, as amended.  In every state, each list of the snapshot (top sources,
    top destinations, top blocked sites, top blocked categories, and the
    sources of each blocked site and of each blocked category) has at most
    ten entries, in descending order of count, entries of equal count in the
    order of the dictionary they come from; for the sources of a category
    that is the order of the nested dictionaries, source by source and
    within a source destination by destination. *)
Theorem top_lists_ranked (a : aggregator) :
  let s := stats a in
  let v := get_stats a in
  ranked snd (by_srcip s) (top_sources v) /\
  ranked snd (by_destination s) (top_destinations v) /\
  ranked snd (blocked_sites s) (top_blocked v) /\
  ranked snd (blocked_categories s) (top_blocked_categories v) /\
  (forall e, In e (top_blocked_detail v) ->
     ranked snd (dict_get_default (blocked_sites_detail s) (site e) [])
            (site_sources e)) /\
  (forall e, In e (top_blocked_categories_detail v) ->
     ranked snd
       (flatten (dict_get_default (blocked_categories_detail s) (category e) []))
       (category_sources e)).
Proof.
  cbv zeta. unfold get_stats. simpl.
  split; [apply top10_ranked|]. split; [apply top10_ranked|].
  split; [apply top10_ranked|]. split; [apply top10_ranked|]. split.
  - intros e He. apply in_map_iff in He. destruct He as [sc [<- _]].
    apply top10_ranked.
  - intros e He. apply in_map_iff in He. destruct He as [cc [<- _]].
    apply top10_ranked.
Qed.

(** The order of a counting dictionary is the order in which its keys were
    first counted. *)
Lemma incr_keys k (d : dict value Z) :
  dict_keys (incr k d) = if dict_mem d k then dict_keys d else (dict_keys d ++ [k])%list.
Proof. apply dict_keys_set. Qed.

Lemma dict_mem_keys (d : dict value Z) k :
  dict_mem d k = existsb (fun k' => value_eqb k' k) (dict_keys d).
Proof.
  unfold dict_mem, dict_keys. induction d as [|[k' v] d IH]; simpl; [reflexivity|].
  destruct (value_eqb k' k); [reflexivity|exact IH].
Qed.

Lemma after_add_sources a log :
  by_srcip (stats (after_add a log)) =
  fold_left (fun d k => incr k d) (counted_source log) (by_srcip (stats a)).
Proof.
  unfold counted_source.
  destruct (too_many_digits (action_of log)) eqn:T.
  { now apply (AggregatorFacts.after_add_raised (fun a => by_srcip (stats a))). }
  rewrite AggregatorFacts.after_add_split, T. cbv zeta.
  rewrite (AggregatorFacts.keeps_rest (fun a => by_srcip (stats a))).
  - assert (E : by_srcip (stats (snd (count_action log (snd (append_log log a))))) =
                by_srcip (stats a)).
    { rewrite (AggregatorFacts.count_action_keeps (fun a => by_srcip (stats a)))
        by reflexivity.
      now rewrite (AggregatorFacts.append_log_keeps (fun a => by_srcip (stats a))). }
    rewrite <- E. generalize (snd (count_action log (snd (append_log log a)))).
    intros a2. unfold count_addresses. cbv zeta.
    destruct (dict_get log "srcip") as [src|]; [destruct (truthy src)|];
      (destruct (dict_get log "dstip") as [dst|]; [destruct (truthy dst)|]); reflexivity.
  - intros _.
    apply AggregatorFacts.keeps_bind;
      [now apply AggregatorFacts.count_destination_keeps|]. intros _.
    apply AggregatorFacts.keeps_bind;
      [now apply AggregatorFacts.count_blocked_keeps|]. intros _.
    now apply AggregatorFacts.count_type_keeps.
Qed.

(** The entries of [by_srcip], which [top_sources] ranks, stand in the order
    in which the sources first occur in the run. *)
Lemma sources_in_first_seen_order C logs :
  dict_keys (by_srcip (stats (ingest (init C) logs))) =
  first_occurrences (flat_map counted_source logs).
Proof.
  unfold first_occurrences.
  change (@nil value) with (dict_keys (by_srcip (stats (init C)))).
  generalize (init C). induction logs as [|log logs IH]; intros a; [reflexivity|].
  change (ingest a (log :: logs)) with (ingest (after_add a log) logs).
  rewrite IH, after_add_sources. simpl flat_map. rewrite fold_left_app. f_equal.
  generalize (by_srcip (stats a)). unfold counted_source.
  destruct (too_many_digits (action_of log)); [reflexivity|].
  destruct (dict_get log "srcip") as [src|]; [destruct (truthy src)|]; try reflexivity.
  intros d. simpl. rewrite incr_keys, dict_mem_keys. reflexivity.
Qed.

(** C5 as worded: three blocked records of one category, from sources A, B
    and A again.  The three pairs tie at one; the pair seen third is listed
    before the pair seen second. *)
Lemma category_sources_not_first_seen :
  map category_sources
    (top_blocked_categories_detail
       (get_stats (ingest (init 1000)
          [gambling "A" "x.test"; gambling "B" "y.test"; gambling "A" "z.test"]))) =
    [[(VStr "A", VStr "x.test", 1); (VStr "A", VStr "z.test", 1);
      (VStr "B", VStr "y.test", 1)]] /\
  first_seen (VStr "B", VStr "y.test")
    [gambling "A" "x.test"; gambling "B" "y.test"; gambling "A" "z.test"] = 1%nat /\
  first_seen (VStr "A", VStr "z.test")
    [gambling "A" "x.test"; gambling "B" "y.test"; gambling "A" "z.test"] = 2%nat.
Proof. repeat split. Qed.

Lemma top_lists_ranked_witness :
  ranked snd
    (by_srcip (stats (ingest (init 1000)
       [gambling "A" "x.test"; gambling "B" "y.test"; gambling "A" "z.test"])))
    (top_sources (get_stats (ingest (init 1000)
       [gambling "A" "x.test"; gambling "B" "y.test"; gambling "A" "z.test"]))).
Proof.
  exact (proj1 (top_lists_ranked (ingest (init 1000)
           [gambling "A" "x.test"; gambling "B" "y.test"; gambling "A" "z.test"]))).
Defined.

End TopFacts.

Module ParserFacts.
Import PyText Collector ParserSpec.

(** *** Text *)

Lemma all_chars_rev_acc p s acc :
  all_chars p (rev_acc s acc) = all_chars p s && all_chars p acc.
Proof.
  revert acc. induction s as [|c s IH]; intros acc; simpl; [reflexivity|].
  rewrite IH. simpl. destruct (p c), (all_chars p s); reflexivity.
Qed.

Lemma append_empty s : (s ++ EmptyString)%string = s.
Proof. induction s as [|c s IH]; simpl; congruence. Qed.

Lemma rev_acc_twice s acc acc' :
  rev_acc (rev_acc s acc) acc' = rev_acc acc (s ++ acc')%string.
Proof.
  revert acc acc'. induction s as [|c s IH]; intros acc acc'; simpl; [reflexivity|].
  now rewrite IH.
Qed.

Lemma rev_involutive s : rev (rev s) = s.
Proof. unfold rev. rewrite rev_acc_twice. simpl. apply append_empty. Qed.

Lemma span_none p c s : p c = false -> span p (String c s) = (EmptyString, String c s).
Proof. intros E. simpl. now rewrite E. Qed.

Lemma decimal_not_space c : is_decimal c = true -> int_space c = false.
Proof.
  unfold is_decimal, int_space, between.
  destruct (N.leb_spec 48 (code c)); [|discriminate].
  destruct (N.leb_spec (code c) 57); [|discriminate]. intros _.
  destruct (N.leb_spec 9 (code c)), (N.leb_spec (code c) 13),
    (N.eqb_spec (code c) 32), (N.eqb_spec (code c) 133), (N.eqb_spec (code c) 160);
    simpl; try reflexivity; lia.
Qed.

Lemma decimal_not_sign c :
  is_decimal c = true -> Ascii.eqb c "+" = false /\ Ascii.eqb c "-" = false.
Proof.
  unfold is_decimal, between. intros D.
  split; apply Ascii.eqb_neq; intros ->; vm_compute in D; discriminate.
Qed.

Lemma digit_not_space c : is_digit c = true -> int_space c = false.
Proof.
  destruct c as [[] [] [] [] [] [] [] []]; intros H; try reflexivity; discriminate H.
Qed.

Lemma digit_not_sign c :
  is_digit c = true -> Ascii.eqb c "+" = false /\ Ascii.eqb c "-" = false.
Proof.
  destruct c as [[] [] [] [] [] [] [] []]; intros H; try (split; reflexivity);
    discriminate H.
Qed.

Lemma digit_not_underscore c : is_digit c = true -> N.eqb (code c) 95 = false.
Proof.
  destruct c as [[] [] [] [] [] [] [] []]; intros H; try reflexivity; discriminate H.
Qed.

Lemma decimal_is_digit c : is_decimal c = true -> is_digit c = true.
Proof. unfold is_digit. now intros ->. Qed.

(** A text of digits has nothing for [int()] to strip. *)
Lemma int_strip_digits s : all_chars is_digit s = true -> int_strip s = s.
Proof.
  intros D. unfold int_strip.
  destruct s as [|c s]; [reflexivity|].
  simpl in D. apply andb_true_iff in D. destruct D as [Dc Ds].
  rewrite span_none by now apply digit_not_space. simpl snd.
  assert (R : all_chars is_digit (rev (String c s)) = true).
  { unfold rev. rewrite all_chars_rev_acc. simpl. now rewrite Dc, Ds. }
  destruct (rev (String c s)) as [|d r] eqn:E.
  - apply (f_equal rev) in E. rewrite rev_involutive in E. discriminate.
  - simpl in R. apply andb_true_iff in R. destruct R as [Dd _].
    rewrite span_none by now apply digit_not_space. simpl snd.
    rewrite <- E. apply rev_involutive.
Qed.

Lemma decimal_digits s : all_chars is_decimal s = true -> all_chars is_digit s = true.
Proof.
  induction s as [|c s IH]; simpl; [reflexivity|].
  intros D. apply andb_true_iff in D. destruct D as [Dc Ds].
  unfold is_digit. rewrite Dc. simpl. now apply IH.
Qed.

Lemma int_digits_decimal acc s :
  all_chars is_decimal s = true -> int_digits acc s = Some (decimal_from acc s).
Proof.
  revert acc. induction s as [|c s IH]; intros acc D; [reflexivity|].
  simpl in D. apply andb_true_iff in D. destruct D as [Dc Ds].
  simpl. rewrite Dc. now apply IH.
Qed.

(** Among digits, only decimal ones make a literal. *)
Lemma int_digits_digits acc s n :
  all_chars is_digit s = true -> int_digits acc s = Some n ->
  all_chars is_decimal s = true.
Proof.
  revert acc. induction s as [|c s IH]; intros acc D; [reflexivity|].
  simpl in D. apply andb_true_iff in D. destruct D as [Dc Ds].
  cbn [int_digits all_chars].
  destruct (is_decimal c); [apply IH, Ds|].
  rewrite (digit_not_underscore c Dc). discriminate.
Qed.

Lemma int_literal_decimal s :
  s <> EmptyString -> all_chars is_decimal s = true ->
  int_literal s = Some (decimal_value s).
Proof.
  intros N D. unfold int_literal. rewrite int_strip_digits by now apply decimal_digits.
  destruct s as [|c s]; [now elim N|].
  simpl in D. apply andb_true_iff in D. destruct D as [Dc Ds].
  destruct (digit_not_sign c (decimal_is_digit c Dc)) as [-> ->].
  unfold int_unsigned. rewrite Dc.
  rewrite int_digits_decimal by assumption. reflexivity.
Qed.

Lemma int_literal_digits s n :
  all_chars is_digit s = true -> int_literal s = Some n ->
  all_chars is_decimal s = true.
Proof.
  intros D. unfold int_literal. rewrite int_strip_digits by exact D.
  destruct s as [|c s]; [discriminate|].
  simpl in D. apply andb_true_iff in D. destruct D as [Dc Ds].
  destruct (digit_not_sign c Dc) as [-> ->].
  unfold int_unsigned. cbn [all_chars].
  destruct (is_decimal c); [|discriminate].
  intros H. now apply (int_digits_digits _ _ _ Ds H).
Qed.

(** *** The number of digits *)

Lemma digit_count_decimal s :
  all_chars is_decimal s = true -> digit_count s = Z.of_nat (String.length s).
Proof.
  induction s as [|c s IH]; [reflexivity|].
  cbn [all_chars digit_count String.length]. intros D.
  apply andb_true_iff in D. destruct D as [-> Ds]. rewrite (IH Ds). lia.
Qed.

Lemma digit_count_length s : 0 <= digit_count s <= Z.of_nat (String.length s).
Proof.
  induction s as [|c s IH]; cbn [digit_count String.length]; [lia|].
  destruct (is_decimal c); lia.
Qed.

Lemma digits_text_count (u : Decimal.uint) :
  digit_count (NilEmpty.string_of_uint u) = Z.of_nat (Decimal.nb_digits u).
Proof.
  induction u; cbn [NilEmpty.string_of_uint Decimal.nb_digits digit_count];
    rewrite ?IHu; try reflexivity;
    match goal with |- (if ?b then _ else _) + _ = _ => change b with true end; lia.
Qed.

Ltac char_code :=
  match goal with
  | |- context [N_of_ascii ?c] =>
      let v := eval vm_compute in (Z.of_N (N_of_ascii c)) in
      change (Z.of_N (N_of_ascii c)) with v
  end.

Lemma digits_text_from (u : Decimal.uint) (acc : positive) :
  decimal_from (Z.pos acc) (NilEmpty.string_of_uint u) = Z.pos (Pos.of_uint_acc u acc).
Proof.
  revert acc.
  induction u; intros acc; cbn [NilEmpty.string_of_uint Pos.of_uint_acc decimal_from];
    try reflexivity; rewrite <- IHu; f_equal; char_code; lia.
Qed.

Lemma digits_text_value (u : Decimal.uint) :
  decimal_from 0 (NilEmpty.string_of_uint u) = Z.of_N (Pos.of_uint u).
Proof.
  induction u; cbn [NilEmpty.string_of_uint Pos.of_uint decimal_from];
    try reflexivity; try exact IHu; cbn [Z.of_N]; rewrite <- digits_text_from;
    reflexivity.
Qed.

Lemma decimal_text (s : string) :
  all_chars is_decimal s = true -> exists u, NilEmpty.string_of_uint u = s.
Proof.
  induction s as [|c s IH]; [now exists Decimal.Nil|].
  cbn [all_chars]. intros D. apply andb_prop in D. destruct D as [Dc Ds].
  destruct (IH Ds) as [u <-].
  destruct c as [[] [] [] [] [] [] [] []]; try discriminate Dc;
    first [ now exists (Decimal.D0 u) | now exists (Decimal.D1 u)
          | now exists (Decimal.D2 u) | now exists (Decimal.D3 u)
          | now exists (Decimal.D4 u) | now exists (Decimal.D5 u)
          | now exists (Decimal.D6 u) | now exists (Decimal.D7 u)
          | now exists (Decimal.D8 u) | now exists (Decimal.D9 u) ].
Qed.

(** The number a text of decimal digits denotes prints with no more digits
    than the text has: the leading zeros go. *)
Lemma str_of_decimal_digits (s : string) :
  s <> EmptyString -> all_chars is_decimal s = true ->
  digit_count (str_of_int (decimal_value s)) <= digit_count s.
Proof.
  intros N D. destruct (decimal_text s D) as [u <-].
  unfold decimal_value. rewrite (digits_text_value u).
  change (Z.of_N (Pos.of_uint u)) with (Z.of_int (Decimal.Pos u)).
  unfold str_of_int. rewrite DecimalZ.to_of. cbn [Decimal.norm NilZero.string_of_int].
  assert (Nu : u <> Decimal.Nil) by (intros ->; now apply N).
  pose proof (DecimalFacts.unorm_nonnil u) as Nn.
  pose proof (DecimalFacts.nb_digits_unorm u Nu) as L.
  unfold NilZero.string_of_uint.
  assert (T : match Decimal.unorm u with
              | Decimal.Nil => "0"
              | _ => NilEmpty.string_of_uint (Decimal.unorm u)
              end = NilEmpty.string_of_uint (Decimal.unorm u))
    by (destruct (Decimal.unorm u); [now elim Nn|reflexivity..]).
  rewrite T, !digits_text_count. lia.
Qed.

(** [int()] on a text of digits: the number, unless a digit is not decimal
    or the digits are more than the limit. *)
Lemma to_int_digits s :
  s <> EmptyString -> all_chars is_digit s = true ->
  to_int s =
  if all_chars is_decimal s && (digit_count s <=? int_max_str_digits)
  then Some (decimal_value s) else None.
Proof.
  intros N D. unfold to_int.
  rewrite Z.leb_antisym.
  destruct (int_max_str_digits <? digit_count s); cbn [negb];
    [now rewrite andb_false_r|]. rewrite andb_true_r.
  destruct (all_chars is_decimal s) eqn:A; [now apply int_literal_decimal|].
  destruct (int_literal s) as [n|] eqn:L; [|reflexivity].
  rewrite (int_literal_digits s n D L) in A. discriminate.
Qed.

Lemma to_int_decimal s :
  s <> EmptyString -> all_chars is_decimal s = true ->
  Z.of_nat (String.length s) <= 4300 ->
  to_int s = Some (decimal_value s).
Proof.
  intros N D L. rewrite to_int_digits by (try apply decimal_digits; assumption).
  rewrite D, digit_count_decimal by exact D.
  unfold int_max_str_digits. now destruct (Z.leb_spec (Z.of_nat (String.length s)) 4300); [|lia].
Qed.


(** *** The loop over the matches *)

Lemma store_tokens_get matches parsed parsed' key :
  store_tokens matches parsed = Ok parsed' ->
  match last_token key matches with
  | Some (q, u) => exists x, token_value q u = Ok x /\ dict_get parsed' key = Some x
  | None => dict_get parsed' key = dict_get parsed key
  end.
Proof.
  revert parsed. induction matches as [|[[k q] u] rest IH]; intros parsed E; simpl in *.
  - now inversion E.
  - destruct (token_value q u) as [x|e] eqn:T; [|discriminate].
    specialize (IH _ E).
    destruct (last_token key rest) as [[q' u']|]; [exact IH|].
    destruct (String.eqb_spec k key) as [->|N].
    + exists x. split; [exact T|]. rewrite IH. apply dict_get_set_same.
    + rewrite IH. now apply dict_get_set_other.
Qed.

Lemma store_tokens_ok matches parsed :
  (forall k q u, In (k, q, u) matches -> exists x, token_value q u = Ok x) ->
  exists parsed', store_tokens matches parsed = Ok parsed'.
Proof.
  revert parsed. induction matches as [|[[k q] u] rest IH]; intros parsed A; simpl.
  - now exists parsed.
  - destruct (A k q u (or_introl eq_refl)) as [x ->].
    apply IH. intros k' q' u' Hin. apply (A k' q' u'). now right.
Qed.

Lemma store_tokens_each matches parsed parsed' :
  store_tokens matches parsed = Ok parsed' ->
  forall k q u, In (k, q, u) matches -> exists x, token_value q u = Ok x.
Proof.
  revert parsed. induction matches as [|[[k q] u] rest IH]; intros parsed E k' q' u' Hin;
    [destruct Hin|].
  simpl in E. destruct (token_value q u) as [x|e] eqn:T; [|discriminate].
  destruct Hin as [H|Hin]; [|exact (IH _ E _ _ _ Hin)].
  inversion H. subst. eauto.
Qed.

Lemma decimal_isdigit s :
  s <> EmptyString -> all_chars is_decimal s = true -> isdigit s = true.
Proof.
  intros N D. unfold isdigit. rewrite decimal_digits by assumption.
  destruct s; [now elim N|reflexivity].
Qed.

Lemma isdigit_nonempty s : isdigit s = true -> s <> EmptyString.
Proof. intros I E. rewrite E in I. discriminate. Qed.

(** The value of an all-digit token: the number it denotes, unless a digit
    is not decimal or the digits are more than [int()] converts. *)
Lemma token_value_digits q u :
  isdigit (token_text q u) = true ->
  token_value q u =
  if all_chars is_decimal (token_text q u)
     && (digit_count (token_text q u) <=? int_max_str_digits)
  then Ok (VInt (decimal_value (token_text q u))) else Raise ValueError.
Proof.
  intros I. unfold token_value. fold (token_text q u). rewrite I.
  rewrite to_int_digits.
  - now destruct (_ && _).
  - now apply isdigit_nonempty.
  - unfold isdigit in I. apply andb_true_iff in I. tauto.
Qed.

Lemma token_value_decimal q u :
  token_text q u <> EmptyString -> all_chars is_decimal (token_text q u) = true ->
  Z.of_nat (String.length (token_text q u)) <= 4300 ->
  token_value q u = Ok (VInt (decimal_value (token_text q u))).
Proof.
  intros N D L. rewrite token_value_digits by now apply decimal_isdigit.
  rewrite D, digit_count_decimal by exact D. unfold int_max_str_digits.
  now destruct (Z.leb_spec (Z.of_nat (String.length (token_text q u))) 4300); [|lia].
Qed.

Lemma token_value_text q u :
  isdigit (token_text q u) = false -> token_value q u = Ok (VStr (token_text q u)).
Proof. intros I. unfold token_value. fold (token_text q u). now rewrite I. Qed.

Lemma token_value_int q u n :
  token_value q u = Ok (VInt n) -> isdigit (token_text q u) = true.
Proof.
  unfold token_value. fold (token_text q u).
  destruct (isdigit _); [reflexivity|]. discriminate.
Qed.

(** *** What the parser stores, [str] prints *)

Lemma token_value_printable q u x : token_value q u = Ok x -> too_many_digits x = false.
Proof.
  destruct (isdigit (token_text q u)) eqn:I.
  - rewrite (token_value_digits q u I).
    destruct (all_chars is_decimal (token_text q u)) eqn:D; [|discriminate].
    destruct (Z.leb_spec (digit_count (token_text q u)) int_max_str_digits) as [L|L];
      [|discriminate].
    cbn [andb]. intros H. inversion H. subst x. unfold too_many_digits.
    apply Z.ltb_ge. unfold int_max_str_digits in L.
    pose proof (str_of_decimal_digits _ (isdigit_nonempty _ I) D). lia.
  - rewrite (token_value_text q u I). intros H. inversion H. reflexivity.
Qed.

Lemma printable_set (d : record) k v :
  printable d -> too_many_digits v = false -> printable (dict_set d k v).
Proof.
  intros P T k' v'. destruct (String.eqb_spec k k') as [->|N].
  - rewrite dict_get_set_same. intros H. inversion H. now subst.
  - rewrite dict_get_set_other by exact N. apply P.
Qed.

Lemma store_tokens_printable matches parsed parsed' :
  store_tokens matches parsed = Ok parsed' -> printable parsed -> printable parsed'.
Proof.
  revert parsed. induction matches as [|[[k q] u] rest IH]; intros parsed E P; simpl in E.
  - injection E as <-. exact P.
  - destruct (token_value q u) as [x|e] eqn:T; [|discriminate].
    apply (IH _ E). apply printable_set; [exact P|].
    exact (token_value_printable q u x T).
Qed.

Lemma printable_initial raw now :
  printable [("raw", VStr raw); ("received_at", VStr now)].
Proof.
  intros k v. cbn [dict_get].
  destruct (keyb "raw" k); [intros H; inversion H; reflexivity|].
  destruct (keyb "received_at" k); [intros H; inversion H; reflexivity|discriminate].
Qed.

Lemma joined_printable a sep b :
  too_many_digits a = false -> too_many_digits b = false ->
  joined a sep b = Ok (value_text a ++ sep ++ value_text b).
Proof.
  intros A B. unfold joined. now rewrite !AggregatorFacts.py_str_cases, A, B.
Qed.

Lemma printable_default (d : record) k s :
  printable d -> too_many_digits (dict_get_default d k (VStr s)) = false.
Proof.
  intros P. unfold dict_get_default.
  destruct (dict_get d k) as [v|] eqn:E; [exact (P k v E)|reflexivity].
Qed.

Lemma stamp_printable parsed :
  printable parsed ->
  stamp parsed =
  Ok (match dict_get parsed "date", dict_get parsed "time" with
      | Some d, Some t =>
          dict_set parsed "timestamp" (VStr (value_text d ++ "T" ++ value_text t))
      | _, _ => parsed
      end).
Proof.
  intros P. unfold stamp.
  destruct (dict_get parsed "date") as [d|] eqn:D; [|reflexivity].
  destruct (dict_get parsed "time") as [t|] eqn:T; [|reflexivity].
  now rewrite (joined_printable d "T" t (P _ _ D) (P _ _ T)).
Qed.

Lemma categorize_printable log :
  printable log -> exists category, _categorize_log log = Ok category.
Proof.
  intros P. unfold _categorize_log. cbv zeta.
  rewrite joined_printable by now apply printable_default.
  destruct (categories_get _ _ _); eauto.
Qed.

(** What [parse_fortigate_log] returns, from the record the loop leaves. *)
Lemma parse_shape now raw log :
  parse_fortigate_log now raw = Ok log ->
  exists parsed stamped category,
    store_tokens (findall raw) [("raw", VStr raw); ("received_at", VStr now)] = Ok parsed /\
    stamped = match dict_get parsed "date", dict_get parsed "time" with
              | Some d, Some t =>
                  dict_set parsed "timestamp"
                    (VStr (value_text d ++ "T" ++ value_text t))
              | _, _ => parsed
              end /\
    _categorize_log stamped = Ok category /\
    log = dict_set stamped "log_category" (VStr category).
Proof.
  unfold parse_fortigate_log. cbv zeta.
  destruct (store_tokens _ _) as [parsed|e] eqn:S; [|discriminate].
  pose proof (store_tokens_printable _ _ _ S (printable_initial raw now)) as P.
  rewrite (stamp_printable parsed P).
  destruct (_categorize_log _) as [category|e] eqn:Ct; [|discriminate].
  intros H. injection H as <-. exists parsed. eexists. exists category.
  split; [reflexivity|]. split; [reflexivity|]. split; [exact Ct|reflexivity].
Qed.

(** The parser returns whenever its loop does. *)
Lemma parse_ok now raw parsed :
  store_tokens (findall raw) [("raw", VStr raw); ("received_at", VStr now)] = Ok parsed ->
  exists log, parse_fortigate_log now raw = Ok log.
Proof.
  intros S. unfold parse_fortigate_log. cbv zeta. rewrite S.
  pose proof (store_tokens_printable _ _ _ S (printable_initial raw now)) as P.
  rewrite (stamp_printable parsed P).
  set (stamped := match dict_get parsed "date", dict_get parsed "time" with
                  | Some d, Some t =>
                      dict_set parsed "timestamp"
                        (VStr (value_text d ++ "T" ++ value_text t))
                  | _, _ => parsed
                  end).
  assert (Ps : printable stamped).
  { subst stamped.
    destruct (dict_get parsed "date") as [d|] eqn:D; [|exact P].
    destruct (dict_get parsed "time") as [t|] eqn:T; [|exact P].
    now apply printable_set. }
  destruct (categorize_printable stamped Ps) as [category Ct].
  cbv beta iota. rewrite Ct. eauto.
Qed.

Lemma parse_get now raw log key :
  parse_fortigate_log now raw = Ok log ->
  key <> "timestamp" -> key <> "log_category" ->
  exists parsed,
    store_tokens (findall raw) [("raw", VStr raw); ("received_at", VStr now)] = Ok parsed /\
    dict_get log key = dict_get parsed key.
Proof.
  intros E Nt Nc.
  destruct (parse_shape now raw log E) as [parsed [stamped [category [S [St [_ ->]]]]]].
  exists parsed. split; [exact S|].
  rewrite dict_get_set_other by congruence. subst stamped.
  destruct (dict_get parsed "date"), (dict_get parsed "time"); try reflexivity.
  rewrite dict_get_set_other by congruence. reflexivity.
Qed.

(** C7, as amended.  In a record the parser returns, a field set by a
    token holds the value of the last token with that key: the integer it
    denotes when the value is one or more decimal digits (leading zeros do
    not survive: 007 becomes 7), the value itself as text whenever
    [isdigit] rejects it (signed numbers, empty values, any other text);
    and the field holds an integer exactly when [isdigit] accepts the
    value. *)
Theorem token_coercion (now raw : string) (log : record) (key q u : string) :
  parse_fortigate_log now raw = Ok log ->
  last_token key (findall raw) = Some (q, u) ->
  key <> "timestamp" -> key <> "log_category" ->
  let value := if is_empty q then u else q in
  (value <> EmptyString -> all_chars is_decimal value = true ->
     dict_get log key = Some (VInt (decimal_value value))) /\
  (isdigit value = false -> dict_get log key = Some (VStr value)) /\
  ((exists n, dict_get log key = Some (VInt n)) <-> isdigit value = true).
Proof.
  intros P L Nt Nc. cbv zeta. fold (token_text q u).
  destruct (parse_get now raw log key P Nt Nc) as [parsed [S G]].
  pose proof (store_tokens_get _ _ _ key S) as T. rewrite L in T.
  destruct T as [x [Tx Gx]]. rewrite G, Gx. clear G Gx.
  split; [|split].
  - intros N D. rewrite (token_value_digits q u (decimal_isdigit _ N D)) in Tx.
    destruct (_ && _); [congruence|discriminate].
  - intros I. rewrite (token_value_text q u I) in Tx. congruence.
  - split.
    + intros [n E]. inversion E. subst x. now apply token_value_int in Tx.
    + intros I. rewrite (token_value_digits q u I) in Tx.
      destruct (_ && _); [|discriminate].
      exists (decimal_value (token_text q u)). congruence.
Qed.

Lemma token_coercion_witness :
  exists log,
    parse_fortigate_log "2026-01-22T08:00:00" "policyid=007 delta=-5" = Ok log /\
    dict_get log "policyid" = Some (VInt 7) /\
    dict_get log "delta" = Some (VStr "-5").
Proof.
  eexists. split; [reflexivity|]. split.
  - refine (proj1 (token_coercion "2026-01-22T08:00:00" "policyid=007 delta=-5" _
                     "policyid" EmptyString "007" eq_refl eq_refl _ _) _ eq_refl);
      intros E; discriminate E.
  - refine (proj1 (proj2 (token_coercion "2026-01-22T08:00:00" "policyid=007 delta=-5" _
                     "delta" EmptyString "-5" eq_refl eq_refl _ _)) eq_refl);
      intros E; discriminate E.
Defined.

(** C7 as worded: the value 007 starts with a zero, and the field does not
    keep the text; it holds the integer 7. *)
Lemma leading_zero_is_coerced :
  exists log,
    parse_fortigate_log "2026-01-22T08:00:00" "policyid=007" = Ok log /\
    dict_get log "policyid" = Some (VInt 7) /\
    dict_get log "policyid" <> Some (VStr "007").
Proof.
  eexists. split; [reflexivity|]. split; [reflexivity|]. intros E. discriminate E.
Qed.


(** *** Matches are pieces of the line *)

Lemma all_chars_span P p s :
  all_chars P s = true ->
  all_chars P (fst (span p s)) = true /\ all_chars P (snd (span p s)) = true.
Proof.
  induction s as [|c s IH]; simpl; [auto|].
  intros A. apply andb_true_iff in A. destruct A as [Ac As].
  destruct (p c).
  - destruct (span p s) as [x y]. simpl in *. destruct (IH As) as [Hx Hy].
    rewrite Ac, Hx. auto.
  - simpl. rewrite Ac, As. auto.
Qed.

Lemma all_chars_match_at P s k q u len :
  all_chars P s = true -> match_at s = Some (k, q, u, len) ->
  all_chars P k = true /\ all_chars P q = true /\ all_chars P u = true.
Proof.
  intros A. unfold match_at.
  destruct (all_chars_span P is_word s A) as [Ak Ar].
  destruct (span is_word s) as [key r1]. simpl in Ak, Ar.
  destruct (is_empty key); [discriminate|].
  destruct r1 as [|c r2]; [discriminate|].
  destruct (Ascii.eqb c "="); [|discriminate].
  simpl in Ar. apply andb_true_iff in Ar. destruct Ar as [_ Ar].
  destruct (match_quoted r2) as [q'|] eqn:Q.
  - intros E. inversion E. subst. clear E.
    repeat split; try assumption.
    unfold match_quoted in Q. destruct r2 as [|d r3]; [discriminate|].
    destruct (is_quote d); [|discriminate].
    simpl in Ar. apply andb_true_iff in Ar. destruct Ar as [_ Ar].
    destruct (all_chars_span P (fun x => negb (is_quote x)) r3 Ar) as [Aq _].
    destruct (span _ r3) as [q0 rest]. destruct rest; [discriminate|].
    inversion Q. now subst.
  - destruct (all_chars_span P (fun x => negb (is_space x)) r2 Ar) as [Au _].
    destruct (span _ r2) as [u' rest]. destruct (is_empty u'); [discriminate|].
    intros E. inversion E. subst. auto.
Qed.

Lemma findall_from_step skip c s :
  findall_from skip (String c s) =
  match skip with
  | S k => findall_from k s
  | O => match match_at (String c s) with
         | Some (m, len) => m :: findall_from (Nat.pred len) s
         | None => findall_from 0 s
         end
  end.
Proof. reflexivity. Qed.

Lemma all_chars_findall_from P skip s k q u :
  all_chars P s = true -> In (k, q, u) (findall_from skip s) ->
  all_chars P k = true /\ all_chars P q = true /\ all_chars P u = true.
Proof.
  revert skip. induction s as [|c s IH]; intros skip A Hin; [destruct Hin|].
  assert (As : all_chars P s = true).
  { simpl in A. apply andb_true_iff in A. tauto. }
  rewrite findall_from_step in Hin.
  destruct skip as [|n]; [|now apply (IH n)].
  destruct (match_at (String c s)) as [[[[k' q'] u'] len]|] eqn:M;
    [|now apply (IH 0%nat)].
  destruct Hin as [E|Hin]; [|now apply (IH (Nat.pred len))].
  inversion E. subst. exact (all_chars_match_at P _ _ _ _ _ A M).
Qed.

Lemma ascii_digit_decimal c :
  (code c <? 128)%N = true -> is_digit c = true -> is_decimal c = true.
Proof.
  unfold is_digit, between. intros L.
  apply N.ltb_lt in L.
  destruct (is_decimal c); [reflexivity|]. simpl.
  destruct (N.leb_spec 178 (code c)), (N.eqb_spec (code c) 185); simpl;
    try discriminate; lia.
Qed.

Lemma ascii_digits_decimal s :
  is_ascii s = true -> all_chars is_digit s = true -> all_chars is_decimal s = true.
Proof.
  unfold is_ascii. induction s as [|c s IH]; simpl; [reflexivity|].
  intros A D. apply andb_true_iff in A. apply andb_true_iff in D.
  destruct A as [Ac As], D as [Dc Ds].
  rewrite (ascii_digit_decimal c Ac Dc). simpl. now apply IH.
Qed.

Lemma token_text_chars P q u :
  all_chars P q = true -> all_chars P u = true -> all_chars P (token_text q u) = true.
Proof. unfold token_text. now destruct (is_empty q). Qed.

(** The pieces of a match are no longer than the text. *)
Lemma length_span p s :
  (String.length (fst (span p s)) <= String.length s)%nat /\
  (String.length (snd (span p s)) <= String.length s)%nat.
Proof.
  induction s as [|c s IH]; simpl; [lia|].
  destruct (p c); [|simpl; lia].
  destruct (span p s) as [x y]. simpl in *. lia.
Qed.

Lemma length_match_at s k q u len :
  match_at s = Some (k, q, u, len) ->
  (String.length q <= String.length s)%nat /\ (String.length u <= String.length s)%nat.
Proof.
  unfold match_at.
  pose proof (length_span is_word s) as [_ Lr].
  destruct (span is_word s) as [key r1]. simpl in Lr.
  destruct (is_empty key); [discriminate|].
  destruct r1 as [|c r2]; [discriminate|].
  destruct (Ascii.eqb c "="); [|discriminate].
  simpl in Lr.
  destruct (match_quoted r2) as [q'|] eqn:Q.
  - intros E. inversion E. subst. clear E. split; [|simpl; lia].
    unfold match_quoted in Q. destruct r2 as [|d r3]; [discriminate|].
    destruct (is_quote d); [|discriminate].
    pose proof (length_span (fun x => negb (is_quote x)) r3) as [Lq _].
    destruct (span _ r3) as [q0 rest]. destruct rest; [discriminate|].
    inversion Q. subst. simpl in *. lia.
  - pose proof (length_span (fun x => negb (is_space x)) r2) as [Lu _].
    destruct (span _ r2) as [u' rest]. destruct (is_empty u'); [discriminate|].
    intros E. inversion E. subst. simpl in *. lia.
Qed.

Lemma length_findall_from skip s k q u :
  In (k, q, u) (findall_from skip s) ->
  (String.length q <= String.length s)%nat /\ (String.length u <= String.length s)%nat.
Proof.
  revert skip. induction s as [|c s IH]; intros skip Hin; [destruct Hin|].
  assert (Step : forall n, In (k, q, u) (findall_from n s) ->
            (String.length q <= String.length (String c s))%nat /\
            (String.length u <= String.length (String c s))%nat).
  { intros n Hn. destruct (IH n Hn). simpl. lia. }
  rewrite findall_from_step in Hin.
  destruct skip as [|n]; [|now apply (Step n)].
  destruct (match_at (String c s)) as [[[[k' q'] u'] len]|] eqn:M;
    [|now apply (Step 0%nat)].
  destruct Hin as [E|Hin]; [|now apply (Step (Nat.pred len))].
  inversion E. subst. exact (length_match_at _ _ _ _ _ M).
Qed.

Lemma length_token_text q u n :
  (String.length q <= n)%nat -> (String.length u <= n)%nat ->
  (String.length (token_text q u) <= n)%nat.
Proof. unfold token_text. now destruct (is_empty q). Qed.

(** When the loop body returns on a match. *)
Lemma token_value_ok q u :
  (exists x, token_value q u = Ok x) <->
  (isdigit (token_text q u) = true ->
   all_chars is_decimal (token_text q u) = true /\ digit_count (token_text q u) <= 4300).
Proof.
  destruct (isdigit (token_text q u)) eqn:I.
  - rewrite (token_value_digits q u I). unfold int_max_str_digits.
    destruct (all_chars is_decimal (token_text q u)) eqn:D;
      destruct (Z.leb_spec (digit_count (token_text q u)) 4300) as [L|L];
      cbn [andb]; split.
    all: try (intros [x Hx]; discriminate Hx).
    all: try (intros Hd; destruct (Hd eq_refl) as [Hd1 Hd2];
              first [discriminate Hd1 | lia]).
    + intros _ _. split; [reflexivity|exact L].
    + intros _. eauto.
  - rewrite (token_value_text q u I). split; [discriminate|eauto].
Qed.

(** The parser returns exactly when [int()] converts every all-digit value:
    decimal digits, and no more than the limit. *)
Lemma parse_returns_iff now raw :
  (exists log, parse_fortigate_log now raw = Ok log) <->
  (forall key q u, In (key, q, u) (findall raw) ->
     isdigit (token_text q u) = true ->
     all_chars is_decimal (token_text q u) = true /\
     digit_count (token_text q u) <= 4300).
Proof.
  split.
  - intros [log P] key q u Hin.
    destruct (parse_shape now raw log P) as [parsed [_ [_ [S _]]]].
    apply token_value_ok. exact (store_tokens_each _ _ _ S key q u Hin).
  - intros D.
    destruct (store_tokens_ok (findall raw)
                [("raw", VStr raw); ("received_at", VStr now)]) as [parsed S].
    + intros k q u Hin. apply token_value_ok. now apply (D k q u).
    + exact (parse_ok now raw parsed S).
Qed.

Lemma parse_ascii now raw :
  is_ascii raw = true -> Z.of_nat (String.length raw) <= 4300 ->
  exists log, parse_fortigate_log now raw = Ok log.
Proof.
  intros A L. apply parse_returns_iff. intros key q u Hin I.
  destruct (all_chars_findall_from _ 0 raw key q u A Hin) as [_ [Aq Au]].
  destruct (length_findall_from 0 raw key q u Hin) as [Lq Lu].
  pose proof (length_token_text q u _ Lq Lu) as Lt.
  pose proof (digit_count_length (token_text q u)) as Dc.
  split; [|lia].
  apply ascii_digits_decimal.
  - now apply token_text_chars.
  - unfold isdigit in I. apply andb_true_iff in I. tauto.
Qed.

(** C8, as amended.  On a line with no token the parser returns a record
    with exactly three fields: [raw], [received_at], and [log_category] with
    the value of the fallback for an empty type and subtype.  The parser
    returns a record on every line whose all-digit token values are written
    with the decimal digits 0 to 9 and have at most 4300 of them, the most
    [int()] converts; so on every line of ASCII text of at most 4300
    characters. *)
Theorem parse_returns (now raw : string) :
  (findall raw = [] ->
     parse_fortigate_log now raw =
       Ok [("raw", VStr raw); ("received_at", VStr now); ("log_category", VStr "_")]) /\
  ((forall key q u, In (key, q, u) (findall raw) ->
      let value := if is_empty q then u else q in
      isdigit value = true ->
      all_chars is_decimal value = true /\ digit_count value <= 4300) ->
     exists log, parse_fortigate_log now raw = Ok log) /\
  (is_ascii raw = true -> Z.of_nat (String.length raw) <= 4300 ->
     exists log, parse_fortigate_log now raw = Ok log).
Proof.
  split; [|split].
  - intros E. unfold parse_fortigate_log. rewrite E. reflexivity.
  - exact (proj2 (parse_returns_iff now raw)).
  - exact (parse_ascii now raw).
Qed.

Lemma parse_returns_witness :
  parse_fortigate_log "2026-01-22T08:00:00" "link down on port3" =
    Ok [("raw", VStr "link down on port3");
        ("received_at", VStr "2026-01-22T08:00:00");
        ("log_category", VStr "_")] /\
  exists log, parse_fortigate_log "2026-01-22T08:00:00" "srcip=10.0.0.5 sentbyte=1200" = Ok log.
Proof.
  split.
  - exact (proj1 (parse_returns "2026-01-22T08:00:00" "link down on port3") eq_refl).
  - apply (proj2 (proj2 (parse_returns "2026-01-22T08:00:00" "srcip=10.0.0.5 sentbyte=1200"))
             eq_refl).
    simpl. lia.
Defined.

(** C8 as worded: a line with no token at all gives a record that has a
    third field, [log_category], next to [raw] and [received_at]. *)
Lemma tokenless_line_has_category :
  findall "link down on port3" = [] /\
  exists log,
    parse_fortigate_log "2026-01-22T08:00:00" "link down on port3" = Ok log /\
    dict_keys log = ["raw"; "received_at"; "log_category"] /\
    dict_get log "log_category" = Some (VStr "_").
Proof. split; [reflexivity|]. eexists. repeat split. Qed.

(** A value [isdigit] accepts and [int()] refuses: the superscript two.
    The parser raises [ValueError] on the line [a=] followed by it. *)
Example superscript_digit_raises :
  parse_fortigate_log "2026-01-22T08:00:00"
    (String "a" (String "=" (String (ascii_of_N 178) EmptyString))) = Raise ValueError.
Proof. reflexivity. Qed.

(** A number of 4301 digits: an ASCII line on which the parser raises
    [ValueError], while it returns on the line with one digit less. *)
Example long_number_raises :
  is_ascii ("a=" ++ nines 4301) = true /\
  parse_fortigate_log "2026-01-22T08:00:00" ("a=" ++ nines 4301) = Raise ValueError /\
  returned (parse_fortigate_log "2026-01-22T08:00:00" ("a=" ++ nines 4300)) = true.
Proof. vm_compute. repeat split. Qed.

End ParserFacts.

Module IngestFacts.
Import Collector Aggregator.

(** C1.  The line of the example parses to a record of category
    [security_web]; ingested into a fresh aggregator it adds one to
    [blocked_count], files [example.com] under the blocked sites with the
    detail of one hit from 10.0.0.5, and [Gambling] under the blocked
    categories with the detail of one hit from 10.0.0.5 to [example.com]. *)
Theorem webfilter_block_example (now : string) (C : Z) :
  exists log,
    parse_fortigate_log now
      "type=utm subtype=webfilter action=blocked srcip=10.0.0.5 hostname=example.com catdesc=Gambling"
      = Ok log /\
    dict_get log "log_category" = Some (VStr "security_web") /\
    fst (add_log log (init C)) = Ok tt /\
    let s := stats (after_add (init C) log) in
    blocked_count s = 1 /\
    blocked_sites s = [(VStr "example.com", 1)] /\
    blocked_sites_detail s = [(VStr "example.com", [(VStr "10.0.0.5", 1)])] /\
    blocked_categories s = [(VStr "Gambling", 1)] /\
    blocked_categories_detail s =
      [(VStr "Gambling", [(VStr "10.0.0.5", [(VStr "example.com", 1)])])].
Proof.
  eexists. split; [reflexivity|]. split; [reflexivity|].
  unfold after_add.
  destruct C as [|[p|p|]|p]; vm_compute; repeat split.
Qed.

End IngestFacts.

Module HookFacts.
Import WebSocketHook HookSpec.

Section Paused.
Variable clock : Type.
Variable time_key : record -> clock -> string.
Variable history_traffic : list record -> clock -> list bucket.

Lemma paused_log_ignored h e :
  isPaused h = true -> is_log e -> step clock time_key history_traffic h e = h.
Proof.
  intros P [now [log ->]]. simpl. now rewrite P.
Qed.

Lemma paused_logs_ignored h es :
  isPaused h = true -> Forall is_log es ->
  run clock time_key history_traffic h es = h.
Proof.
  intros P F. induction F as [|e es He _ IH]; [reflexivity|].
  simpl. now rewrite paused_log_ignored.
Qed.

(** C9, as amended.  A paused subscriber applies none of the [log] messages
    it receives: its state stays as it was; and resuming brings nothing
    back: whatever happens from the resume on, the state is the one it
    would be had those messages never arrived.  A [stats_update] message is
    not held back by the pause: it changes a paused subscriber exactly as it
    changes a running one. *)
Theorem paused_subscriber (h : hook) (es later : list (event clock)) :
  isPaused h = true ->
  Forall is_log es ->
  run clock time_key history_traffic h es = h /\
  run clock time_key history_traffic h (es ++ Pause clock false :: later) =
    run clock time_key history_traffic h (Pause clock false :: later) /\
  (forall now ts td tb tbc tbd tbcd,
     onmessage clock time_key history_traffic now
       (MsgStatsUpdate ts td tb tbc tbd tbcd) h =
     pauseUpdates true
       (onmessage clock time_key history_traffic now
          (MsgStatsUpdate ts td tb tbc tbd tbcd) (pauseUpdates false h))).
Proof.
  intros P F. split; [|split].
  - now apply paused_logs_ignored.
  - unfold run. rewrite fold_left_app.
    fold (run clock time_key history_traffic h es).
    now rewrite paused_logs_ignored.
  - intros. simpl. unfold stats_update_branch, pauseUpdates. simpl.
    now rewrite P.
Qed.

End Paused.

Lemma paused_subscriber_witness :
  isPaused (pauseUpdates true initial) = true /\
  run unit (fun _ _ => "8:00") (fun _ _ => []) (pauseUpdates true initial)
    [Receive unit tt (MsgLog sample_log); Receive unit tt (MsgLog sample_log)] =
    pauseUpdates true initial.
Proof.
  split; [reflexivity|].
  refine (proj1 (paused_subscriber unit (fun _ _ => "8:00") (fun _ _ => [])
                   (pauseUpdates true initial)
                   [Receive unit tt (MsgLog sample_log); Receive unit tt (MsgLog sample_log)]
                   [] eq_refl _)).
  repeat constructor; exists tt, sample_log; reflexivity.
Defined.

(** C9 as worded: a paused subscriber that receives a [stats_update] with a
    list of blocked sites takes the list in. *)
Lemma paused_subscriber_takes_stats_update :
  isPaused (pauseUpdates true initial) = true /\
  topBlocked
    (onmessage unit (fun _ _ => "8:00") (fun _ _ => []) tt
       (MsgStatsUpdate None None
          (Some (JList [JList [JStr "example.com"; JNum 3]])) None None None)
       (pauseUpdates true initial)) =
    JList [JList [JStr "example.com"; JNum 3]] /\
  topBlocked
    (onmessage unit (fun _ _ => "8:00") (fun _ _ => []) tt
       (MsgStatsUpdate None None
          (Some (JList [JList [JStr "example.com"; JNum 3]])) None None None)
       (pauseUpdates true initial)) <>
    topBlocked (pauseUpdates true initial).
Proof. repeat split. intros E. discriminate E. Qed.

End HookFacts.

(** ** Further properties of the aggregator *)

Module AggregatorMore.
Import Aggregator AggregatorSpec ExtraSpec AggregatorFacts.

(** *** When [add_log] raises *)

Lemma bind_returns {B} (m : M unit) (k : unit -> M B) a :
  returns m -> bind m k a = k tt (snd (m a)).
Proof.
  intros Hm. unfold bind. destruct (Hm a) as [x Hx].
  destruct (m a) as [[[]|e] a']; simpl in *; [reflexivity|discriminate].
Qed.

(** [add_log] from the state its first two blocks leave. *)
Lemma add_log_run log a :
  add_log log a =
  let a2 := snd (count_action log (snd (append_log log a))) in
  if too_many_digits (action_of log) then (Raise ValueError, a2)
  else bind (count_destination log)
            (fun _ => bind (count_blocked (action_text log) log)
                           (fun _ => count_type log))
            (snd (count_addresses log a2)).
Proof.
  unfold add_log.
  rewrite bind_returns by apply append_log_returns.
  cbv zeta. unfold bind at 1. rewrite count_action_run. cbv zeta.
  destruct (too_many_digits (action_of log)); [reflexivity|]. cbn [snd].
  rewrite bind_returns by apply count_addresses_returns.
  reflexivity.
Qed.

Lemma hostname_names_site_result log :
  if integer_hostname log
  then hostname_names_site (dict_get log "hostname") (dict_get log "dstip") =
       Raise AttributeError
  else exists b,
       hostname_names_site (dict_get log "hostname") (dict_get log "dstip") = Ok b.
Proof.
  unfold integer_hostname, hostname_names_site.
  destruct (dict_get log "hostname") as [[s|n]|] eqn:H.
  - destruct (truthy_opt (Some (VStr s)) && _); [|now exists false].
    destruct (is_ip_address_text s) as [b ->]. now exists (negb b).
  - change (truthy_opt (Some (VInt n))) with (negb (n =? 0)).
    destruct (negb (n =? 0) && negb (opt_eqb (Some (VInt n)) (dict_get log "dstip")))
      eqn:E; [|now exists false].
    unfold _is_ip_address.
    change (truthy_opt (Some (VInt n))) with (negb (n =? 0)).
    apply andb_true_iff in E. destruct E as [E _]. now rewrite E.
  - now exists false.
Qed.

Lemma count_destination_result log a :
  fst (count_destination log a) =
  if integer_hostname log then Raise AttributeError else Ok tt.
Proof.
  pose proof (hostname_names_site_result log) as R.
  unfold count_destination, bind, lift. cbv zeta.
  destruct (integer_hostname log).
  - now rewrite R.
  - destruct R as [b ->].
    destruct (if b then _ else _) as [dest|]; [destruct (truthy dest)|]; reflexivity.
Qed.

Lemma count_blocked_result text log a :
  integer_hostname log = false -> fst (count_blocked text log a) = Ok tt.
Proof.
  intros I. pose proof (hostname_names_site_result log) as R. rewrite I in R.
  destruct R as [b Hb].
  assert (Rt : returns (count_blocked text log)).
  { unfold count_blocked. cbv zeta. rewrite Hb.
    apply returns_when. apply returns_bind.
    - destruct (truthy_opt _); [intros x; now exists b|apply returns_ret].
    - intros c. apply returns_bind.
      + match goal with |- returns (match ?x with _ => _ end) => destruct x end;
          [apply returns_when, count_blocked_site_returns | apply returns_ret].
      + intros _. apply returns_when. apply count_blocked_category_returns. }
  destruct (Rt a) as [[] Hx]. exact Hx.
Qed.

Lemma add_log_result (a : aggregator) (log : record) :
  fst (add_log log a) =
  if too_many_digits (action_of log) then Raise ValueError
  else if integer_hostname log then Raise AttributeError else Ok tt.
Proof.
  rewrite add_log_run. cbv zeta.
  destruct (too_many_digits (action_of log)); [reflexivity|].
  unfold bind at 1.
  pose proof (count_destination_result log
    (snd (count_addresses log (snd (count_action log (snd (append_log log a))))))) as D.
  destruct (count_destination log _) as [[x|e] a4]; simpl in D.
  - destruct (integer_hostname log) eqn:I; [discriminate|].
    unfold bind. pose proof (count_blocked_result (action_text log) log a4 I) as B.
    destruct (count_blocked (action_text log) log a4) as [[y|e] a5]; simpl in B;
      [|discriminate].
    destruct (count_type_returns log a5) as [[] T]. exact T.
  - simpl. destruct (integer_hostname log); [congruence|discriminate].
Qed.

Lemma too_many_digits_action log :
  too_many_digits (action_of log) = true <->
  exists n, dict_get log "action" = Some (VInt n) /\
            4300 < PyText.digit_count (PyText.str_of_int n).
Proof.
  unfold action_of, dict_get_default.
  destruct (dict_get log "action") as [[s|n]|].
  - split; [discriminate|]. intros [n [E _]]. discriminate.
  - unfold too_many_digits, PyText.int_max_str_digits. rewrite Z.ltb_lt. split.
    + intros L. now exists n.
    + intros [m [E L]]. injection E as <-. exact L.
  - split; [discriminate|]. intros [n [E _]]. discriminate.
Qed.

Lemma integer_hostname_spec log :
  integer_hostname log = true <->
  exists n, dict_get log "hostname" = Some (VInt n) /\ n <> 0 /\
            dict_get log "dstip" <> Some (VInt n).
Proof.
  unfold integer_hostname.
  destruct (dict_get log "hostname") as [[s|n]|].
  - split; [discriminate|]. intros [n [E _]]. discriminate.
  - rewrite andb_true_iff, !negb_true_iff, Z.eqb_neq.
    split.
    + intros [N D]. exists n. repeat split; [exact N|].
      intros E. rewrite E in D. simpl in D. rewrite Z.eqb_refl in D. discriminate.
    + intros [m [E [N D]]]. injection E as <-. split; [exact N|].
      destruct (opt_eqb (Some (VInt n)) (dict_get log "dstip")) eqn:O; [|reflexivity].
      apply opt_eqb_eq in O. now symmetry in O.
  - split; [discriminate|]. intros [n [E _]]. discriminate.
Qed.

(** X1.  [add_log] raises [ValueError] exactly on a record whose action is an
    integer of more than 4300 digits, the most [str] converts; it raises
    [AttributeError] exactly on a record that is not of that kind and whose
    hostname is a non-zero integer different from the destination IP; on
    every other record it returns. *)
Theorem add_log_raises_iff (a : aggregator) (log : record) :
  let long_action :=
    exists n, dict_get log "action" = Some (VInt n) /\
              4300 < PyText.digit_count (PyText.str_of_int n) in
  let integer_host :=
    exists n, dict_get log "hostname" = Some (VInt n) /\ n <> 0 /\
              dict_get log "dstip" <> Some (VInt n) in
  (fst (add_log log a) = Raise ValueError <-> long_action) /\
  (fst (add_log log a) = Raise AttributeError <-> ~ long_action /\ integer_host) /\
  (fst (add_log log a) = Ok tt <-> ~ long_action /\ ~ integer_host) /\
  (fst (add_log log a) = Ok tt \/ fst (add_log log a) = Raise AttributeError \/
   fst (add_log log a) = Raise ValueError).
Proof.
  cbv zeta.
  rewrite add_log_result, <- integer_hostname_spec, <- too_many_digits_action.
  destruct (too_many_digits (action_of log)), (integer_hostname log);
    repeat split; auto; try discriminate; try tauto;
    intros [? ?]; congruence.
Qed.

(** An action of 4301 digits: [add_log] raises [ValueError] once the total
    and the counter of the action have moved, and before it counts the
    source; an action of 4300 digits goes through. *)
Example long_action_raises :
  fst (add_log [("action", VInt (10 ^ 4300)); ("srcip", VStr "10.0.0.5")] (init 1000)) =
    Raise ValueError /\
  total_logs (stats (after_add (init 1000)
     [("action", VInt (10 ^ 4300)); ("srcip", VStr "10.0.0.5")])) = 1 /\
  by_srcip (stats (after_add (init 1000)
     [("action", VInt (10 ^ 4300)); ("srcip", VStr "10.0.0.5")])) = [] /\
  fst (add_log [("action", VInt (10 ^ 4300 - 1)); ("srcip", VStr "10.0.0.5")] (init 1000)) =
    Ok tt.
Proof. vm_compute. repeat split. Qed.

(** The aggregator after [add_log]: what the first counters left when [str]
    raised on the action, what the destination block left when it raised,
    what the last block left otherwise. *)
Lemma after_add_cases a log :
  after_add a log =
  let a2 := snd (count_action log (snd (append_log log a))) in
  let a3 := snd (count_addresses log a2) in
  if too_many_digits (action_of log) then a2
  else if integer_hostname log then snd (count_destination log a3)
  else snd (count_type log
              (snd (count_blocked (action_text log) log (snd (count_destination log a3))))).
Proof.
  unfold after_add. rewrite add_log_run. cbv zeta.
  destruct (too_many_digits (action_of log)); [reflexivity|].
  generalize (snd (count_addresses log (snd (count_action log (snd (append_log log a)))))).
  intros a3. unfold bind at 1.
  pose proof (count_destination_result log a3) as D.
  destruct (count_destination log a3) as [[x|e] a4]; simpl in D |- *.
  - destruct (integer_hostname log) eqn:I; [discriminate|].
    unfold bind. pose proof (count_blocked_result (action_text log) log a4 I) as B.
    destruct (count_blocked (action_text log) log a4) as [[y|e] a5]; simpl in B |- *;
      [reflexivity|discriminate].
  - destruct (integer_hostname log); [reflexivity|discriminate].
Qed.

(** *** What one record does to each counting dictionary *)

Lemma after_add_dstips a log :
  by_dstip (stats (after_add a log)) =
  count_keys (if too_many_digits (action_of log) then []
              else counted (dict_get log "dstip")) (by_dstip (stats a)).
Proof.
  destruct (too_many_digits (action_of log)) eqn:T.
  { now apply (after_add_raised (fun a => by_dstip (stats a))). }
  rewrite after_add_split, T. cbv zeta.
  rewrite (keeps_rest (fun a => by_dstip (stats a))).
  - assert (E : by_dstip (stats (snd (count_action log (snd (append_log log a))))) =
                by_dstip (stats a)).
    { rewrite (count_action_keeps (fun a => by_dstip (stats a))) by reflexivity.
      now rewrite (append_log_keeps (fun a => by_dstip (stats a))). }
    rewrite <- E. generalize (snd (count_action log (snd (append_log log a)))).
    intros a2. unfold count_addresses, counted. cbv zeta.
    destruct (dict_get log "srcip") as [src|]; [destruct (truthy src)|];
      (destruct (dict_get log "dstip") as [dst|]; [destruct (truthy dst)|]); reflexivity.
  - intros _.
    apply keeps_bind; [now apply count_destination_keeps|]. intros _.
    apply keeps_bind; [now apply count_blocked_keeps|]. intros _.
    now apply count_type_keeps.
Qed.

Lemma after_add_sources' a log :
  by_srcip (stats (after_add a log)) =
  count_keys (if too_many_digits (action_of log) then []
              else counted (dict_get log "srcip")) (by_srcip (stats a)).
Proof. exact (TopFacts.after_add_sources a log). Qed.

Lemma after_add_actions' a log :
  by_action (stats (after_add a log)) = count_keys [action_of log] (by_action (stats a)).
Proof. exact (after_add_actions a log). Qed.

Lemma after_add_types a log :
  by_type (stats (after_add a log)) =
  count_keys
    (if raises log then []
     else [dict_get_default log "log_category" (VStr "unknown")])
    (by_type (stats a)).
Proof.
  unfold raises.
  destruct (too_many_digits (action_of log)) eqn:T.
  { now apply (after_add_raised (fun a => by_type (stats a))). }
  rewrite after_add_cases, T. cbv zeta. cbn [orb].
  assert (E : by_type (stats (snd (count_addresses log
                (snd (count_action log (snd (append_log log a))))))) = by_type (stats a))
    by now apply (before_destination_keeps (fun a => by_type (stats a))).
  revert E.
  generalize (snd (count_addresses log (snd (count_action log (snd (append_log log a)))))).
  intros a3 E.
  destruct (integer_hostname log).
  - rewrite (count_destination_keeps (fun a => by_type (stats a))) by reflexivity.
    exact E.
  - unfold count_type. cbv zeta. simpl.
    rewrite (count_blocked_keeps (fun a => by_type (stats a))) by reflexivity.
    rewrite (count_destination_keeps (fun a => by_type (stats a))) by reflexivity.
    now rewrite E.
Qed.

Lemma after_add_destinations' a log :
  exists ks, (length ks <= 1)%nat /\
    by_destination (stats (after_add a log)) = count_keys ks (by_destination (stats a)).
Proof.
  pose proof (after_add_destinations a log) as E. unfold destinations in E.
  rewrite E.
  destruct (too_many_digits (action_of log)); [exists []; auto|].
  destruct (hostname_names_site _ _) as [b|e]; [|exists []; auto].
  destruct (if b then _ else _) as [dest|]; [|exists []; auto].
  destruct (truthy dest); [exists [dest]|exists []]; auto.
Qed.


(** *** The blocked branch *)

Lemma count_blocked_site_sites site srcip a :
  blocked_sites (stats (snd (count_blocked_site site srcip a))) =
  incr site (blocked_sites (stats a)).
Proof.
  unfold count_blocked_site.
  rewrite (keeps_rest (fun a => blocked_sites (stats a))); [reflexivity|].
  intros _. apply keeps_bind; [apply keeps_get|]. intros a'.
  apply keeps_bind; [apply keeps_when, keeps_update; reflexivity|]. intros _.
  destruct srcip; [apply keeps_when, keeps_update; reflexivity|apply keeps_ret].
Qed.

Lemma count_blocked_category_categories catdesc srcip site a :
  blocked_categories (stats (snd (count_blocked_category catdesc srcip site a))) =
  incr (match catdesc with
        | Some c => if truthy c then c else VStr "Other"
        | None => VStr "Other"
        end) (blocked_categories (stats a)).
Proof.
  unfold count_blocked_category. cbv zeta.
  rewrite (keeps_rest (fun a => blocked_categories (stats a))); [reflexivity|].
  intros _. apply keeps_bind; [apply keeps_get|]. intros a'.
  apply keeps_bind; [apply keeps_when, keeps_update; reflexivity|]. intros _.
  destruct srcip; [|apply keeps_ret].
  apply keeps_when. apply keeps_bind; [apply keeps_get|]. intros a''.
  apply keeps_bind; [apply keeps_when, keeps_update; reflexivity|]. intros _.
  destruct site; [apply keeps_when, keeps_update; reflexivity|apply keeps_ret].
Qed.

(** The site the blocked branch settles on is the hostname when that is
    truthy and the destination IP otherwise: the test of [_is_ip_address]
    changes nothing there. *)
Lemma settled_site h d b :
  hostname_names_site h d = Ok b ->
  (if (if truthy_opt (py_or h d) then b else false) then h
   else if negb (truthy_opt (py_or h d)) then d else py_or h d) = py_or h d.
Proof.
  unfold hostname_names_site, py_or. intros E.
  destruct (truthy_opt h) eqn:Th.
  - rewrite Th. simpl. now destruct b.
  - simpl in E. inversion E. subst b.
    destruct (truthy_opt d); reflexivity.
Qed.

Lemma raises_cases log :
  raises log = false ->
  too_many_digits (action_of log) = false /\ integer_hostname log = false.
Proof. unfold raises. apply orb_false_iff. Qed.

Lemma block_like_printable log :
  block_like log = true -> too_many_digits (action_of log) = false.
Proof.
  unfold block_like. rewrite action_in_text.
  now destruct (too_many_digits (action_of log)).
Qed.

(** A record on which [add_log] raises is filed under no site and no
    category. *)
Lemma raises_not_filed log :
  raises log = true -> blocked_utm log && negb (integer_hostname log) = false.
Proof.
  unfold raises, blocked_utm. intros R.
  destruct (integer_hostname log); [now rewrite andb_false_r|].
  rewrite orb_false_r in R.
  destruct (block_like log) eqn:B; [|reflexivity].
  rewrite (block_like_printable log B) in R. discriminate.
Qed.

(** The blocked branch once the site is settled. *)
Lemma count_blocked_run log a b :
  too_many_digits (action_of log) = false ->
  hostname_names_site (dict_get log "hostname") (dict_get log "dstip") = Ok b ->
  count_blocked (action_text log) log a =
  when (blocked_utm log)
    (bind (match py_or (dict_get log "hostname") (dict_get log "dstip") with
           | Some site => when (truthy site)
                            (count_blocked_site site (dict_get log "srcip"))
           | None => ret tt
           end)
          (fun _ =>
             when (value_eqb (dict_get_default log "subtype" (VStr "")) (VStr "webfilter")
                   || truthy_opt (dict_get log "catdesc"))
               (count_blocked_category (dict_get log "catdesc") (dict_get log "srcip")
                  (py_or (dict_get log "hostname") (dict_get log "dstip"))))) a.
Proof.
  intros P Hb. unfold count_blocked, blocked_utm, block_like. cbv zeta.
  rewrite action_in_text, P. cbn [negb andb].
  destruct (mem _ block_words && _); [|reflexivity]. simpl when.
  rewrite Hb.
  pose proof (settled_site _ _ _ Hb) as S.
  destruct (truthy_opt (py_or (dict_get log "hostname") (dict_get log "dstip"))) eqn:T.
  - unfold bind at 1, lift. rewrite S. reflexivity.
  - unfold bind at 1, ret at 1. rewrite S. reflexivity.
Qed.

Lemma when_counted {X} (f : aggregator -> X) (o : option value) (body : value -> M unit)
  (g : value -> X -> X) a :
  (forall k a, f (snd (body k a)) = g k (f a)) ->
  f (snd (match o with
          | Some k => when (truthy k) (body k)
          | None => ret tt
          end a)) = fold_left (fun x k => g k x) (counted o) (f a).
Proof.
  intros E. unfold counted. destruct o as [k|]; [|reflexivity].
  destruct (truthy k); simpl; [apply E|reflexivity].
Qed.

Lemma count_blocked_sites log a :
  raises log = false ->
  blocked_sites (stats (snd (count_blocked (action_text log) log a))) =
  count_keys
    (if blocked_utm log
     then counted (py_or (dict_get log "hostname") (dict_get log "dstip")) else [])
    (blocked_sites (stats a)).
Proof.
  intros Rs. destruct (raises_cases log Rs) as [P I].
  pose proof (hostname_names_site_result log) as R. rewrite I in R.
  destruct R as [b Hb]. rewrite (count_blocked_run log a b P Hb).
  destruct (blocked_utm log); [|reflexivity]. simpl when.
  rewrite (keeps_rest (fun a => blocked_sites (stats a))).
  - unfold count_keys.
    apply (when_counted (fun a => blocked_sites (stats a)) _
             (fun site => count_blocked_site site (dict_get log "srcip")) incr).
    intros k a'. apply count_blocked_site_sites.
  - intros _. apply keeps_when. now apply count_blocked_category_keeps.
Qed.

Lemma count_blocked_categories log a :
  raises log = false ->
  blocked_categories (stats (snd (count_blocked (action_text log) log a))) =
  count_keys (if blocked_utm log then category_of log else [])
    (blocked_categories (stats a)).
Proof.
  intros Rs. destruct (raises_cases log Rs) as [P I].
  pose proof (hostname_names_site_result log) as R. rewrite I in R.
  destruct R as [b Hb]. rewrite (count_blocked_run log a b P Hb).
  destruct (blocked_utm log); [|reflexivity]. simpl when.
  assert (K : keeps (fun a => blocked_categories (stats a))
                (match py_or (dict_get log "hostname") (dict_get log "dstip") with
                 | Some site => when (truthy site)
                                  (count_blocked_site site (dict_get log "srcip"))
                 | None => ret tt
                 end)).
  { destruct (py_or _ _); [|apply keeps_ret].
    apply keeps_when. now apply count_blocked_site_keeps. }
  assert (Rt : returns
                (match py_or (dict_get log "hostname") (dict_get log "dstip") with
                 | Some site => when (truthy site)
                                  (count_blocked_site site (dict_get log "srcip"))
                 | None => ret tt
                 end)).
  { destruct (py_or _ _); [|apply returns_ret].
    apply returns_when, count_blocked_site_returns. }
  rewrite snd_bind_returns by exact Rt.
  unfold category_of.
  destruct (value_eqb _ _ || truthy_opt _); simpl when.
  - rewrite count_blocked_category_categories. rewrite K.
    destruct (dict_get log "catdesc") as [c|]; [destruct (truthy c)|]; reflexivity.
  - simpl. apply K.
Qed.

Lemma after_add_late {X} (f : aggregator -> X) a log :
  (forall l a, f (set_logs l a) = f a) ->
  (forall a, f (on_stats bump_total a) = f a) ->
  (forall a, f (on_stats bump_blocked a) = f a) ->
  (forall a, f (on_stats bump_allowed a) = f a) ->
  (forall g a, f (on_stats (with_by_action g) a) = f a) ->
  (forall g a, f (on_stats (with_by_srcip g) a) = f a) ->
  (forall g a, f (on_stats (with_by_dstip g) a) = f a) ->
  (forall g a, f (on_stats (with_by_destination g) a) = f a) ->
  (forall g a, f (on_stats (with_by_type g) a) = f a) ->
  exists a4, f a4 = f a /\
    f (after_add a log) =
    if raises log then f a else f (snd (count_blocked (action_text log) log a4)).
Proof.
  intros. unfold raises.
  exists (snd (count_destination log
            (snd (count_addresses log (snd (count_action log (snd (append_log log a)))))))).
  assert (E : f (snd (count_destination log
            (snd (count_addresses log (snd (count_action log (snd (append_log log a))))))))
              = f a).
  { rewrite count_destination_keeps by auto. now apply before_destination_keeps. }
  split; [exact E|].
  destruct (too_many_digits (action_of log)) eqn:T.
  { now apply after_add_raised. }
  rewrite after_add_cases, T. cbv zeta. cbn [orb].
  destruct (integer_hostname log); [exact E|].
  now rewrite count_type_keeps by auto.
Qed.

Lemma after_add_sites a log :
  blocked_sites (stats (after_add a log)) =
  count_keys
    (if blocked_utm log && negb (integer_hostname log)
     then counted (py_or (dict_get log "hostname") (dict_get log "dstip")) else [])
    (blocked_sites (stats a)).
Proof.
  destruct (after_add_late (fun a => blocked_sites (stats a)) a log)
    as [a4 [E ->]]; try reflexivity.
  destruct (raises log) eqn:R.
  - now rewrite (raises_not_filed log R).
  - rewrite (proj2 (raises_cases log R)), andb_true_r, count_blocked_sites by exact R.
    now rewrite E.
Qed.

Lemma after_add_categories a log :
  blocked_categories (stats (after_add a log)) =
  count_keys
    (if blocked_utm log && negb (integer_hostname log) then category_of log else [])
    (blocked_categories (stats a)).
Proof.
  destruct (after_add_late (fun a => blocked_categories (stats a)) a log)
    as [a4 [E ->]]; try reflexivity.
  destruct (raises log) eqn:R.
  - now rewrite (raises_not_filed log R).
  - rewrite (proj2 (raises_cases log R)), andb_true_r, count_blocked_categories
      by exact R.
    now rewrite E.
Qed.


(** *** Counting dictionaries *)

Lemma get_default_set_same {V} (d : dict value V) k v dflt :
  dict_get_default (dict_set d k v) k dflt = v.
Proof. unfold dict_get_default. now rewrite dict_get_set_same. Qed.

Lemma sum_counts_incr k d : sum_counts (incr k d) = sum_counts d + 1.
Proof.
  unfold incr, dict_get_default.
  induction d as [|[k' v] d IH]; simpl; [lia|].
  destruct (value_eqb k' k); simpl; [lia|]. rewrite IH. lia.
Qed.

Lemma sum_counts_count_keys ks d :
  sum_counts (count_keys ks d) = sum_counts d + Z.of_nat (length ks).
Proof.
  revert d. induction ks as [|k ks IH]; intros d; simpl; [lia|].
  unfold count_keys in *. simpl. rewrite IH, sum_counts_incr. lia.
Qed.

Lemma positive_incr k d : positive_counts d -> positive_counts (incr k d).
Proof.
  unfold positive_counts, incr, dict_get_default.
  induction 1 as [|[k' v] d Hv Hd IH]; simpl.
  - repeat constructor. simpl. lia.
  - simpl in Hv. destruct (value_eqb k' k); simpl.
    + constructor; [simpl; lia|assumption].
    + constructor; [assumption|exact IH].
Qed.

Lemma positive_count_keys ks d : positive_counts d -> positive_counts (count_keys ks d).
Proof.
  revert d. induction ks as [|k ks IH]; intros d P; [exact P|].
  apply IH. now apply positive_incr.
Qed.

Lemma get_default_incr k k' d :
  dict_get_default (incr k d) k' 0 =
  dict_get_default d k' 0 + (if value_eqb k k' then 1 else 0).
Proof.
  unfold incr. destruct (value_eqb k k') eqn:E.
  - apply value_eqb_eq in E. subst k'. rewrite get_default_set_same. reflexivity.
  - unfold dict_get_default at 1 3. rewrite dict_get_set_other; [lia|].
    intros ->. rewrite value_eqb_refl in E. discriminate.
Qed.

(** Number of occurrences of [k] in a list of keys. *)
Lemma get_default_count_keys ks k d :
  dict_get_default (count_keys ks d) k 0 =
  dict_get_default d k 0 +
  Z.of_nat (length (filter (fun x => value_eqb x k) ks)).
Proof.
  revert d. induction ks as [|x ks IH]; intros d; simpl; [lia|].
  unfold count_keys in *. simpl fold_left. rewrite IH, get_default_incr.
  destruct (value_eqb x k); simpl length; lia.
Qed.

(** A dictionary that a run updates by counting the keys [keys_of log] of
    each record. *)
Lemma ingest_count_keys (f : aggregator -> dict value Z) (keys_of : record -> list value) :
  (forall a log, f (after_add a log) = count_keys (keys_of log) (f a)) ->
  forall a logs, f (ingest a logs) = count_keys (flat_map keys_of logs) (f a).
Proof.
  intros E a logs. revert a. induction logs as [|log logs IH]; intros a; [reflexivity|].
  change (ingest a (log :: logs)) with (ingest (after_add a log) logs).
  rewrite IH, E. unfold count_keys. simpl flat_map. now rewrite fold_left_app.
Qed.

Lemma length_flat_map_singletons {A B} (p : A -> bool) (g : A -> B) (l : list A) :
  length (flat_map (fun x => if p x then [] else [g x]) l) =
  length (filter (fun x => negb (p x)) l).
Proof.
  induction l as [|x l IH]; simpl; [reflexivity|].
  destruct (p x); simpl; now rewrite IH.
Qed.

Lemma filter_flat_map_one {A} (g : A -> value) k (l : list A) :
  length (filter (fun x => value_eqb x k) (flat_map (fun x => [g x]) l)) =
  length (filter (fun x => value_eqb (g x) k) l).
Proof.
  induction l as [|x l IH]; simpl; [reflexivity|].
  destruct (value_eqb (g x) k); simpl; now rewrite IH.
Qed.

(** X2.  After a run, [by_action] holds for every action the number of
    records with that action, a record without the field counting under
    [unknown]; its counts add up to [total_logs]. *)
Theorem by_action_counts (C : Z) (logs : list record) (k : value) :
  let s := stats (ingest (init C) logs) in
  dict_get_default (by_action s) k 0 =
    number_of (fun log => value_eqb (action_of log) k) logs /\
  sum_counts (by_action s) = total_logs s.
Proof.
  cbv zeta.
  rewrite (ingest_count_keys (fun a => by_action (stats a)) (fun log => [action_of log])
             after_add_actions').
  destruct (ingest_counters (init C) logs) as [T _]. simpl in T. rewrite T.
  split.
  - rewrite get_default_count_keys, filter_flat_map_one. reflexivity.
  - rewrite sum_counts_count_keys. simpl.
    f_equal. clear. induction logs as [|l logs IH]; simpl; congruence.
Qed.

Lemma occurrences_is_key k ks :
  (length ks <= 1)%nat ->
  Z.of_nat (length (filter (fun x => value_eqb x k) ks)) = if is_key k ks then 1 else 0.
Proof.
  destruct ks as [|x [|? ?]]; intros L; [reflexivity| |simpl in L; lia].
  unfold is_key. simpl. rewrite orb_false_r. now destruct (value_eqb x k).
Qed.

Lemma length_counted o : (length (counted o) <= 1)%nat.
Proof. destruct o as [k|]; simpl; [destruct (truthy k)|]; simpl; lia. Qed.

(** A quantity that each record raises by one or leaves alone. *)
Lemma ingest_number_of (g : aggregator -> Z) (w : record -> bool) :
  (forall a log, g (after_add a log) = g a + (if w log then 1 else 0)) ->
  forall a logs, g (ingest a logs) = g a + number_of w logs.
Proof.
  intros E a logs. revert a. unfold number_of.
  induction logs as [|log logs IH]; intros a; [simpl; lia|].
  change (ingest a (log :: logs)) with (ingest (after_add a log) logs).
  rewrite IH, E. simpl filter. destruct (w log); simpl length; lia.
Qed.

(** X3.  After a run, [by_srcip] and [by_dstip] hold for every key the
    number of records whose [srcip], respectively [dstip], is that key, among
    the records on whose action [str] returned.  A record whose field is
    absent, empty or zero counts under no key; nor does a record whose action
    is an integer of more digits than [str] converts, on which [add_log]
    raises before it reads the addresses. *)
Theorem address_counts (C : Z) (logs : list record) (k : value) :
  let s := stats (ingest (init C) logs) in
  let counted_under field log :=
    negb (too_many_digits (action_of log))
    && is_key k (counted (dict_get log field)) in
  dict_get_default (by_srcip s) k 0 = number_of (counted_under "srcip") logs /\
  dict_get_default (by_dstip s) k 0 = number_of (counted_under "dstip") logs.
Proof.
  cbv zeta. split.
  - rewrite (ingest_number_of (fun a => dict_get_default (by_srcip (stats a)) k 0)
               (fun log => negb (too_many_digits (action_of log))
                           && is_key k (counted (dict_get log "srcip"))));
      [reflexivity|].
    intros a log. rewrite after_add_sources', get_default_count_keys. f_equal.
    destruct (too_many_digits (action_of log)); [reflexivity|].
    apply occurrences_is_key, length_counted.
  - rewrite (ingest_number_of (fun a => dict_get_default (by_dstip (stats a)) k 0)
               (fun log => negb (too_many_digits (action_of log))
                           && is_key k (counted (dict_get log "dstip"))));
      [reflexivity|].
    intros a log. rewrite after_add_dstips, get_default_count_keys. f_equal.
    destruct (too_many_digits (action_of log)); [reflexivity|].
    apply occurrences_is_key, length_counted.
Qed.

(** X4.  [by_type] counts the records on which [add_log] returned: it holds
    for every category the number of records of that category on which
    [add_log] did not raise, neither at the action nor at the hostname, a
    record without [log_category] counting under [unknown]; so [total_logs]
    exceeds the sum of its counts by the number of records that raised. *)
Theorem by_type_counts_returns (C : Z) (logs : list record) (k : value) :
  let s := stats (ingest (init C) logs) in
  dict_get_default (by_type s) k 0 =
    number_of (fun log => negb (raises log)
                          && value_eqb (dict_get_default log "log_category"
                                          (VStr "unknown")) k) logs /\
  total_logs s - sum_counts (by_type s) = number_of raises logs.
Proof.
  cbv zeta. split.
  - rewrite (ingest_number_of (fun a => dict_get_default (by_type (stats a)) k 0)
               (fun log => negb (raises log)
                           && value_eqb (dict_get_default log "log_category"
                                           (VStr "unknown")) k)); [reflexivity|].
    intros a log. rewrite after_add_types, get_default_count_keys. f_equal.
    destruct (raises log); [reflexivity|].
    simpl. now destruct (value_eqb _ k).
  - rewrite (ingest_count_keys (fun a => by_type (stats a)) _ after_add_types).
    destruct (ingest_counters (init C) logs) as [T _]. simpl in T. rewrite T.
    rewrite sum_counts_count_keys. simpl sum_counts.
    rewrite (length_flat_map_singletons raises
               (fun log => dict_get_default log "log_category" (VStr "unknown"))).
    unfold number_of. rewrite <- (filter_length raises logs). lia.
Qed.

(** *** The blocked tables over a run *)

Lemma ingest_blocked_count a logs :
  blocked_count (stats (ingest a logs)) =
  blocked_count (stats a) + Z.of_nat (length (filter block_like logs)).
Proof.
  revert a. induction logs as [|log logs IH]; intros a; [simpl; lia|].
  change (ingest a (log :: logs)) with (ingest (after_add a log) logs).
  rewrite IH. pose proof (after_add_counters a log) as E. unfold counters in E.
  injection E as _ B _. rewrite B. simpl filter.
  destruct (block_like log); simpl length; lia.
Qed.

Lemma ingest_allowed_count a logs :
  allowed_count (stats (ingest a logs)) =
  allowed_count (stats a) +
  Z.of_nat (length (filter (fun log => negb (block_like log) && allow_like log) logs)).
Proof.
  revert a. induction logs as [|log logs IH]; intros a; [simpl; lia|].
  change (ingest a (log :: logs)) with (ingest (after_add a log) logs).
  rewrite IH. pose proof (after_add_counters a log) as E. unfold counters in E.
  injection E as _ _ A. rewrite A. simpl filter.
  destruct (block_like log); simpl andb; [lia|].
  destruct (allow_like log); simpl length; lia.
Qed.

Lemma length_category_of log : (length (category_of log) <= 1)%nat.
Proof.
  unfold category_of. destruct (_ || _); [|simpl; lia].
  destruct (dict_get log "catdesc") as [c|]; [destruct (truthy c)|]; simpl; lia.
Qed.

Lemma length_flat_map_le {A B} (p : A -> bool) (keys : A -> list B) (l : list A) :
  (forall x, length (keys x) <= if p x then 1 else 0)%nat ->
  (length (flat_map keys l) <= length (filter p l))%nat.
Proof.
  intros H. induction l as [|x l IH]; simpl; [lia|].
  rewrite length_app. specialize (H x). destruct (p x); simpl; lia.
Qed.

(** X5.  After a run, the counts of [blocked_sites] add up to at most
    [blocked_count], and so do the counts of [blocked_categories]. *)
Theorem blocked_tables_bounded (C : Z) (logs : list record) :
  let s := stats (ingest (init C) logs) in
  sum_counts (blocked_sites s) <= blocked_count s /\
  sum_counts (blocked_categories s) <= blocked_count s.
Proof.
  cbv zeta.
  rewrite (ingest_count_keys (fun a => blocked_sites (stats a)) _ after_add_sites).
  rewrite (ingest_count_keys (fun a => blocked_categories (stats a)) _
             after_add_categories).
  rewrite ingest_blocked_count, !sum_counts_count_keys. simpl.
  split.
  - apply inj_le, length_flat_map_le. intros log. unfold blocked_utm.
    destruct (block_like log); simpl; [|lia].
    destruct (_ && _); [apply length_counted|simpl; lia].
  - apply inj_le, length_flat_map_le. intros log. unfold blocked_utm.
    destruct (block_like log); simpl; [|lia].
    destruct (_ && _); [apply length_category_of|simpl; lia].
Qed.

Ltac frame_late f a log a4 E :=
  destruct (after_add_late f a log) as [a4 [E ->]]; try reflexivity.

(** X6.  A record that is not a blocked [utm] record (its action is not one
    of the block words, or its [type] is not [utm]) leaves the four
    blocked tables as they were. *)
Theorem other_record_keeps_blocked_tables (a : aggregator) (log : record) :
  blocked_utm log = false ->
  blocked_tables (after_add a log) = blocked_tables a.
Proof.
  intros B. frame_late blocked_tables a log a4 E.
  destruct (raises log) eqn:R; [reflexivity|].
  destruct (raises_cases log R) as [P I].
  pose proof (hostname_names_site_result log) as H. rewrite I in H.
  destruct H as [b H]. rewrite (count_blocked_run log a4 b P H), B. exact E.
Qed.

Lemma other_record_keeps_blocked_tables_witness :
  blocked_utm [("type", VStr "utm"); ("action", VStr "accept");
               ("hostname", VStr "example.com")] = false /\
  blocked_tables
    (after_add (init 1000) [("type", VStr "utm"); ("action", VStr "accept");
                            ("hostname", VStr "example.com")]) =
  blocked_tables (init 1000).
Proof.
  split; [reflexivity|].
  apply (other_record_keeps_blocked_tables (init 1000)). reflexivity.
Defined.

(** X7.  For a blocked [utm] record on which [add_log] returns, the key
    counted in [blocked_sites] is the hostname when it is non-empty, also
    when it is an IP literal or differs from the key of [by_destination];
    otherwise the destination IP when that is non-empty; otherwise no key
    is counted. *)
Theorem blocked_site_key (a : aggregator) (log : record) :
  blocked_utm log = true ->
  integer_hostname log = false ->
  let hostname := dict_get log "hostname" in
  let dstip := dict_get log "dstip" in
  let sites := blocked_sites (stats a) in
  let sites' := blocked_sites (stats (after_add a log)) in
  (forall h, hostname = Some h -> truthy h = true -> sites' = incr h sites) /\
  (truthy_opt hostname = false ->
     forall d, dstip = Some d -> truthy d = true -> sites' = incr d sites) /\
  (truthy_opt hostname = false -> truthy_opt dstip = false -> sites' = sites).
Proof.
  intros B I. cbv zeta. rewrite after_add_sites, B, I. simpl andb. cbv iota.
  unfold py_or. split; [|split].
  - intros h E T. rewrite E. unfold truthy_opt, counted. rewrite T. cbv iota.
    now rewrite T.
  - intros E d D T. rewrite E, D. unfold counted. now rewrite T.
  - intros E D. rewrite E. destruct (dict_get log "dstip") as [d|]; [|reflexivity].
    unfold counted. simpl in D. now rewrite D.
Qed.

Lemma blocked_site_key_witness :
  let log := [("type", VStr "utm"); ("action", VStr "blocked");
              ("hostname", VStr "1.2.3.4"); ("dstip", VStr "5.6.7.8")] in
  blocked_utm log = true /\ integer_hostname log = false /\
  blocked_sites (stats (after_add (init 1000) log)) = [(VStr "1.2.3.4", 1)] /\
  by_destination (stats (after_add (init 1000) log)) = [(VStr "5.6.7.8", 1)].
Proof.
  cbv zeta. split; [reflexivity|]. split; [reflexivity|]. split; [|reflexivity].
  refine (proj1 (blocked_site_key (init 1000) _ _ _) (VStr "1.2.3.4") _ _); reflexivity.
Defined.

(** X8.  For a blocked [utm] record on which [add_log] returns, the key
    counted in [blocked_categories] is [catdesc] when it is non-empty;
    [Other] when it is not and the subtype is [webfilter]; no key is counted
    when it is not and the subtype is another one. *)
Theorem blocked_category_key (a : aggregator) (log : record) :
  blocked_utm log = true ->
  integer_hostname log = false ->
  let catdesc := dict_get log "catdesc" in
  let subtype := dict_get_default log "subtype" (VStr "") in
  let cats := blocked_categories (stats a) in
  let cats' := blocked_categories (stats (after_add a log)) in
  (forall c, catdesc = Some c -> truthy c = true -> cats' = incr c cats) /\
  (truthy_opt catdesc = false -> subtype = VStr "webfilter" ->
     cats' = incr (VStr "Other") cats) /\
  (truthy_opt catdesc = false -> value_eqb subtype (VStr "webfilter") = false ->
     cats' = cats).
Proof.
  intros B I. cbv zeta. rewrite after_add_categories, B, I. simpl andb. cbv iota.
  unfold category_of. split; [|split].
  - intros c E T. rewrite E. simpl truthy_opt. rewrite T, orb_true_r. reflexivity.
  - intros T ->. simpl orb. cbv iota.
    destruct (dict_get log "catdesc") as [c|]; [|reflexivity].
    simpl in T. now rewrite T.
  - intros T ->. now rewrite T.
Qed.

Lemma blocked_category_key_witness :
  let log := [("type", VStr "utm"); ("subtype", VStr "webfilter");
              ("action", VStr "blocked"); ("catdesc", VStr "")] in
  blocked_utm log = true /\ integer_hostname log = false /\
  blocked_categories (stats (after_add (init 1000) log)) = [(VStr "Other", 1)].
Proof.
  cbv zeta. split; [reflexivity|]. split; [reflexivity|].
  refine (proj1 (proj2 (blocked_category_key (init 1000) _ _ _)) _ _); reflexivity.
Defined.

(** X9.  A record on which [add_log] raises has been counted in
    [total_logs] and [by_action] by then, and in [by_srcip] and [by_dstip]
    unless it was the action that raised, while [by_destination], [by_type]
    and the blocked tables stay as they were. *)
Theorem raise_leaves_partial_update (a : aggregator) (log : record) :
  raises log = true ->
  let s := stats a in
  let s' := stats (after_add a log) in
  let at_action := too_many_digits (action_of log) in
  total_logs s' = total_logs s + 1 /\
  by_action s' = incr (action_of log) (by_action s) /\
  by_srcip s' =
    count_keys (if at_action then [] else counted (dict_get log "srcip")) (by_srcip s) /\
  by_dstip s' =
    count_keys (if at_action then [] else counted (dict_get log "dstip")) (by_dstip s) /\
  by_destination s' = by_destination s /\
  by_type s' = by_type s /\
  blocked_tables (after_add a log) = blocked_tables a.
Proof.
  intros R. cbv zeta.
  pose proof (after_add_counters a log) as Cn. unfold counters in Cn.
  injection Cn as T _ _.
  repeat split.
  - exact T.
  - apply after_add_actions'.
  - apply after_add_sources'.
  - apply after_add_dstips.
  - pose proof (after_add_destinations a log) as D. unfold destinations in D.
    rewrite D. unfold raises in R.
    destruct (too_many_digits (action_of log)); [reflexivity|]. cbn [orb] in R.
    pose proof (hostname_names_site_result log) as H. rewrite R in H.
    now rewrite H.
  - rewrite after_add_types, R. reflexivity.
  - frame_late blocked_tables a log a4 E. now rewrite R.
Qed.

Lemma raise_leaves_partial_update_witness :
  let log := [("hostname", VInt 12345); ("srcip", VStr "10.0.0.5");
              ("log_category", VStr "traffic_forward")] in
  raises log = true /\
  total_logs (stats (after_add (init 1000) log)) = 1 /\
  by_srcip (stats (after_add (init 1000) log)) = [(VStr "10.0.0.5", 1)] /\
  by_type (stats (after_add (init 1000) log)) = [].
Proof.
  cbv zeta. split; [reflexivity|].
  pose proof (raise_leaves_partial_update (init 1000)
                [("hostname", VInt 12345); ("srcip", VStr "10.0.0.5");
                 ("log_category", VStr "traffic_forward")] eq_refl) as H.
  cbv zeta in H. split; [apply H|]. split; [apply H|apply H].
Defined.


(** *** The drill-down tables *)

Lemma get_default_set {V} (d : dict value V) k v k' dflt :
  dict_get_default (dict_set d k v) k' dflt =
  if value_eqb k k' then v else dict_get_default d k' dflt.
Proof.
  destruct (value_eqb k k') eqn:E.
  - apply value_eqb_eq in E. subst. apply get_default_set_same.
  - unfold dict_get_default. rewrite dict_get_set_other; [reflexivity|].
    intros ->. rewrite value_eqb_refl in E. discriminate.
Qed.

Lemma get_default_absent {V} (d : dict value V) k dflt :
  dict_mem d k = false -> dict_get_default d k dflt = dflt.
Proof. unfold dict_mem, dict_get_default. now destruct (dict_get d k). Qed.

(** Entering the default under a key that is absent changes no lookup with
    that default. *)
Lemma get_default_ensure {V} (d : dict value V) k k' dflt :
  dict_get_default (if negb (dict_mem d k) then dict_set d k dflt else d) k' dflt =
  dict_get_default d k' dflt.
Proof.
  destruct (dict_mem d k) eqn:M; simpl; [reflexivity|].
  rewrite get_default_set. destruct (value_eqb k k') eqn:E; [|reflexivity].
  apply value_eqb_eq in E. subst. now rewrite get_default_absent.
Qed.

Lemma dict_mem_set {V} (d : dict value V) k v : dict_mem (dict_set d k v) k = true.
Proof. unfold dict_mem. now rewrite dict_get_set_same. Qed.

Lemma keys_ensure {V} (d : dict value V) k dflt :
  dict_keys (if negb (dict_mem d k) then dict_set d k dflt else d) =
  if dict_mem d k then dict_keys d else (dict_keys d ++ [k])%list.
Proof. destruct (dict_mem d k) eqn:M; simpl; [reflexivity|]. now rewrite dict_keys_set, M. Qed.

Lemma mem_ensure {V} (d : dict value V) k dflt :
  dict_mem (if negb (dict_mem d k) then dict_set d k dflt else d) k = true.
Proof. destruct (dict_mem d k) eqn:M; simpl; [exact M|apply dict_mem_set]. Qed.

Lemma count_blocked_site_detail site srcip a :
  blocked_sites_detail (stats (snd (count_blocked_site site srcip a))) =
  let d := blocked_sites_detail (stats a) in
  let d1 := if negb (dict_mem d site) then dict_set d site [] else d in
  match counted srcip with
  | [] => d1
  | src :: _ => dict_set d1 site (incr src (dict_get_default d1 site []))
  end.
Proof.
  unfold count_blocked_site, bind, update, modify, get, when, ret, counted. simpl.
  destruct (negb (dict_mem (blocked_sites_detail (stats a)) site)); simpl;
    (destruct srcip as [src|]; [destruct (truthy src)|]); reflexivity.
Qed.


Lemma count_blocked_site_detail_keys site srcip a :
  dict_keys (blocked_sites_detail (stats (snd (count_blocked_site site srcip a)))) =
  let d := blocked_sites_detail (stats a) in
  if dict_mem d site then dict_keys d else (dict_keys d ++ [site])%list.
Proof.
  rewrite count_blocked_site_detail. cbv zeta.
  destruct (counted srcip) as [|src ?].
  - apply keys_ensure.
  - rewrite dict_keys_set, mem_ensure. apply keys_ensure.
Qed.

(** The count of a site under a source in the detail table. *)
Lemma count_blocked_site_detail_count site srcip a k src :
  let get2 a := dict_get_default
                  (dict_get_default (blocked_sites_detail (stats a)) k []) src 0 in
  get2 (snd (count_blocked_site site srcip a)) =
  get2 a + (if value_eqb site k && is_key src (counted srcip) then 1 else 0).
Proof.
  cbv beta zeta. rewrite count_blocked_site_detail. cbv zeta.
  assert (L : (length (counted srcip) <= 1)%nat) by apply length_counted.
  destruct (counted srcip) as [|s [|? ?]]; [| |simpl in L; lia].
  - rewrite get_default_ensure. unfold is_key. simpl. rewrite andb_false_r. lia.
  - rewrite get_default_set, !get_default_ensure.
    unfold is_key. simpl existsb. rewrite orb_false_r.
    destruct (value_eqb site k) eqn:E; simpl andb; cbv iota.
    + apply value_eqb_eq in E. subst k. apply get_default_incr.
    + lia.
Qed.

Lemma mem_by_keys {V W} (d : dict value V) (e : dict value W) k :
  dict_keys d = dict_keys e -> dict_mem d k = dict_mem e k.
Proof.
  unfold dict_keys, dict_mem. revert e.
  induction d as [|[k1 v1] d IH]; intros [|[k2 v2] e] E; simpl in *;
    try discriminate; [reflexivity|].
  injection E as -> E. destruct (value_eqb k2 k); [reflexivity|]. now apply IH.
Qed.


Lemma count_blocked_category_detail catdesc srcip blocked_site a :
  blocked_categories_detail
    (stats (snd (count_blocked_category catdesc srcip blocked_site a))) =
  let category := match catdesc with
                  | Some c => if truthy c then c else VStr "Other"
                  | None => VStr "Other"
                  end in
  let d := blocked_categories_detail (stats a) in
  let d1 := if negb (dict_mem d category) then dict_set d category [] else d in
  match counted srcip with
  | [] => d1
  | src :: _ =>
      let per_cat := dict_get_default d1 category [] in
      let d2 := if negb (dict_mem per_cat src)
                then dict_set d1 category (dict_set per_cat src []) else d1 in
      match counted blocked_site with
      | [] => d2
      | site :: _ =>
          let per_cat := dict_get_default d2 category [] in
          dict_set d2 category
            (dict_set per_cat src (incr site (dict_get_default per_cat src [])))
      end
  end.
Proof.
  unfold count_blocked_category, bind, update, modify, get, when, ret, counted.
  cbv zeta. simpl.
  destruct (negb (dict_mem (blocked_categories_detail (stats a)) _)); simpl;
    (destruct srcip as [src|]; [destruct (truthy src)|]); simpl; try reflexivity;
    match goal with
    | |- context [negb (dict_mem ?p src)] => destruct (negb (dict_mem p src))
    end; simpl;
    (destruct blocked_site as [site|]; [destruct (truthy site)|]); reflexivity.
Qed.

Lemma get2_ensure {V} (d : dict value (dict value V)) c s c' s' (dflt : V) :
  dict_get_default
    (dict_get_default
       (if negb (dict_mem (dict_get_default d c []) s)
        then dict_set d c (dict_set (dict_get_default d c []) s dflt) else d) c' [])
    s' dflt =
  dict_get_default (dict_get_default d c' []) s' dflt.
Proof.
  destruct (dict_mem (dict_get_default d c []) s) eqn:M; simpl; [reflexivity|].
  rewrite get_default_set. destruct (value_eqb c c') eqn:E; [|reflexivity].
  apply value_eqb_eq in E. subst c'.
  rewrite get_default_set. destruct (value_eqb s s') eqn:F; [|reflexivity].
  apply value_eqb_eq in F. subst s'. now rewrite get_default_absent.
Qed.

Section CategorySteps.
Variables (d d1 d2 d3 : dict value (dict value (dict value Z))).
Variables (category src site : value).
Hypothesis D1 : d1 = if negb (dict_mem d category) then dict_set d category [] else d.
Hypothesis D2 :
  d2 = if negb (dict_mem (dict_get_default d1 category []) src)
       then dict_set d1 category (dict_set (dict_get_default d1 category []) src [])
       else d1.
Hypothesis D3 :
  d3 = dict_set d2 category
         (dict_set (dict_get_default d2 category []) src
            (incr site (dict_get_default (dict_get_default d2 category []) src []))).

Lemma category_steps_keys :
  let keys := if dict_mem d category then dict_keys d
              else (dict_keys d ++ [category])%list in
  dict_keys d1 = keys /\ dict_keys d2 = keys /\ dict_keys d3 = keys.
Proof.
  cbv zeta.
  assert (K1 : dict_keys d1 =
               if dict_mem d category then dict_keys d
               else (dict_keys d ++ [category])%list)
    by (rewrite D1; apply keys_ensure).
  assert (M1 : dict_mem d1 category = true) by (rewrite D1; apply mem_ensure).
  assert (K2 : dict_keys d2 = dict_keys d1).
  { rewrite D2. destruct (negb (dict_mem (dict_get_default d1 category []) src));
      [|reflexivity]. now rewrite dict_keys_set, M1. }
  assert (M2 : dict_mem d2 category = true).
  { rewrite D2. destruct (negb (dict_mem (dict_get_default d1 category []) src));
      [apply dict_mem_set|exact M1]. }
  repeat split; [exact K1|congruence|].
  rewrite D3, dict_keys_set, M2. congruence.
Qed.

Lemma category_steps_counts :
  (forall c, dict_get_default d1 c [] = dict_get_default d c []) /\
  (forall c s, dict_get_default (dict_get_default d2 c []) s [] =
               dict_get_default (dict_get_default d c []) s []) /\
  (forall c s k,
     dict_get_default (dict_get_default (dict_get_default d3 c []) s []) k 0 =
     dict_get_default (dict_get_default (dict_get_default d c []) s []) k 0 +
     (if value_eqb category c && value_eqb src s && value_eqb site k then 1 else 0)).
Proof.
  assert (G1 : forall c, dict_get_default d1 c [] = dict_get_default d c [])
    by (intros; rewrite D1; apply get_default_ensure).
  assert (G2 : forall c s, dict_get_default (dict_get_default d2 c []) s [] =
                           dict_get_default (dict_get_default d c []) s []).
  { intros. rewrite D2, get2_ensure. now rewrite G1. }
  repeat split; [exact G1|exact G2|]. intros c s k.
  rewrite D3, get_default_set.
  destruct (value_eqb category c) eqn:E; simpl andb; cbv iota.
  - apply value_eqb_eq in E. subst c. rewrite get_default_set.
    destruct (value_eqb src s) eqn:F; simpl andb; cbv iota.
    + apply value_eqb_eq in F. subst s. rewrite get_default_incr, G2.
      destruct (value_eqb site k); lia.
    + rewrite G2. lia.
  - rewrite G2. lia.
Qed.

End CategorySteps.

Lemma count_blocked_category_detail_keys catdesc srcip blocked_site a :
  dict_keys (blocked_categories_detail
               (stats (snd (count_blocked_category catdesc srcip blocked_site a)))) =
  let category := match catdesc with
                  | Some c => if truthy c then c else VStr "Other"
                  | None => VStr "Other"
                  end in
  let d := blocked_categories_detail (stats a) in
  if dict_mem d category then dict_keys d else (dict_keys d ++ [category])%list.
Proof.
  rewrite count_blocked_category_detail. cbv zeta.
  destruct (counted srcip) as [|src ?];
    [|destruct (counted blocked_site) as [|site ?]].
  - exact (proj1 (category_steps_keys _ _ _ _ _ (VInt 0) (VInt 0)
                    eq_refl eq_refl eq_refl)).
  - exact (proj1 (proj2 (category_steps_keys _ _ _ _ _ src (VInt 0)
                           eq_refl eq_refl eq_refl))).
  - exact (proj2 (proj2 (category_steps_keys _ _ _ _ _ src site
                           eq_refl eq_refl eq_refl))).
Qed.

(** The count of a destination under a category and a source in the detail
    table. *)
Lemma count_blocked_category_detail_count catdesc srcip blocked_site a c s k :
  let get3 a := dict_get_default
                  (dict_get_default
                     (dict_get_default (blocked_categories_detail (stats a)) c [])
                     s []) k 0 in
  let category := match catdesc with
                  | Some c => if truthy c then c else VStr "Other"
                  | None => VStr "Other"
                  end in
  get3 (snd (count_blocked_category catdesc srcip blocked_site a)) =
  get3 a + (if value_eqb category c && is_key s (counted srcip)
               && is_key k (counted blocked_site) then 1 else 0).
Proof.
  cbv beta zeta. rewrite count_blocked_category_detail. cbv zeta.
  assert (Ls : (length (counted srcip) <= 1)%nat) by apply length_counted.
  assert (Lb : (length (counted blocked_site) <= 1)%nat) by apply length_counted.
  unfold is_key.
  destruct (counted srcip) as [|src [|? ?]]; [| |simpl in Ls; lia].
  { erewrite (proj1 (category_steps_counts _ _ _ _ _ (VInt 0) (VInt 0)
                       eq_refl eq_refl eq_refl)).
    simpl. rewrite andb_false_r. simpl. lia. }
  destruct (counted blocked_site) as [|site [|? ?]]; [| |simpl in Lb; lia].
  { erewrite (proj1 (proj2 (category_steps_counts _ _ _ _ _ _ (VInt 0)
                              eq_refl eq_refl eq_refl))).
    simpl. rewrite !andb_false_r. lia. }
  simpl existsb. rewrite !orb_false_r.
  exact (proj2 (proj2 (category_steps_counts _ _ _ _ _ src site
                         eq_refl eq_refl eq_refl)) c s k).
Qed.


(** Where one more key goes in the key order of a table. *)
Lemma keys_count_keys ks d :
  (length ks <= 1)%nat ->
  dict_keys (count_keys ks d) =
  match ks with
  | [] => dict_keys d
  | k :: _ => if dict_mem d k then dict_keys d else (dict_keys d ++ [k])%list
  end.
Proof.
  destruct ks as [|k [|? ?]]; simpl; intros L; [reflexivity| |lia].
  apply TopFacts.incr_keys.
Qed.

Lemma is_key_nil k : is_key k [] = false.
Proof. reflexivity. Qed.

Lemma is_key_one k x : is_key k [x] = value_eqb x k.
Proof. unfold is_key. simpl. apply orb_false_r. Qed.

Lemma count_blocked_site_table log a :
  raises log = false ->
  let d := blocked_sites_detail (stats a) in
  let d' := blocked_sites_detail
              (stats (snd (count_blocked (action_text log) log a))) in
  let ks := if blocked_utm log
            then counted (py_or (dict_get log "hostname") (dict_get log "dstip"))
            else [] in
  dict_keys d' =
    match ks with
    | [] => dict_keys d
    | site :: _ => if dict_mem d site then dict_keys d else (dict_keys d ++ [site])%list
    end /\
  forall k src,
    dict_get_default (dict_get_default d' k []) src 0 =
    dict_get_default (dict_get_default d k []) src 0 +
    (if is_key k ks && is_key src (counted (dict_get log "srcip")) then 1 else 0).
Proof.
  intros Rs. destruct (raises_cases log Rs) as [P I]. cbv zeta.
  pose proof (hostname_names_site_result log) as R. rewrite I in R.
  destruct R as [b Hb]. rewrite (count_blocked_run log a b P Hb).
  destruct (blocked_utm log); [|split; [reflexivity|intros; simpl; lia]].
  simpl when.
  rewrite (keeps_rest (fun a => blocked_sites_detail (stats a)))
    by (intros _; apply keeps_when; now apply count_blocked_category_keeps).
  unfold counted at 1 2.
  destruct (py_or _ _) as [site|]; [|split; [reflexivity|intros; simpl; lia]].
  destruct (truthy site); simpl when; [|split; [reflexivity|intros; simpl; lia]].
  split; [apply count_blocked_site_detail_keys|]. intros k src.
  rewrite is_key_one.
  apply (count_blocked_site_detail_count site (dict_get log "srcip") a k src).
Qed.

Lemma count_blocked_category_table log a :
  raises log = false ->
  let d := blocked_categories_detail (stats a) in
  let d' := blocked_categories_detail
              (stats (snd (count_blocked (action_text log) log a))) in
  let cs := if blocked_utm log then category_of log else [] in
  dict_keys d' =
    match cs with
    | [] => dict_keys d
    | c :: _ => if dict_mem d c then dict_keys d else (dict_keys d ++ [c])%list
    end /\
  forall c src k,
    dict_get_default (dict_get_default (dict_get_default d' c []) src []) k 0 =
    dict_get_default (dict_get_default (dict_get_default d c []) src []) k 0 +
    (if is_key c cs && is_key src (counted (dict_get log "srcip"))
        && is_key k (counted (py_or (dict_get log "hostname") (dict_get log "dstip")))
     then 1 else 0).
Proof.
  intros Rs. destruct (raises_cases log Rs) as [P I]. cbv zeta.
  pose proof (hostname_names_site_result log) as R. rewrite I in R.
  destruct R as [b Hb]. rewrite (count_blocked_run log a b P Hb).
  destruct (blocked_utm log); [|split; [reflexivity|intros; simpl; lia]].
  simpl when.
  assert (K : keeps (fun a => blocked_categories_detail (stats a))
                (match py_or (dict_get log "hostname") (dict_get log "dstip") with
                 | Some site => when (truthy site)
                                  (count_blocked_site site (dict_get log "srcip"))
                 | None => ret tt
                 end)).
  { destruct (py_or _ _); [|apply keeps_ret].
    apply keeps_when. now apply count_blocked_site_keeps. }
  assert (Rt : returns
                (match py_or (dict_get log "hostname") (dict_get log "dstip") with
                 | Some site => when (truthy site)
                                  (count_blocked_site site (dict_get log "srcip"))
                 | None => ret tt
                 end)).
  { destruct (py_or _ _); [|apply returns_ret].
    apply returns_when, count_blocked_site_returns. }
  rewrite snd_bind_returns by exact Rt.
  revert K. generalize (match py_or (dict_get log "hostname") (dict_get log "dstip") with
                 | Some site => when (truthy site)
                                  (count_blocked_site site (dict_get log "srcip"))
                 | None => ret tt
                 end). intros m K. specialize (K a). simpl in K.
  unfold category_of.
  destruct (value_eqb _ _ || truthy_opt _); simpl when.
  - split.
    + rewrite count_blocked_category_detail_keys. cbv zeta. rewrite K.
      destruct (dict_get log "catdesc") as [c|]; [destruct (truthy c)|]; reflexivity.
    + intros c src k.
      pose proof (count_blocked_category_detail_count (dict_get log "catdesc")
                    (dict_get log "srcip")
                    (py_or (dict_get log "hostname") (dict_get log "dstip"))
                    (snd (m a)) c src k) as H.
      cbv beta zeta in H. rewrite H, K.
      destruct (dict_get log "catdesc") as [c0|]; [destruct (truthy c0)|];
        rewrite is_key_one; reflexivity.
  - unfold ret. cbn [snd]. rewrite K. split; [reflexivity|intros; simpl; lia].
Qed.


Lemma length_site_of log : (length (site_of log) <= 1)%nat.
Proof. unfold site_of. destruct (_ && _); [apply length_counted|simpl; lia]. Qed.

Lemma length_blocked_category_of log : (length (blocked_category_of log) <= 1)%nat.
Proof.
  unfold blocked_category_of. destruct (_ && _); [apply length_category_of|simpl; lia].
Qed.

Lemma after_add_site_table a log :
  let d := blocked_sites_detail (stats a) in
  let d' := blocked_sites_detail (stats (after_add a log)) in
  dict_keys d' =
    match site_of log with
    | [] => dict_keys d
    | site :: _ => if dict_mem d site then dict_keys d else (dict_keys d ++ [site])%list
    end /\
  forall k src,
    dict_get_default (dict_get_default d' k []) src 0 =
    dict_get_default (dict_get_default d k []) src 0 +
    (if is_key k (site_of log) && is_key src (counted (dict_get log "srcip"))
     then 1 else 0).
Proof.
  cbv zeta. unfold site_of.
  frame_late (fun a => blocked_sites_detail (stats a)) a log a4 E.
  destruct (raises log) eqn:R.
  - rewrite (raises_not_filed log R). split; [reflexivity|intros; simpl; lia].
  - rewrite (proj2 (raises_cases log R)), andb_true_r. rewrite <- E.
    now apply count_blocked_site_table.
Qed.

Lemma after_add_category_table a log :
  let d := blocked_categories_detail (stats a) in
  let d' := blocked_categories_detail (stats (after_add a log)) in
  dict_keys d' =
    match blocked_category_of log with
    | [] => dict_keys d
    | c :: _ => if dict_mem d c then dict_keys d else (dict_keys d ++ [c])%list
    end /\
  forall c src k,
    dict_get_default (dict_get_default (dict_get_default d' c []) src []) k 0 =
    dict_get_default (dict_get_default (dict_get_default d c []) src []) k 0 +
    (if is_key c (blocked_category_of log)
        && is_key src (counted (dict_get log "srcip")) && is_key k (site_of log)
     then 1 else 0).
Proof.
  cbv zeta. unfold site_of, blocked_category_of.
  frame_late (fun a => blocked_categories_detail (stats a)) a log a4 E.
  destruct (raises log) eqn:R.
  - rewrite (raises_not_filed log R). split; [reflexivity|intros; simpl; lia].
  - rewrite (proj2 (raises_cases log R)), andb_true_r. rewrite <- E.
    destruct (count_blocked_category_table log a4 R) as [K G]. split; [exact K|].
    intros c src k. rewrite G.
    destruct (blocked_utm log); [reflexivity|].
    rewrite !is_key_nil. reflexivity.
Qed.

Lemma ingest_details_aligned a logs :
  details_aligned a -> details_aligned (ingest a logs).
Proof.
  revert a. induction logs as [|log logs IH]; intros a A; [exact A|].
  change (ingest a (log :: logs)) with (ingest (after_add a log) logs).
  apply IH. destruct A as [S Ct]. split.
  - rewrite (proj1 (after_add_site_table a log)), after_add_sites.
    fold (site_of log). rewrite keys_count_keys by apply length_site_of.
    destruct (site_of log) as [|k ?]; [exact S|].
    rewrite (mem_by_keys _ _ k S), S. reflexivity.
  - rewrite (proj1 (after_add_category_table a log)), after_add_categories.
    fold (blocked_category_of log).
    rewrite keys_count_keys by apply length_blocked_category_of.
    destruct (blocked_category_of log) as [|k ?]; [exact Ct|].
    rewrite (mem_by_keys _ _ k Ct), Ct. reflexivity.
Qed.

(** X10.  After a run, [blocked_sites] holds for every site the number of
    blocked [utm] records filed under it, and [blocked_sites_detail] holds
    for every site and source the number of those records that came from
    that source; the two tables list the same sites in the same order. *)
Theorem blocked_site_breakdown (C : Z) (logs : list record) (k src : value) :
  let s := stats (ingest (init C) logs) in
  dict_keys (blocked_sites_detail s) = dict_keys (blocked_sites s) /\
  dict_get_default (blocked_sites s) k 0 =
    number_of (fun log => is_key k (site_of log)) logs /\
  dict_get_default (dict_get_default (blocked_sites_detail s) k []) src 0 =
    number_of (fun log => is_key k (site_of log)
                          && is_key src (counted (dict_get log "srcip"))) logs.
Proof.
  cbv zeta. split; [|split].
  - apply (ingest_details_aligned (init C) logs). split; reflexivity.
  - rewrite (ingest_number_of (fun a => dict_get_default (blocked_sites (stats a)) k 0)
               (fun log => is_key k (site_of log))); [reflexivity|].
    intros a log. rewrite after_add_sites. fold (site_of log).
    rewrite get_default_count_keys. f_equal.
    apply occurrences_is_key, length_site_of.
  - rewrite (ingest_number_of
               (fun a => dict_get_default
                           (dict_get_default (blocked_sites_detail (stats a)) k []) src 0)
               (fun log => is_key k (site_of log)
                           && is_key src (counted (dict_get log "srcip"))));
      [reflexivity|].
    intros a log. apply (proj2 (after_add_site_table a log)).
Qed.

(** X11.  After a run, [blocked_categories] holds for every category the
    number of blocked [utm] records filed under it, and
    [blocked_categories_detail] holds for every category, source and site the
    number of those records from that source that were filed under that site;
    the two tables list the same categories in the same order. *)
Theorem blocked_category_breakdown (C : Z) (logs : list record) (c src k : value) :
  let s := stats (ingest (init C) logs) in
  dict_keys (blocked_categories_detail s) = dict_keys (blocked_categories s) /\
  dict_get_default (blocked_categories s) c 0 =
    number_of (fun log => is_key c (blocked_category_of log)) logs /\
  dict_get_default
    (dict_get_default (dict_get_default (blocked_categories_detail s) c []) src []) k 0 =
    number_of (fun log => is_key c (blocked_category_of log)
                          && is_key src (counted (dict_get log "srcip"))
                          && is_key k (site_of log)) logs.
Proof.
  cbv zeta. split; [|split].
  - apply (ingest_details_aligned (init C) logs). split; reflexivity.
  - rewrite (ingest_number_of
               (fun a => dict_get_default (blocked_categories (stats a)) c 0)
               (fun log => is_key c (blocked_category_of log))); [reflexivity|].
    intros a log. rewrite after_add_categories. fold (blocked_category_of log).
    rewrite get_default_count_keys. f_equal.
    apply occurrences_is_key, length_blocked_category_of.
  - rewrite (ingest_number_of
               (fun a => dict_get_default
                           (dict_get_default
                              (dict_get_default (blocked_categories_detail (stats a)) c [])
                              src []) k 0)
               (fun log => is_key c (blocked_category_of log)
                           && is_key src (counted (dict_get log "srcip"))
                           && is_key k (site_of log))); [reflexivity|].
    intros a log. apply (proj2 (after_add_category_table a log)).
Qed.


(** *** What [get_stats] shows *)

Lemma ingest_invariant (P : aggregator -> Prop) :
  (forall a log, P a -> P (after_add a log)) ->
  forall a logs, P a -> P (ingest a logs).
Proof.
  intros S a logs. revert a. induction logs as [|log logs IH]; intros a H; [exact H|].
  apply IH, S, H.
Qed.

Lemma count_in_range (d : dict value Z) e :
  positive_counts d -> In e d -> 1 <= snd e <= sum_counts d.
Proof.
  unfold positive_counts. induction 1 as [|x d Hx Hd IH]; [intros []|].
  intros [<-|I]; simpl.
  - assert (0 <= sum_counts d).
    { clear -Hd. induction Hd as [|y d Hy Hd IH]; simpl; lia. }
    lia.
  - specialize (IH I). lia.
Qed.

Lemma top10_In {A} (count : A -> Z) (l : list A) e : In e (top10 count l) -> In e l.
Proof.
  unfold top10. intros I.
  apply (Permutation_in e (Permutation_sym (TopFacts.sorted_desc_perm count l))).
  rewrite <- (firstn_skipn 10 (sorted_desc count l)). apply in_or_app. now left.
Qed.

Lemma ingest_destinations_bounded a logs :
  positive_counts (by_destination (stats a)) /\
  sum_counts (by_destination (stats a)) <= total_logs (stats a) ->
  positive_counts (by_destination (stats (ingest a logs))) /\
  sum_counts (by_destination (stats (ingest a logs))) <= total_logs (stats (ingest a logs)).
Proof.
  apply (ingest_invariant
           (fun a => positive_counts (by_destination (stats a)) /\
                     sum_counts (by_destination (stats a)) <= total_logs (stats a))).
  clear. intros a log [P S].
  destruct (after_add_destinations' a log) as [ks [L ->]].
  pose proof (after_add_counters a log) as Cn. unfold counters in Cn.
  injection Cn as T _ _. rewrite T, sum_counts_count_keys.
  split; [now apply positive_count_keys|lia].
Qed.

Lemma length_flat_map_most {A B} (keys : A -> list B) (l : list A) :
  (forall x, length (keys x) <= 1)%nat -> (length (flat_map keys l) <= length l)%nat.
Proof.
  intros H. induction l as [|x l IH]; simpl; [lia|].
  rewrite length_app. specialize (H x). lia.
Qed.

(** X12.  In what [get_stats] returns after a run, every entry of
    [top_sources] and of [top_destinations] has a count between one and
    [total_logs], and every entry of [top_blocked] and of
    [top_blocked_categories] a count between one and [blocked_count]. *)
Theorem top_counts_in_range (C : Z) (logs : list record) :
  let a := ingest (init C) logs in
  let v := get_stats a in
  (forall e, In e (top_sources v) -> 1 <= snd e <= view_total_logs v) /\
  (forall e, In e (top_destinations v) -> 1 <= snd e <= view_total_logs v) /\
  (forall e, In e (top_blocked v) -> 1 <= snd e <= view_blocked_count v) /\
  (forall e, In e (top_blocked_categories v) -> 1 <= snd e <= view_blocked_count v).
Proof.
  cbv zeta. unfold get_stats. cbv zeta. simpl.
  destruct (ingest_counters (init C) logs) as [T _]. simpl in T.
  pose proof (ingest_blocked_count (init C) logs) as B. simpl in B.
  assert (Src : positive_counts (by_srcip (stats (ingest (init C) logs))) /\
                sum_counts (by_srcip (stats (ingest (init C) logs))) <=
                  total_logs (stats (ingest (init C) logs))).
  { rewrite (ingest_count_keys (fun a => by_srcip (stats a)) _ after_add_sources').
    rewrite T, sum_counts_count_keys. simpl. split.
    - apply positive_count_keys. constructor.
    - apply inj_le, length_flat_map_most. intros x.
      destruct (too_many_digits _); [simpl; lia|apply length_counted]. }
  assert (Dst : positive_counts (by_destination (stats (ingest (init C) logs))) /\
                sum_counts (by_destination (stats (ingest (init C) logs))) <=
                  total_logs (stats (ingest (init C) logs))).
  { apply ingest_destinations_bounded. simpl. split; [constructor|lia]. }
  assert (Sites : positive_counts (blocked_sites (stats (ingest (init C) logs))) /\
                  sum_counts (blocked_sites (stats (ingest (init C) logs))) <=
                    blocked_count (stats (ingest (init C) logs))).
  { rewrite (ingest_count_keys (fun a => blocked_sites (stats a)) _ after_add_sites).
    rewrite B, sum_counts_count_keys. simpl. split.
    - apply positive_count_keys. constructor.
    - apply inj_le, length_flat_map_le. intros log. unfold blocked_utm.
      destruct (block_like log); simpl; [|lia].
      destruct (_ && _); [apply length_counted|simpl; lia]. }
  assert (Cats : positive_counts (blocked_categories (stats (ingest (init C) logs))) /\
                 sum_counts (blocked_categories (stats (ingest (init C) logs))) <=
                   blocked_count (stats (ingest (init C) logs))).
  { rewrite (ingest_count_keys (fun a => blocked_categories (stats a)) _
               after_add_categories).
    rewrite B, sum_counts_count_keys. simpl. split.
    - apply positive_count_keys. constructor.
    - apply inj_le, length_flat_map_le. intros log. unfold blocked_utm.
      destruct (block_like log); simpl; [|lia].
      destruct (_ && _); [apply length_category_of|simpl; lia]. }
  split; [|split; [|split]]; intros e I; apply top10_In in I.
  all: first [ pose proof (count_in_range _ e (proj1 Src) I)
             | pose proof (count_in_range _ e (proj1 Dst) I)
             | pose proof (count_in_range _ e (proj1 Sites) I)
             | pose proof (count_in_range _ e (proj1 Cats) I) ]; lia.
Qed.

(** *** The buffer at its edges *)

Lemma lastn_lastn {A} n m (l : list A) : lastn n (lastn m l) = lastn (Nat.min n m) l.
Proof.
  unfold lastn. rewrite skipn_skipn, length_skipn. f_equal. lia.
Qed.

Lemma after_add_ring_edge a log :
  max_logs a <= 0 ->
  ring (after_add a log) =
  (max_logs a, skipn (Z.to_nat (- max_logs a)) (_logs a ++ [log])).
Proof.
  intros C. unfold after_add, add_log.
  rewrite (keeps_rest ring) by apply rest_keeps_ring.
  unfold append_log, bind, modify, get, when, ret, ring. simpl.
  assert (L : (Z.of_nat (length (_logs a ++ [log])) >? max_logs a) = true).
  { apply Z.gtb_lt. rewrite length_app. simpl. lia. }
  rewrite L. simpl. f_equal. unfold slice_from.
  destruct (Z.ltb_spec (- max_logs a) 0); [lia|].
  destruct (Z.min_spec (- max_logs a) (Z.of_nat (length (_logs a ++ [log]))))
    as [[_ ->]|[Hm ->]]; [reflexivity|].
  rewrite Nat2Z.id, skipn_all. symmetry. apply skipn_all2. lia.
Qed.

(** X13.  With a capacity of zero the buffer is never cut and holds every
    record ingested; with a negative capacity it is empty after every
    record. *)
Theorem ring_buffer_without_capacity (C : Z) (logs : list record) :
  C <= 0 ->
  _logs (ingest (init C) logs) = if C =? 0 then logs else [].
Proof.
  intros HC.
  assert (G : forall a, max_logs a = C -> (C < 0 -> _logs a = []) ->
                ring (ingest a logs) =
                (C, if C =? 0 then (_logs a ++ logs)%list else [])).
  { induction logs as [|log logs IH]; intros a E N.
    - simpl. unfold ring. rewrite E, app_nil_r.
      destruct (Z.eqb_spec C 0); [reflexivity|]. rewrite N by lia. reflexivity.
    - change (ingest a (log :: logs)) with (ingest (after_add a log) logs).
      pose proof (after_add_ring_edge a log ltac:(lia)) as R. unfold ring in R.
      injection R as M L. rewrite E in L.
      destruct (Z.eqb_spec C 0) as [->|NZ].
      + rewrite IH by (congruence || lia). simpl in L. rewrite L.
        simpl. now rewrite <- app_assoc.
      + assert (S : _logs (after_add a log) = []).
        { rewrite L, N by lia. simpl. apply skipn_all2. simpl. lia. }
        rewrite IH by (congruence || auto). destruct (Z.eqb_spec C 0); [lia|].
        reflexivity. }
  specialize (G (init C) eq_refl (fun _ => eq_refl)). unfold ring in G.
  injection G as _ G. exact G.
Qed.

Lemma ring_buffer_without_capacity_witness :
  0 <= 0 /\
  _logs (ingest (init 0) [[("action", VStr "accept")]; [("action", VStr "deny")]]) =
    [[("action", VStr "accept")]; [("action", VStr "deny")]].
Proof.
  split; [lia|].
  apply (ring_buffer_without_capacity 0
           [[("action", VStr "accept")]; [("action", VStr "deny")]]). lia.
Defined.

(** X14.  [get_recent_logs(limit)] after a run with a capacity of at least
    one: for a limit of at least one, the last [min(limit, capacity)] records
    ingested; for a limit of zero the whole buffer, and for a negative limit
    the buffer without its first [-limit] records. *)
Theorem recent_logs_window (C limit : Z) (logs : list record) :
  1 <= C ->
  get_recent_logs limit (ingest (init C) logs) =
  if 1 <=? limit then lastn (Z.to_nat (Z.min limit C)) logs
  else skipn (Z.to_nat (- limit)) (lastn (Z.to_nat C) logs).
Proof.
  intros HC.
  pose proof (ingest_ring (init C) logs) as E. simpl in E.
  specialize (E HC ltac:(lia)). unfold ring in E.
  assert (E2 : _logs (ingest (init C) logs) = lastn (Z.to_nat C) logs) by congruence.
  unfold get_recent_logs. rewrite E2. clear E E2.
  generalize (lastn_lastn (Z.to_nat limit) (Z.to_nat C) logs).
  generalize (lastn (Z.to_nat C) logs). intros l LL.
  unfold slice_from.
  destruct (Z.leb_spec 1 limit) as [P|P].
  - destruct (Z.ltb_spec (- limit) 0); [|lia].
    replace (Z.to_nat (Z.min limit C)) with (Nat.min (Z.to_nat limit) (Z.to_nat C)) by lia.
    rewrite <- LL. unfold lastn at 1. f_equal. lia.
  - destruct (Z.ltb_spec (- limit) 0); [lia|].
    destruct (Z.min_spec (- limit) (Z.of_nat (length l))) as [[_ ->]|[Hm ->]];
      [reflexivity|].
    rewrite Nat2Z.id, skipn_all. symmetry. apply skipn_all2. lia.
Qed.

Lemma recent_logs_window_witness :
  1 <= 2 /\
  get_recent_logs 5
    (ingest (init 2) [[("action", VStr "a")]; [("action", VStr "b")];
                      [("action", VStr "c")]]) =
  [[("action", VStr "b")]; [("action", VStr "c")]].
Proof.
  split; [lia|].
  apply (recent_logs_window 2 5
           [[("action", VStr "a")]; [("action", VStr "b")]; [("action", VStr "c")]]).
  lia.
Defined.


(** *** [_is_ip_address] on texts *)

Lemma octets_checked :
  forallb (fun n =>
             PyText.all_chars (fun c => negb (Ascii.eqb c ".")) (PyText.str_of_int n)
             && negb (PyText.is_empty (PyText.str_of_int n))
             && match PyText.to_int (PyText.str_of_int n) with
                | Some m => m =? n
                | None => false
                end)
          (map Z.of_nat (seq 0 256)) = true.
Proof. vm_compute. reflexivity. Qed.

Lemma octet_text n :
  0 <= n <= 255 ->
  PyText.all_chars (fun c => negb (Ascii.eqb c ".")) (PyText.str_of_int n) = true /\
  PyText.str_of_int n <> EmptyString /\
  PyText.to_int (PyText.str_of_int n) = Some n.
Proof.
  intros R. pose proof octets_checked as F. rewrite forallb_forall in F.
  specialize (F n). 
  assert (I : In n (map Z.of_nat (seq 0 256))).
  { replace n with (Z.of_nat (Z.to_nat n)) by lia. apply in_map, in_seq. lia. }
  apply F in I. apply andb_prop in I. destruct I as [I T].
  apply andb_prop in I. destruct I as [D E].
  repeat split; [exact D| |].
  - intros Z. rewrite Z in E. discriminate.
  - destruct (PyText.to_int _) as [m|]; [|discriminate].
    apply Z.eqb_eq in T. now subst.
Qed.

Lemma split_on_no_sep sep s :
  PyText.all_chars (fun c => negb (Ascii.eqb c sep)) s = true ->
  PyText.split_on sep s = [s].
Proof.
  induction s as [|c s IH]; simpl; [reflexivity|]. intros H.
  apply andb_prop in H. destruct H as [N H].
  destruct (Ascii.eqb c sep); [discriminate|]. now rewrite IH.
Qed.

Lemma split_on_app sep s t :
  PyText.all_chars (fun c => negb (Ascii.eqb c sep)) s = true ->
  PyText.split_on sep (s ++ String sep t) = s :: PyText.split_on sep t.
Proof.
  induction s as [|c s IH]; simpl.
  - now rewrite Ascii.eqb_refl.
  - intros H. apply andb_prop in H. destruct H as [N H].
    destruct (Ascii.eqb c sep); [discriminate|]. now rewrite IH.
Qed.

Lemma length_split_on sep s :
  length (PyText.split_on sep s) = S (count_char sep s).
Proof.
  induction s as [|c s IH]; simpl; [reflexivity|].
  destruct (Ascii.eqb c sep); simpl; [now rewrite IH|].
  destruct (PyText.split_on sep s) as [|p ps]; simpl in *; [discriminate|exact IH].
Qed.

Lemma dotted_quad_accepted (a b c d : Z) :
  0 <= a <= 255 -> 0 <= b <= 255 -> 0 <= c <= 255 -> 0 <= d <= 255 ->
  _is_ip_address (Some (VStr (dotted a b c d))) = Ok true.
Proof.
  intros Ha Hb Hc Hd.
  destruct (octet_text a Ha) as [Da [Na Ta]].
  destruct (octet_text b Hb) as [Db [Nb Tb]].
  destruct (octet_text c Hc) as [Dc [Nc Tc]].
  destruct (octet_text d Hd) as [Dd [Nd Td]].
  unfold _is_ip_address, dotted.
  assert (T : truthy_opt (Some (VStr (PyText.str_of_int a ++ "." ++
                PyText.str_of_int b ++ "." ++ PyText.str_of_int c ++ "." ++
                PyText.str_of_int d))) = true).
  { simpl. destruct (PyText.str_of_int a); [contradiction|reflexivity]. }
  rewrite T. simpl negb. cbv iota. cbn [append].
  assert (E : PyText.split_on "." (PyText.str_of_int a ++ String "."
                (PyText.str_of_int b ++ String "." (PyText.str_of_int c ++
                 String "." (PyText.str_of_int d)))) =
              [PyText.str_of_int a; PyText.str_of_int b; PyText.str_of_int c;
               PyText.str_of_int d]).
  { rewrite 3 split_on_app, split_on_no_sep by assumption. reflexivity. }
  rewrite E.
  cbn [length Nat.eqb negb all_octets]. rewrite Ta.
  replace ((0 <=? a) && (a <=? 255)) with true by lia. rewrite Tb.
  replace ((0 <=? b) && (b <=? 255)) with true by lia. rewrite Tc.
  replace ((0 <=? c) && (c <=? 255)) with true by lia. rewrite Td.
  replace ((0 <=? d) && (d <=? 255)) with true by lia.
  reflexivity.
Qed.

(** X15.  [_is_ip_address] on texts: it never raises, it accepts every
    dotted quad whose four numbers are between 0 and 255, and it rejects every
    text that does not have exactly three dots. *)
Theorem is_ip_address_on_text :
  (forall s, exists b, _is_ip_address (Some (VStr s)) = Ok b) /\
  (forall a b c d,
     0 <= a <= 255 -> 0 <= b <= 255 -> 0 <= c <= 255 -> 0 <= d <= 255 ->
     _is_ip_address (Some (VStr (dotted a b c d))) = Ok true) /\
  (forall s, count_char "." s <> 3%nat -> _is_ip_address (Some (VStr s)) = Ok false).
Proof.
  split; [exact is_ip_address_text|]. split; [exact dotted_quad_accepted|].
  intros s N.
  unfold _is_ip_address. destruct (negb (truthy_opt _)); [reflexivity|].
  rewrite length_split_on.
  destruct (Nat.eqb_spec (S (count_char "." s)) 4) as [E|E]; [lia|reflexivity].
Qed.


Lemma ingest_tables_positive C logs :
  let s := stats (ingest (init C) logs) in
  positive_counts (by_srcip s) /\ positive_counts (by_destination s) /\
  positive_counts (blocked_sites s) /\ positive_counts (blocked_categories s).
Proof.
  cbv zeta. repeat split.
  - rewrite (ingest_count_keys (fun a => by_srcip (stats a)) _ after_add_sources').
    apply positive_count_keys. constructor.
  - apply ingest_destinations_bounded. simpl. split; [constructor|lia].
  - rewrite (ingest_count_keys (fun a => blocked_sites (stats a)) _ after_add_sites).
    apply positive_count_keys. constructor.
  - rewrite (ingest_count_keys (fun a => blocked_categories (stats a)) _
               after_add_categories).
    apply positive_count_keys. constructor.
Qed.


(** *** The drill-down of a blocked site in the snapshot *)

(** The sources recorded for one site. *)
Lemma count_blocked_site_inner site srcip a k :
  dict_get_default (blocked_sites_detail (stats (snd (count_blocked_site site srcip a))))
    k [] =
  if value_eqb site k
  then count_keys (counted srcip) (dict_get_default (blocked_sites_detail (stats a)) k [])
  else dict_get_default (blocked_sites_detail (stats a)) k [].
Proof.
  rewrite count_blocked_site_detail. cbv zeta.
  assert (L : (length (counted srcip) <= 1)%nat) by apply length_counted.
  destruct (counted srcip) as [|src [|? ?]]; [| |simpl in L; lia].
  - rewrite get_default_ensure. now destruct (value_eqb site k).
  - rewrite get_default_set, !get_default_ensure.
    destruct (value_eqb site k) eqn:E; [|reflexivity].
    apply value_eqb_eq in E. now subst k.
Qed.

Lemma after_add_site_inner a log k :
  dict_get_default (blocked_sites_detail (stats (after_add a log))) k [] =
  count_keys (if is_key k (site_of log) then counted (dict_get log "srcip") else [])
    (dict_get_default (blocked_sites_detail (stats a)) k []).
Proof.
  unfold site_of.
  frame_late (fun a => blocked_sites_detail (stats a)) a log a4 E.
  destruct (raises log) eqn:Rs.
  - rewrite (raises_not_filed log Rs). reflexivity.
  - destruct (raises_cases log Rs) as [P I]. rewrite I, andb_true_r, <- E.
    pose proof (hostname_names_site_result log) as R. rewrite I in R.
    destruct R as [b Hb]. rewrite (count_blocked_run log a4 b P Hb).
    destruct (blocked_utm log); [|reflexivity]. simpl when.
    rewrite (keeps_rest (fun a => blocked_sites_detail (stats a)))
      by (intros _; apply keeps_when; now apply count_blocked_category_keeps).
    unfold counted at 1.
    destruct (py_or _ _) as [site|]; [|reflexivity].
    destruct (truthy site); simpl when; [|reflexivity].
    rewrite is_key_one, count_blocked_site_inner.
    now destruct (value_eqb site k).
Qed.

Lemma after_add_site_count a log k :
  dict_get_default (blocked_sites (stats (after_add a log))) k 0 =
  dict_get_default (blocked_sites (stats a)) k 0 +
  (if is_key k (site_of log) then 1 else 0).
Proof.
  rewrite after_add_sites. fold (site_of log).
  rewrite get_default_count_keys. f_equal.
  apply occurrences_is_key, length_site_of.
Qed.

Lemma no_dup_incr k d : NoDup (dict_keys d) -> NoDup (dict_keys (incr k d)).
Proof.
  intros N. rewrite TopFacts.incr_keys.
  destruct (dict_mem d k) eqn:M; [exact N|].
  rewrite TopFacts.dict_mem_keys in M.
  apply NoDup_app; [exact N|repeat constructor; intros []|].
  intros x I [E|[]]. subst x.
  assert (X : existsb (fun k' => value_eqb k' k) (dict_keys d) = true).
  { apply existsb_exists. exists k. split; [exact I|apply value_eqb_refl]. }
  congruence.
Qed.

Lemma no_dup_count_keys ks d : NoDup (dict_keys d) -> NoDup (dict_keys (count_keys ks d)).
Proof.
  revert d. induction ks as [|k ks IH]; intros d N; [exact N|].
  apply IH. now apply no_dup_incr.
Qed.

Lemma no_dup_lookup (d : dict value Z) k c :
  NoDup (dict_keys d) -> In (k, c) d -> dict_get_default d k 0 = c.
Proof.
  unfold dict_keys, dict_get_default.
  induction d as [|[k' c'] d IH]; intros N I; [destruct I|].
  simpl in *. inversion N as [|? ? Nk Nd]; subst.
  destruct I as [E|I].
  - injection E as -> ->. change (keyb k k) with (value_eqb k k).
    now rewrite value_eqb_refl.
  - change (keyb k' k) with (value_eqb k' k).
    destruct (value_eqb k' k) eqn:E.
    + apply value_eqb_eq in E. subst k'. exfalso. apply Nk.
      apply (in_map fst) in I. exact I.
    + now apply IH.
Qed.

Lemma sum_counts_nonneg {K} (d : list (K * Z)) : positive_counts d -> 0 <= sum_counts d.
Proof. induction 1 as [|x d Hx Hd IH]; simpl; lia. Qed.

Lemma sum_counts_perm {K} (d e : list (K * Z)) :
  Permutation d e -> sum_counts d = sum_counts e.
Proof. induction 1; simpl; lia. Qed.

Lemma sum_counts_firstn {K} n (d : list (K * Z)) :
  positive_counts d -> sum_counts (firstn n d) <= sum_counts d.
Proof.
  intros P. revert n. induction P as [|x d Hx Hd IH]; intros [|n]; simpl; try lia.
  - pose proof (sum_counts_nonneg d Hd). lia.
  - specialize (IH n). lia.
Qed.

Lemma positive_perm {K} (d e : list (K * Z)) :
  Permutation d e -> positive_counts d -> positive_counts e.
Proof. intros P F. unfold positive_counts in *. now rewrite <- P. Qed.

(** What the run keeps true of the sources recorded for each site. *)
Lemma ingest_site_sources C logs k :
  let s := stats (ingest (init C) logs) in
  positive_counts (dict_get_default (blocked_sites_detail s) k []) /\
  sum_counts (dict_get_default (blocked_sites_detail s) k []) <=
    dict_get_default (blocked_sites s) k 0.
Proof.
  cbv zeta.
  apply (ingest_invariant
           (fun a => positive_counts
                       (dict_get_default (blocked_sites_detail (stats a)) k []) /\
                     sum_counts (dict_get_default (blocked_sites_detail (stats a)) k [])
                       <= dict_get_default (blocked_sites (stats a)) k 0)).
  - clear. intros a log [P S].
    rewrite after_add_site_inner, after_add_site_count, sum_counts_count_keys.
    split; [now apply positive_count_keys|].
    destruct (is_key k (site_of log)); [|simpl; lia].
    pose proof (length_counted (dict_get log "srcip")). lia.
  - unfold dict_get_default. simpl. split; [apply Forall_nil|lia].
Qed.

(** X16.  The drill-down of a blocked site in the snapshot after a run:
    the counts of the sources listed under a site are at least one each and
    add up to at most the count of the site. *)
Theorem site_sources_within_count (C : Z) (logs : list record) :
  let v := get_stats (ingest (init C) logs) in
  forall e, In e (top_blocked_detail v) ->
    Forall (fun sc => 1 <= snd sc) (site_sources e) /\
    sum_counts (site_sources e) <= site_count e.
Proof.
  cbv zeta. unfold get_stats. cbv zeta. simpl. intros e I.
  apply in_map_iff in I. destruct I as [[k c] [<- I]].
  unfold site_detail. cbv zeta. simpl.
  destruct (ingest_site_sources C logs k) as [P S]. cbv zeta in P, S.
  apply top10_In in I.
  assert (N : NoDup (dict_keys (blocked_sites (stats (ingest (init C) logs))))).
  { rewrite (ingest_count_keys (fun a => blocked_sites (stats a)) _ after_add_sites).
    apply no_dup_count_keys. constructor. }
  rewrite (no_dup_lookup _ k c N I) in S.
  pose proof (TopFacts.sorted_desc_perm snd
                (dict_get_default
                   (blocked_sites_detail (stats (ingest (init C) logs))) k [])) as Pm.
  pose proof (positive_perm _ _ Pm P) as P'.
  split.
  - unfold top10. apply Forall_forall. intros sc Isc.
    unfold positive_counts in P'. rewrite Forall_forall in P'. apply P'.
    rewrite <- (firstn_skipn 10 (sorted_desc snd _)). apply in_or_app. now left.
  - unfold top10. pose proof (sum_counts_firstn 10 _ P') as L.
    rewrite <- (sum_counts_perm _ _ Pm) in L. lia.
Qed.


Lemma site_sources_within_count_witness :
  let logs := [[("type", VStr "utm"); ("action", VStr "blocked");
                ("srcip", VStr "10.0.0.5"); ("hostname", VStr "example.com")];
               [("type", VStr "utm"); ("action", VStr "deny");
                ("hostname", VStr "example.com")]] in
  let e := mkSite (VStr "example.com") 2 [(VStr "10.0.0.5", 1)] in
  In e (top_blocked_detail (get_stats (ingest (init 1000) logs))) /\
  sum_counts (site_sources e) <= site_count e.
Proof.
  cbv zeta. split; [vm_compute; left; reflexivity|].
  apply (site_sources_within_count 1000
           [[("type", VStr "utm"); ("action", VStr "blocked");
             ("srcip", VStr "10.0.0.5"); ("hostname", VStr "example.com")];
            [("type", VStr "utm"); ("action", VStr "deny");
             ("hostname", VStr "example.com")]]).
  vm_compute. left. reflexivity.
Defined.


(** *** The drill-down of a blocked category in the snapshot *)

Lemma sum_counts_app {K} (a b : list (K * Z)) :
  sum_counts (a ++ b) = sum_counts a + sum_counts b.
Proof. induction a as [|x a IH]; simpl; [reflexivity|]. rewrite IH. lia. Qed.

Lemma sum_counts_under (k : value) (v : dict value Z) :
  sum_counts (map (fun dc => (k, fst dc, snd dc)) v) = sum_counts v.
Proof. induction v as [|x v IH]; simpl; [reflexivity|]. now rewrite IH. Qed.

Lemma positive_under (k : value) (v : dict value Z) :
  positive_counts (map (fun dc => (k, fst dc, snd dc)) v) <-> positive_counts v.
Proof.
  unfold positive_counts. induction v as [|x v IH]; simpl.
  - split; constructor.
  - split; intros H; inversion H; subst; constructor; try assumption; now apply IH.
Qed.

Lemma positive_app {K} (a b : list (K * Z)) :
  positive_counts (a ++ b) <-> positive_counts a /\ positive_counts b.
Proof. apply Forall_app. Qed.

(** The counts under one source of a category. *)
Lemma sum_flatten_set (D : dict value (dict value Z)) k v :
  sum_counts (flatten (dict_set D k v)) =
  sum_counts (flatten D) - sum_counts (dict_get_default D k []) + sum_counts v.
Proof.
  unfold flatten, dict_get_default.
  induction D as [|[k' v'] D IH]; simpl.
  - rewrite sum_counts_app, sum_counts_under. simpl. lia.
  - change (keyb k' k) with (value_eqb k' k). destruct (value_eqb k' k); simpl.
    + rewrite !sum_counts_app, !sum_counts_under. lia.
    + rewrite !sum_counts_app, IH. lia.
Qed.

Lemma positive_flatten_set (D : dict value (dict value Z)) k v :
  positive_counts (flatten D) -> positive_counts v ->
  positive_counts (flatten (dict_set D k v)).
Proof.
  unfold flatten. intros P V.
  induction D as [|[k' v'] D IH]; simpl.
  - apply positive_app. split; [now apply positive_under|constructor].
  - simpl in P. apply positive_app in P. destruct P as [P1 P2].
    change (keyb k' k) with (value_eqb k' k). destruct (value_eqb k' k); simpl.
    + apply positive_app. split; [now apply positive_under|exact P2].
    + apply positive_app. split; [exact P1|now apply IH].
Qed.

Lemma positive_flatten_get (D : dict value (dict value Z)) k :
  positive_counts (flatten D) -> positive_counts (dict_get_default D k []).
Proof.
  unfold flatten, dict_get_default. intros P.
  induction D as [|[k' v'] D IH]; simpl; [constructor|].
  simpl in P. apply positive_app in P. destruct P as [P1 P2].
  change (keyb k' k) with (value_eqb k' k). destruct (value_eqb k' k).
  - now apply positive_under in P1.
  - now apply IH.
Qed.

Section CategoryInner.
Variables (d d1 d2 d3 : dict value (dict value (dict value Z))).
Variables (category src site : value).
Hypothesis D1 : d1 = if negb (dict_mem d category) then dict_set d category [] else d.
Hypothesis D2 :
  d2 = if negb (dict_mem (dict_get_default d1 category []) src)
       then dict_set d1 category (dict_set (dict_get_default d1 category []) src [])
       else d1.
Hypothesis D3 :
  d3 = dict_set d2 category
         (dict_set (dict_get_default d2 category []) src
            (incr site (dict_get_default (dict_get_default d2 category []) src []))).

(** The counts under a category after each of the three steps. *)
Lemma category_steps_bounds c :
  let total (x : dict value (dict value (dict value Z))) :=
    sum_counts (flatten (dict_get_default x c [])) in
  let positive (x : dict value (dict value (dict value Z))) :=
    positive_counts (flatten (dict_get_default x c [])) in
  positive d ->
  (positive d1 /\ total d1 <= total d + (if value_eqb category c then 1 else 0)) /\
  (positive d2 /\ total d2 <= total d + (if value_eqb category c then 1 else 0)) /\
  (positive d3 /\ total d3 <= total d + (if value_eqb category c then 1 else 0)).
Proof.
  cbv zeta. intros P.
  assert (G1 : dict_get_default d1 c [] = dict_get_default d c [])
    by (rewrite D1; apply get_default_ensure).
  assert (S2 : positive_counts (flatten (dict_get_default d2 c [])) /\
               sum_counts (flatten (dict_get_default d2 c [])) =
               sum_counts (flatten (dict_get_default d c []))).
  { rewrite D2.
    destruct (dict_mem (dict_get_default d1 category []) src) eqn:M; simpl negb;
      cbv iota; [now rewrite G1|].
    rewrite get_default_set. destruct (value_eqb category c) eqn:E; [|now rewrite G1].
    apply value_eqb_eq in E. subst c. rewrite G1 in *. split.
    - apply positive_flatten_set; [exact P|constructor].
    - rewrite sum_flatten_set, (get_default_absent _ _ _ M). simpl. lia. }
  destruct S2 as [P2 T2].
  split; [rewrite G1; split; [exact P|destruct (value_eqb category c); lia]|].
  split; [split; [exact P2|destruct (value_eqb category c); lia]|].
  rewrite D3, get_default_set.
  destruct (value_eqb category c) eqn:E; [|split; [exact P2|lia]].
  apply value_eqb_eq in E. subst c. split.
  - apply positive_flatten_set; [exact P2|].
    apply positive_incr. now apply positive_flatten_get.
  - rewrite sum_flatten_set, sum_counts_incr. lia.
Qed.

End CategoryInner.

Lemma count_blocked_category_bounds catdesc srcip blocked_site a c :
  let category := match catdesc with
                  | Some c => if truthy c then c else VStr "Other"
                  | None => VStr "Other"
                  end in
  let inner a := flatten (dict_get_default (blocked_categories_detail (stats a)) c []) in
  positive_counts (inner a) ->
  positive_counts (inner (snd (count_blocked_category catdesc srcip blocked_site a))) /\
  sum_counts (inner (snd (count_blocked_category catdesc srcip blocked_site a))) <=
    sum_counts (inner a) + (if value_eqb category c then 1 else 0).
Proof.
  cbv beta zeta. intros P. rewrite count_blocked_category_detail. cbv zeta.
  destruct (counted srcip) as [|src ?];
    [|destruct (counted blocked_site) as [|site ?]].
  - exact (proj1 (category_steps_bounds _ _ _ _ _ (VInt 0) (VInt 0)
                    eq_refl eq_refl eq_refl c P)).
  - exact (proj1 (proj2 (category_steps_bounds _ _ _ _ _ src (VInt 0)
                           eq_refl eq_refl eq_refl c P))).
  - exact (proj2 (proj2 (category_steps_bounds _ _ _ _ _ src site
                           eq_refl eq_refl eq_refl c P))).
Qed.

Lemma after_add_category_bounds a log c :
  let inner a := flatten (dict_get_default (blocked_categories_detail (stats a)) c []) in
  positive_counts (inner a) ->
  positive_counts (inner (after_add a log)) /\
  sum_counts (inner (after_add a log)) <=
    sum_counts (inner a) + (if is_key c (blocked_category_of log) then 1 else 0).
Proof.
  cbv beta zeta. intros P. unfold blocked_category_of.
  frame_late (fun a => blocked_categories_detail (stats a)) a log a4 E.
  destruct (raises log) eqn:Rs.
  - rewrite (raises_not_filed log Rs). cbv iota. split; [exact P|].
    rewrite is_key_nil. lia.
  - destruct (raises_cases log Rs) as [Pr I]. rewrite I, andb_true_r.
    pose proof (hostname_names_site_result log) as R. rewrite I in R.
    destruct R as [b Hb]. rewrite (count_blocked_run log a4 b Pr Hb).
    destruct (blocked_utm log);
      [|simpl; rewrite E; split; [exact P|lia]].
    simpl when.
    assert (K : keeps (fun a => blocked_categories_detail (stats a))
                  (match py_or (dict_get log "hostname") (dict_get log "dstip") with
                   | Some site => when (truthy site)
                                    (count_blocked_site site (dict_get log "srcip"))
                   | None => ret tt
                   end)).
    { destruct (py_or _ _); [|apply keeps_ret].
      apply keeps_when. now apply count_blocked_site_keeps. }
    assert (Rt : returns
                  (match py_or (dict_get log "hostname") (dict_get log "dstip") with
                   | Some site => when (truthy site)
                                    (count_blocked_site site (dict_get log "srcip"))
                   | None => ret tt
                   end)).
    { destruct (py_or _ _); [|apply returns_ret].
      apply returns_when, count_blocked_site_returns. }
    rewrite snd_bind_returns by exact Rt.
    revert K. generalize (match py_or (dict_get log "hostname") (dict_get log "dstip") with
                   | Some site => when (truthy site)
                                    (count_blocked_site site (dict_get log "srcip"))
                   | None => ret tt
                   end). intros m K. specialize (K a4). simpl in K.
    assert (P4 : positive_counts
                   (flatten (dict_get_default
                               (blocked_categories_detail (stats (snd (m a4)))) c [])))
      by (rewrite K, E; exact P).
    unfold category_of.
    destruct (value_eqb _ _ || truthy_opt _); simpl when.
    + pose proof (count_blocked_category_bounds (dict_get log "catdesc")
                    (dict_get log "srcip")
                    (py_or (dict_get log "hostname") (dict_get log "dstip"))
                    (snd (m a4)) c) as B.
      cbv beta zeta in B. destruct (B P4) as [P' S']. split; [exact P'|].
      rewrite K, E in S'.
      destruct (dict_get log "catdesc") as [c0|]; [destruct (truthy c0)|];
        rewrite is_key_one; exact S'.
    + unfold ret. cbn [snd]. rewrite K, E. split; [exact P|rewrite is_key_nil; lia].
Qed.

Lemma after_add_category_count a log c :
  dict_get_default (blocked_categories (stats (after_add a log))) c 0 =
  dict_get_default (blocked_categories (stats a)) c 0 +
  (if is_key c (blocked_category_of log) then 1 else 0).
Proof.
  rewrite after_add_categories. fold (blocked_category_of log).
  rewrite get_default_count_keys. f_equal.
  apply occurrences_is_key, length_blocked_category_of.
Qed.

Lemma ingest_category_sources C logs c :
  let s := stats (ingest (init C) logs) in
  positive_counts (flatten (dict_get_default (blocked_categories_detail s) c [])) /\
  sum_counts (flatten (dict_get_default (blocked_categories_detail s) c [])) <=
    dict_get_default (blocked_categories s) c 0.
Proof.
  cbv zeta.
  apply (ingest_invariant
           (fun a => positive_counts
                       (flatten (dict_get_default
                                   (blocked_categories_detail (stats a)) c [])) /\
                     sum_counts
                       (flatten (dict_get_default
                                   (blocked_categories_detail (stats a)) c []))
                       <= dict_get_default (blocked_categories (stats a)) c 0)).
  - clear. intros a log [P S].
    pose proof (after_add_category_bounds a log c) as B. cbv beta zeta in B.
    destruct (B P) as [P' S']. split; [exact P'|].
    rewrite after_add_category_count. lia.
  - unfold dict_get_default. simpl. split; [apply Forall_nil|lia].
Qed.

(** X17.  The drill-down of a blocked category in the snapshot after a run:
    the counts of the source and site pairs listed under a category are at
    least one each and add up to at most the count of the category. *)
Theorem category_sources_within_count (C : Z) (logs : list record) :
  let v := get_stats (ingest (init C) logs) in
  forall e, In e (top_blocked_categories_detail v) ->
    Forall (fun sc => 1 <= snd sc) (category_sources e) /\
    sum_counts (category_sources e) <= category_count e.
Proof.
  cbv zeta. unfold get_stats. cbv zeta. simpl. intros e I.
  apply in_map_iff in I. destruct I as [[k c] [<- I]].
  unfold category_detail. cbv zeta. simpl.
  destruct (ingest_category_sources C logs k) as [P S]. cbv zeta in P, S.
  apply top10_In in I.
  assert (N : NoDup (dict_keys (blocked_categories (stats (ingest (init C) logs))))).
  { rewrite (ingest_count_keys (fun a => blocked_categories (stats a)) _
               after_add_categories).
    apply no_dup_count_keys. constructor. }
  rewrite (no_dup_lookup _ k c N I) in S.
  pose proof (TopFacts.sorted_desc_perm snd
                (flatten (dict_get_default
                   (blocked_categories_detail (stats (ingest (init C) logs))) k []))) as Pm.
  pose proof (positive_perm _ _ Pm P) as P'.
  split.
  - unfold top10. apply Forall_forall. intros sc Isc.
    unfold positive_counts in P'. rewrite Forall_forall in P'. apply P'.
    rewrite <- (firstn_skipn 10 (sorted_desc snd _)). apply in_or_app. now left.
  - unfold top10. pose proof (sum_counts_firstn 10 _ P') as L.
    rewrite <- (sum_counts_perm _ _ Pm) in L. lia.
Qed.

Lemma category_sources_within_count_witness :
  let logs := [[("type", VStr "utm"); ("subtype", VStr "webfilter");
                ("action", VStr "blocked"); ("srcip", VStr "10.0.0.5");
                ("hostname", VStr "example.com"); ("catdesc", VStr "Gambling")];
               [("type", VStr "utm"); ("action", VStr "deny");
                ("catdesc", VStr "Gambling")]] in
  let e := mkCategory (VStr "Gambling") 2
             [(VStr "10.0.0.5", VStr "example.com", 1)] in
  In e (top_blocked_categories_detail (get_stats (ingest (init 1000) logs))) /\
  sum_counts (category_sources e) <= category_count e.
Proof.
  cbv zeta. split; [vm_compute; left; reflexivity|].
  apply (category_sources_within_count 1000
           [[("type", VStr "utm"); ("subtype", VStr "webfilter");
             ("action", VStr "blocked"); ("srcip", VStr "10.0.0.5");
             ("hostname", VStr "example.com"); ("catdesc", VStr "Gambling")];
            [("type", VStr "utm"); ("action", VStr "deny");
             ("catdesc", VStr "Gambling")]]).
  vm_compute. left. reflexivity.
Defined.

End AggregatorMore.

(** ** More on the parser and the datagram handler *)

Module ParserMore.
Import PyText Collector ParserSpec ParserFacts Ingestor.

Lemma mem_set (d : record) k v k' :
  dict_mem (dict_set d k v) k' = String.eqb k k' || dict_mem d k'.
Proof.
  unfold dict_mem. destruct (String.eqb k k') eqn:E.
  - apply String.eqb_eq in E. subst. now rewrite dict_get_set_same.
  - rewrite dict_get_set_other; [reflexivity|].
    intros ->. rewrite String.eqb_refl in E. discriminate.
Qed.

Lemma get_set (d : record) k v k' :
  dict_get (dict_set d k v) k' = if String.eqb k k' then Some v else dict_get d k'.
Proof.
  destruct (String.eqb k k') eqn:E.
  - apply String.eqb_eq in E. subst. now rewrite dict_get_set_same.
  - rewrite dict_get_set_other; [reflexivity|].
    intros ->. rewrite String.eqb_refl in E. discriminate.
Qed.

(** The fields after the loop: those before it and the keys matched. *)
Lemma store_tokens_mem matches parsed parsed' key :
  store_tokens matches parsed = Ok parsed' ->
  dict_mem parsed' key = true <->
  dict_mem parsed key = true \/ exists q u, In (key, q, u) matches.
Proof.
  revert parsed. induction matches as [|[[k q] u] rest IH]; intros parsed H; simpl in H.
  - injection H as <-. split; [now left|]. intros [M|[q [u []]]]. exact M.
  - destruct (token_value q u) as [v|e]; [|discriminate].
    rewrite (IH _ H), mem_set. split.
    + intros [M|[q' [u' I]]].
      * apply orb_prop in M. destruct M as [E|M]; [|now left].
        apply String.eqb_eq in E. subst. right. exists q, u. now left.
      * right. exists q', u'. now right.
    + intros [M|[q' [u' [E|I]]]].
      * left. rewrite M. apply orb_true_r.
      * injection E as -> _ _. left. now rewrite String.eqb_refl.
      * right. now exists q', u'.
Qed.

Lemma categorize_set log v :
  _categorize_log (dict_set log "log_category" v) = _categorize_log log.
Proof.
  unfold _categorize_log, dict_get_default.
  rewrite !dict_get_set_other by discriminate. reflexivity.
Qed.

Lemma initial_mem raw now key :
  dict_mem [("raw", VStr raw); ("received_at", VStr now)] key =
  String.eqb "raw" key || String.eqb "received_at" key.
Proof.
  unfold dict_mem. cbn [dict_get].
  change (keyb "raw" key) with (String.eqb "raw" key).
  change (keyb "received_at" key) with (String.eqb "received_at" key).
  destruct (String.eqb "raw" key), (String.eqb "received_at" key); reflexivity.
Qed.

Lemma stamped_get (parsed stamped : record) :
  stamped = match dict_get parsed "date", dict_get parsed "time" with
            | Some d, Some t =>
                dict_set parsed "timestamp"
                  (VStr (value_text d ++ "T" ++ value_text t))
            | _, _ => parsed
            end ->
  forall k, k <> "timestamp" -> dict_get stamped k = dict_get parsed k.
Proof.
  intros -> k N.
  destruct (dict_get parsed "date"), (dict_get parsed "time"); try reflexivity.
  rewrite get_set. destruct (String.eqb_spec "timestamp" k); [congruence|reflexivity].
Qed.

Lemma parse_timestamp now raw log d t :
  parse_fortigate_log now raw = Ok log ->
  dict_get log "date" = Some d -> dict_get log "time" = Some t ->
  dict_get log "timestamp" = Some (VStr (value_text d ++ "T" ++ value_text t)).
Proof.
  intros H.
  destruct (parse_shape now raw log H) as [parsed [stamped [category [S [St [_ ->]]]]]].
  rewrite !get_set. simpl String.eqb. cbv iota.
  rewrite !(stamped_get parsed stamped St) by discriminate.
  intros D T. subst stamped. rewrite D, T. apply dict_get_set_same.
Qed.

(** [str] returns on every value of a record the parser returns. *)
Lemma parse_printable now raw log :
  parse_fortigate_log now raw = Ok log -> printable log.
Proof.
  intros H.
  destruct (parse_shape now raw log H) as [parsed [stamped [category [S [St [_ ->]]]]]].
  pose proof (store_tokens_printable _ _ _ S (printable_initial raw now)) as P.
  apply printable_set; [|reflexivity]. subst stamped.
  destruct (dict_get parsed "date") as [d|]; [|exact P].
  destruct (dict_get parsed "time") as [t|]; [|exact P].
  now apply printable_set.
Qed.

Lemma py_str_printable (d : record) k v :
  printable d -> dict_get d k = Some v -> py_str v = Ok (value_text v).
Proof. intros P E. now rewrite AggregatorFacts.py_str_cases, (P k v E). Qed.

(** X18.  The two fields the parser derives.  [log_category] is always the
    category [_categorize_log] gives for the record returned, whatever a
    token of that name said.  [timestamp] is the date, a [T] and the time, in
    the text [str] returns for the stored values, when the record has both;
    otherwise it is what a token named [timestamp] gave, and absent without
    such a token. *)
Theorem derived_fields (now raw : string) (log : record) :
  parse_fortigate_log now raw = Ok log ->
  (exists category,
     _categorize_log log = Ok category /\
     dict_get log "log_category" = Some (VStr category)) /\
  match dict_get log "date", dict_get log "time" with
  | Some d, Some t =>
      py_str d = Ok (value_text d) /\ py_str t = Ok (value_text t) /\
      dict_get log "timestamp" = Some (VStr (value_text d ++ "T" ++ value_text t))
  | _, _ =>
      match last_token "timestamp" (findall raw) with
      | Some (q, u) =>
          exists x, token_value q u = Ok x /\ dict_get log "timestamp" = Some x
      | None => dict_get log "timestamp" = None
      end
  end.
Proof.
  intros H. pose proof (parse_printable now raw log H) as Pl.
  pose proof (fun d t => parse_timestamp now raw log d t H) as Ts.
  destruct (parse_shape now raw log H) as [parsed [stamped [category [S [St [Ct ->]]]]]].
  split.
  - exists category. now rewrite categorize_set, dict_get_set_same.
  - destruct (dict_get (dict_set stamped "log_category" (VStr category)) "date")
      as [d|] eqn:D;
      [destruct (dict_get (dict_set stamped "log_category" (VStr category)) "time")
         as [t|] eqn:T|].
    + split; [exact (py_str_printable _ _ _ Pl D)|].
      split; [exact (py_str_printable _ _ _ Pl T)|]. now apply Ts.
    + rewrite !get_set in *. simpl String.eqb in *. cbv iota in *.
      rewrite !(stamped_get parsed stamped St) in * by discriminate.
      pose proof (store_tokens_get _ _ _ "timestamp" S) as G.
      subst stamped. rewrite D, T.
      destruct (last_token "timestamp" (findall raw)) as [[q u]|]; exact G.
    + rewrite !get_set in *. simpl String.eqb in *. cbv iota in *.
      rewrite !(stamped_get parsed stamped St) in * by discriminate.
      pose proof (store_tokens_get _ _ _ "timestamp" S) as G.
      subst stamped. rewrite D.
      destruct (last_token "timestamp" (findall raw)) as [[q u]|]; exact G.
Qed.

Lemma derived_fields_witness :
  exists log,
    parse_fortigate_log "2026-01-22T08:00:00"
      "date=2026-01-22 time=0830 log_category=mine type=utm subtype=ips" = Ok log /\
    dict_get log "log_category" = Some (VStr "security_ips") /\
    dict_get log "timestamp" = Some (VStr "2026-01-22T830").
Proof.
  eexists. split; [reflexivity|].
  match goal with
  | |- dict_get ?l _ = _ /\ _ =>
      pose proof (derived_fields "2026-01-22T08:00:00"
        "date=2026-01-22 time=0830 log_category=mine type=utm subtype=ips" l eq_refl) as D
  end.
  destruct D as [_ T]. lazy in T. destruct T as [_ [_ T]].
  split; [reflexivity|exact T].
Defined.

(** X19.  The fields of the record returned: [raw], [received_at] and
    [log_category], the keys of the tokens of the line, and [timestamp] when
    the record has a date and a time; no others.  [raw] is the line and
    [received_at] the time of the call unless a token of that name replaced
    them. *)
Theorem record_fields (now raw : string) (log : record) :
  parse_fortigate_log now raw = Ok log ->
  (forall key,
     dict_mem log key = true <->
     key = "raw" \/ key = "received_at" \/ key = "log_category" \/
     (exists q u, In (key, q, u) (findall raw)) \/
     (key = "timestamp" /\ dict_mem log "date" = true /\ dict_mem log "time" = true)) /\
  (last_token "raw" (findall raw) = None -> dict_get log "raw" = Some (VStr raw)) /\
  (last_token "received_at" (findall raw) = None ->
     dict_get log "received_at" = Some (VStr now)).
Proof.
  intros H.
  destruct (parse_shape now raw log H) as [parsed [stamped [category [S [St [_ ->]]]]]].
  pose proof (stamped_get parsed stamped St) as D.
  assert (Dm : forall k, k <> "timestamp" -> dict_mem stamped k = dict_mem parsed k).
  { intros k N. unfold dict_mem. now rewrite D. }
  assert (Tm : dict_mem stamped "timestamp" = true <->
               dict_mem parsed "timestamp" = true \/
               (dict_mem parsed "date" = true /\ dict_mem parsed "time" = true)).
  { subst stamped. unfold dict_mem at 3 4.
    destruct (dict_get parsed "date"), (dict_get parsed "time");
      try (rewrite mem_set; simpl); intuition discriminate. }
  split; [|split].
  - intros key. rewrite mem_set.
    assert (Ed : dict_mem (dict_set stamped "log_category" (VStr category)) "date" =
                 dict_mem parsed "date")
      by (rewrite mem_set; simpl; apply Dm; discriminate).
    assert (Et : dict_mem (dict_set stamped "log_category" (VStr category)) "time" =
                 dict_mem parsed "time")
      by (rewrite mem_set; simpl; apply Dm; discriminate).
    rewrite Ed, Et.
    pose proof (store_tokens_mem _ _ _ key S) as M.
    pose proof (store_tokens_mem _ _ _ "timestamp" S) as Mt.
    rewrite initial_mem in M, Mt. simpl in Mt.
    destruct (String.eqb_spec "log_category" key) as [<-|NL]; simpl orb.
    { split; auto. }
    destruct (String.eqb_spec key "timestamp") as [->|NT].
    + rewrite Tm, Mt. intuition discriminate.
    + rewrite Dm, M by exact NT.
      destruct (String.eqb_spec "raw" key) as [<-|NR]; [split; auto|].
      destruct (String.eqb_spec "received_at" key) as [<-|NA]; [split; auto|].
      simpl orb. intuition (discriminate || congruence).
  - intros N. rewrite get_set. simpl. rewrite D by discriminate.
    pose proof (store_tokens_get _ _ _ "raw" S) as G. rewrite N in G. exact G.
  - intros N. rewrite get_set. simpl. rewrite D by discriminate.
    pose proof (store_tokens_get _ _ _ "received_at" S) as G. rewrite N in G. exact G.
Qed.

Lemma record_fields_witness :
  exists log,
    parse_fortigate_log "2026-01-22T08:00:00" "srcip=10.0.0.5 raw=mine" = Ok log /\
    dict_mem log "srcip" = true /\ dict_mem log "timestamp" = false /\
    dict_get log "raw" = Some (VStr "mine") /\
    dict_get log "received_at" = Some (VStr "2026-01-22T08:00:00").
Proof.
  eexists. split; [reflexivity|].
  match goal with
  | |- dict_mem ?l _ = _ /\ _ =>
      pose proof (record_fields "2026-01-22T08:00:00" "srcip=10.0.0.5 raw=mine"
                    l eq_refl) as D
  end.
  destruct D as [M [_ R]].
  split; [|split; [reflexivity|split; [reflexivity|]]].
  - apply M. right. right. right. left. exists "", "10.0.0.5". simpl. auto.
  - apply R. reflexivity.
Defined.


(** *** Texts: [strip] and slices *)

Lemma append_assoc (a b c : string) : ((a ++ b) ++ c)%string = (a ++ (b ++ c))%string.
Proof. induction a as [|x a IH]; simpl; [reflexivity|now rewrite IH]. Qed.

Lemma rev_acc_app s acc : rev_acc s acc = (rev s ++ acc)%string.
Proof.
  unfold rev. revert acc. induction s as [|c s IH]; intros acc; simpl; [reflexivity|].
  rewrite IH, (IH (String c EmptyString)), append_assoc. reflexivity.
Qed.

Lemma rev_app a b : rev (a ++ b) = (rev b ++ rev a)%string.
Proof.
  induction a as [|c a IH]; simpl.
  - now rewrite append_empty.
  - unfold rev at 1 3. simpl. rewrite !rev_acc_app, IH, append_assoc. reflexivity.
Qed.

Lemma rev_cons c s : rev (String c s) = (rev s ++ String c EmptyString)%string.
Proof. unfold rev at 1. simpl. apply rev_acc_app. Qed.

(** Dropping a leading run does not reach into what follows a character
    outside the run. *)
Lemma span_app_stop p a c b :
  p c = false ->
  snd (span p (a ++ String c b)) = (snd (span p a) ++ String c b)%string.
Proof.
  intros N. induction a as [|x a IH]; simpl.
  - now rewrite N.
  - destruct (p x); [|reflexivity].
    destruct (span p (a ++ String c b)), (span p a). exact IH.
Qed.

Lemma span_parts p s : s = (fst (span p s) ++ snd (span p s))%string.
Proof.
  induction s as [|c s IH]; simpl; [reflexivity|].
  destruct (p c); [|reflexivity]. destruct (span p s). simpl in *. now rewrite <- IH.
Qed.

Lemma span_fst_all p s : all_chars p (fst (span p s)) = true.
Proof.
  induction s as [|c s IH]; simpl; [reflexivity|].
  destruct (p c) eqn:E; [|reflexivity]. destruct (span p s). simpl in *. now rewrite E.
Qed.

Lemma span_snd_head p s :
  snd (span p s) = EmptyString \/
  exists c r, snd (span p s) = String c r /\ p c = false.
Proof.
  induction s as [|c s IH]; simpl; [now left|].
  destruct (p c) eqn:E.
  - destruct (span p s). exact IH.
  - right. now exists c, s.
Qed.

Lemma span_all p a : all_chars p a = true -> snd (span p a) = EmptyString.
Proof.
  induction a as [|c a IH]; simpl; [reflexivity|]. intros H.
  apply andb_prop in H. destruct H as [-> H]. specialize (IH H).
  destruct (span p a). exact IH.
Qed.

Lemma span_all_app p a b :
  all_chars p a = true -> snd (span p (a ++ b)) = snd (span p b).
Proof.
  induction a as [|c a IH]; simpl; [reflexivity|]. intros H.
  apply andb_prop in H. destruct H as [-> H]. specialize (IH H).
  destruct (span p (a ++ b)). exact IH.
Qed.

Lemma span_snd_idem p s : snd (span p (snd (span p s))) = snd (span p s).
Proof.
  destruct (span_snd_head p s) as [->|[c [r [-> N]]]]; [reflexivity|].
  simpl. now rewrite N.
Qed.

(** [s.rstrip()], the second half of [strip]. *)
Lemma strip_rstrip s : strip s = rev (snd (span is_space (rev (snd (span is_space s))))).
Proof. reflexivity. Qed.

Lemma rstrip_stop c s :
  is_space c = false ->
  rev (snd (span is_space (rev (String c s)))) =
  String c (rev (snd (span is_space (rev s)))).
Proof.
  intros N. rewrite rev_cons, span_app_stop by exact N.
  rewrite rev_app. reflexivity.
Qed.

Lemma rstrip_idem s :
  rev (snd (span is_space (rev (rev (snd (span is_space (rev s))))))) =
  rev (snd (span is_space (rev s))).
Proof. now rewrite rev_involutive, span_snd_idem. Qed.

Lemma rstrip_after_spaces sp c r :
  is_space c = false ->
  rev (snd (span is_space (rev (sp ++ String c r)))) =
  (sp ++ String c (rev (snd (span is_space (rev r)))))%string.
Proof.
  intros N. rewrite rev_app, rev_cons, append_assoc.
  change (String c EmptyString ++ rev sp)%string with (String c (rev sp)).
  rewrite span_app_stop by exact N.
  rewrite rev_app, rev_cons, rev_involutive, append_assoc. reflexivity.
Qed.

(** Stripping the right end first changes nothing. *)
Lemma strip_after_rstrip s :
  strip (rev (snd (span is_space (rev s)))) = strip s.
Proof.
  rewrite !strip_rstrip.
  pose proof (span_fst_all is_space s) as A.
  pose proof (span_parts is_space s) as P.
  destruct (span_snd_head is_space s) as [E|[c [r [E N]]]]; rewrite E in P |- *.
  - rewrite append_empty in P. rewrite <- P in A.
    assert (R : all_chars is_space (rev s) = true).
    { unfold rev. rewrite all_chars_rev_acc, A. reflexivity. }
    rewrite (span_all _ _ R). reflexivity.
  - rewrite P at 1. rewrite rstrip_after_spaces by exact N.
    rewrite span_all_app by exact A.
    rewrite span_none by exact N. simpl snd.
    rewrite !rstrip_stop by exact N. now rewrite rstrip_idem.
Qed.

Lemma find_char_after c a b :
  all_chars (fun x => negb (Ascii.eqb x c)) a = true ->
  find_char c (a ++ String c b) = Z.of_nat (String.length a).
Proof.
  induction a as [|x a IH]; intros H.
  - simpl. now rewrite Ascii.eqb_refl.
  - simpl in H. apply andb_prop in H. destruct H as [N H].
    simpl append. cbn [find_char]. destruct (Ascii.eqb x c); [discriminate|].
    rewrite IH by exact H. cbn [String.length].
    destruct (Z.ltb_spec (Z.of_nat (String.length a)) 0); lia.
Qed.

Lemma drop_app a b : drop (String.length a) (a ++ b) = b.
Proof. induction a as [|x a IH]; simpl; [now destruct b|exact IH]. Qed.

Lemma string_length_app a b :
  String.length (a ++ b) = (String.length a + String.length b)%nat.
Proof. induction a as [|x a IH]; simpl; [reflexivity|now rewrite IH]. Qed.

(** X20.  A datagram that opens with a priority in angle brackets is parsed
    without it: what follows the first closing bracket, stripped of
    surrounding white space, goes to the parser, and the sender address is
    stored as [source_ip]. *)
Theorem priority_prefix_removed (now pri body addr : string) :
  all_chars (fun c => negb (Ascii.eqb c ">")) pri = true ->
  payload ("<" ++ pri ++ ">" ++ body) = strip body /\
  datagram_received now ("<" ++ pri ++ ">" ++ body) addr =
    match parse_fortigate_log now (strip body) with
    | Ok log => Some (dict_set log "source_ip" (VStr addr))
    | Raise _ => None
    end.
Proof.
  intros P.
  assert (E : payload ("<" ++ pri ++ ">" ++ body) = strip body).
  { unfold payload. cbv zeta.
    assert (R : strip ("<" ++ pri ++ ">" ++ body) =
                (String "<" pri ++
                 String ">" (rev (snd (span is_space (rev body)))))%string).
    { rewrite strip_rstrip.
      change ("<" ++ pri ++ ">" ++ body)%string
        with (String "<" (pri ++ String ">" body)).
      rewrite span_none by reflexivity. simpl snd.
      change (String "<" (pri ++ String ">" body))
        with (String "<" pri ++ String ">" body)%string.
      rewrite rev_app, rev_cons, append_assoc.
      change (String ">" EmptyString ++ ?x)%string with (String ">" x).
      rewrite span_app_stop by reflexivity.
      rewrite rev_app, rev_cons, rev_involutive, append_assoc. reflexivity. }
    rewrite R. simpl starts_with_bracket. cbv iota.
    change (String "<" pri ++ String ">" ?x)%string
      with (String "<" pri ++ String ">" x)%string.
    assert (F : find_char ">" (String "<" pri ++
                  String ">" (rev (snd (span is_space (rev body)))))%string =
                Z.of_nat (String.length (String "<" pri))).
    { apply find_char_after. simpl. exact P. }
    rewrite F.
    assert (G : (Z.of_nat (String.length (String "<" pri)) >? 0) = true).
    { apply Z.gtb_lt. simpl String.length. lia. }
    rewrite G. unfold text_from.
    destruct (Z.ltb_spec (Z.of_nat (String.length (String "<" pri)) + 1) 0); [lia|].
    rewrite string_length_app. 
    replace (Z.to_nat (Z.min (Z.of_nat (String.length (String "<" pri)) + 1) _))
      with (String.length (String "<" pri ++ ">")%string)
      by (rewrite string_length_app; simpl String.length; lia).
    replace (String "<" pri ++ String ">" (rev (snd (span is_space (rev body)))))%string
      with ((String "<" pri ++ ">") ++ rev (snd (span is_space (rev body))))%string
      by (rewrite append_assoc; reflexivity).
    rewrite drop_app. apply strip_after_rstrip. }
  split; [exact E|]. unfold datagram_received. now rewrite E.
Qed.

Lemma priority_prefix_removed_witness :
  all_chars (fun c => negb (Ascii.eqb c ">")) "134" = true /\
  payload "<134>date=2026-01-22 action=deny " = "date=2026-01-22 action=deny".
Proof.
  split; [reflexivity|].
  exact (proj1 (priority_prefix_removed "" "134" "date=2026-01-22 action=deny " ""
                  eq_refl)).
Defined.


Lemma strip_idem s : strip (strip s) = strip s.
Proof.
  rewrite (strip_rstrip s), strip_after_rstrip, strip_rstrip.
  now rewrite span_snd_idem.
Qed.

Lemma all_chars_rev P s : all_chars P s = true -> all_chars P (rev s) = true.
Proof. intros H. unfold rev. rewrite all_chars_rev_acc, H. reflexivity. Qed.

Lemma all_chars_strip P s : all_chars P s = true -> all_chars P (strip s) = true.
Proof.
  intros H. unfold strip.
  apply all_chars_rev, all_chars_span, all_chars_rev, all_chars_span, H.
Qed.

Lemma all_chars_drop P n s : all_chars P s = true -> all_chars P (drop n s) = true.
Proof.
  revert s. induction n as [|n IH]; intros s H; [exact H|].
  destruct s as [|c s]; [reflexivity|]. simpl in *.
  apply andb_prop in H. now apply IH.
Qed.

Lemma all_chars_payload P text :
  all_chars P text = true -> all_chars P (payload text) = true.
Proof.
  intros H. unfold payload. cbv zeta.
  destruct (starts_with_bracket _); [|now apply all_chars_strip].
  destruct (_ >? 0); [|now apply all_chars_strip].
  apply all_chars_strip, all_chars_drop, all_chars_strip, H.
Qed.

Lemma length_rev_acc s acc :
  String.length (rev_acc s acc) = (String.length s + String.length acc)%nat.
Proof.
  revert acc. induction s as [|c s IH]; intros acc; simpl; [reflexivity|].
  rewrite IH. simpl. lia.
Qed.

Lemma length_rev s : String.length (rev s) = String.length s.
Proof. unfold rev. rewrite length_rev_acc. simpl. lia. Qed.

Lemma length_strip s : (String.length (strip s) <= String.length s)%nat.
Proof.
  unfold strip. rewrite length_rev.
  pose proof (length_span is_space s) as [_ L1].
  pose proof (length_span is_space (rev (snd (span is_space s)))) as [_ L2].
  rewrite length_rev in L2. lia.
Qed.

Lemma length_drop n s : (String.length (drop n s) <= String.length s)%nat.
Proof.
  revert s. induction n as [|n IH]; intros s; [simpl; lia|].
  destruct s as [|c s]; [simpl; lia|]. simpl. specialize (IH s). lia.
Qed.

(** What goes to the parser is no longer than the datagram. *)
Lemma length_payload text : (String.length (payload text) <= String.length text)%nat.
Proof.
  unfold payload. cbv zeta.
  pose proof (length_strip text) as L.
  destruct (starts_with_bracket _); [|exact L].
  destruct (_ >? 0); [|exact L].
  unfold text_from.
  match goal with
  | |- (String.length (strip (drop ?n ?s)) <= _)%nat =>
      pose proof (length_strip (drop n s)); pose proof (length_drop n s)
  end.
  lia.
Qed.

(** X21.  What [datagram_received] passes on.  The text given to the parser
    has no white space at either end; the datagram is dropped exactly when
    the parser raises on that text, which it does not on a datagram of ASCII
    text of at most 4300 characters; and in every record passed on
    [source_ip] is the address of the sender, whatever a token of that name
    said. *)
Theorem datagram_delivered (now text addr : string) :
  strip (payload text) = payload text /\
  (datagram_received now text addr = None <->
   exists e, parse_fortigate_log now (payload text) = Raise e) /\
  (is_ascii text = true -> Z.of_nat (String.length text) <= 4300 ->
     exists log, datagram_received now text addr = Some log) /\
  (forall log, datagram_received now text addr = Some log ->
     dict_get log "source_ip" = Some (VStr addr)).
Proof.
  split; [|split; [|split]].
  - unfold payload. cbv zeta.
    destruct (starts_with_bracket _); [|apply strip_idem].
    destruct (_ >? 0); apply strip_idem.
  - unfold datagram_received.
    destruct (parse_fortigate_log now (payload text)) as [l|e]; split;
      try discriminate; eauto.
    intros [e' H]. discriminate H.
  - intros A L. unfold datagram_received.
    destruct (parse_ascii now (payload text)) as [log ->]; [| |eauto].
    + now apply all_chars_payload.
    + pose proof (length_payload text). lia.
  - unfold datagram_received. intros log.
    destruct (parse_fortigate_log now (payload text)) as [l|e]; [|discriminate].
    intros H. injection H as <-. apply dict_get_set_same.
Qed.

(** A datagram that carries a number of 4301 digits is dropped. *)
Example long_number_is_dropped :
  is_ascii ("<134>x=" ++ nines 4301) = true /\
  datagram_received "2026-01-22T08:00:00" ("<134>x=" ++ nines 4301) "192.0.2.1" = None.
Proof. vm_compute. split; reflexivity. Qed.


(** *** The tokens of a line *)

Lemma is_empty_false s : is_empty s = false -> s <> EmptyString.
Proof. now destruct s. Qed.

Lemma match_at_shape s k q u len :
  match_at s = Some (k, q, u, len) ->
  k <> EmptyString /\ all_chars is_word k = true /\
  ((u = EmptyString /\ all_chars (fun x => negb (is_quote x)) q = true) \/
   (q = EmptyString /\ u <> EmptyString /\
    all_chars (fun x => negb (is_space x)) u = true)).
Proof.
  unfold match_at.
  pose proof (span_fst_all is_word s) as Ak.
  destruct (span is_word s) as [key r1]. simpl in Ak.
  destruct (is_empty key) eqn:Ek; [discriminate|].
  destruct r1 as [|c r2]; [discriminate|].
  destruct (Ascii.eqb c "="); [|discriminate].
  destruct (match_quoted r2) as [q'|] eqn:Q.
  - intros E. inversion E. subst. clear E.
    split; [now apply is_empty_false|]. split; [exact Ak|]. left. split; [reflexivity|].
    unfold match_quoted in Q. destruct r2 as [|d r3]; [discriminate|].
    destruct (is_quote d); [|discriminate].
    pose proof (span_fst_all (fun x => negb (is_quote x)) r3) as Aq.
    destruct (span _ r3) as [q0 rest]. destruct rest; [discriminate|].
    inversion Q. now subst.
  - pose proof (span_fst_all (fun x => negb (is_space x)) r2) as Au.
    destruct (span _ r2) as [u' rest]. destruct (is_empty u') eqn:Eu; [discriminate|].
    intros E. inversion E. subst.
    split; [now apply is_empty_false|]. split; [exact Ak|]. right.
    split; [reflexivity|]. split; [now apply is_empty_false|exact Au].
Qed.

Lemma findall_from_match skip s k q u :
  In (k, q, u) (findall_from skip s) ->
  exists s' len, match_at s' = Some (k, q, u, len).
Proof.
  revert skip. induction s as [|c s IH]; intros skip Hin; [destruct Hin|].
  rewrite findall_from_step in Hin.
  destruct skip as [|n]; [|now apply (IH n)].
  destruct (match_at (String c s)) as [[[[k' q'] u'] len]|] eqn:M;
    [|now apply (IH 0%nat)].
  destruct Hin as [E|Hin]; [|now apply (IH (Nat.pred len))].
  inversion E. subst. now exists (String c s), len.
Qed.

(** X22.  The tokens [parse_fortigate_log] reads from a line.  The key of
    every token is a non-empty run of word characters.  A token is either
    quoted, and then its value contains no double quote (it may be empty and
    may contain white space), or unquoted, and then its value is not empty and
    contains no white space. *)
Theorem token_shape (raw key quoted_val unquoted_val : string) :
  In (key, quoted_val, unquoted_val) (findall raw) ->
  key <> EmptyString /\ all_chars is_word key = true /\
  ((unquoted_val = EmptyString /\
    all_chars (fun x => negb (is_quote x)) quoted_val = true) \/
   (quoted_val = EmptyString /\ unquoted_val <> EmptyString /\
    all_chars (fun x => negb (is_space x)) unquoted_val = true)).
Proof.
  intros I. destruct (findall_from_match _ _ _ _ _ I) as [s' [len M]].
  exact (match_at_shape _ _ _ _ _ M).
Qed.

Lemma token_shape_witness :
  In ("msg", "link down", "") (findall ("msg=" ++ String "034" ("link down" ++ String "034" " port=3"))) /\
  all_chars is_word "msg" = true.
Proof.
  split; [left; reflexivity|].
  apply (token_shape ("msg=" ++ String "034" ("link down" ++ String "034" " port=3"))
           "msg" "link down" "").
  left. reflexivity.
Defined.

End ParserMore.

(** ** More on the viewer *)

Module ViewerMore.
Import WebSocketHook HookSpec TrafficMap LogTable ViewerSpec.

Section Live.
Variable clock : Type.
Variable time_key : record -> clock -> string.
Variable history_traffic : list record -> clock -> list bucket.

Lemma firstn_app_firstn {A} n m (l r : list A) :
  (n <= m)%nat -> firstn n (l ++ firstn m r) = firstn n (l ++ r).
Proof.
  revert n. induction l as [|x l IH]; intros n L.
  - simpl. rewrite firstn_firstn. f_equal. lia.
  - destruct n as [|n]; [reflexivity|].
    change (firstn (S n) ((x :: l) ++ firstn m r))
      with (x :: firstn n (l ++ firstn m r)).
    rewrite IH by lia. reflexivity.
Qed.

Lemma run_log_events h arrivals :
  isPaused h = false ->
  let h' := run clock time_key history_traffic h (log_events arrivals) in
  logs h' = match arrivals with
            | [] => logs h
            | _ => firstn 1000 (List.rev (map snd arrivals) ++ logs h)
            end /\
  total_logs (stats h') = total_logs (stats h) + Z.of_nat (length arrivals) /\
  allowed_count (stats h') =
    allowed_count (stats h) +
    Z.of_nat (length (filter (fun nl => isAllowed (snd nl)) arrivals)) /\
  blocked_count (stats h') =
    blocked_count (stats h) +
    Z.of_nat (length (filter (fun nl => isBlocked (snd nl)) arrivals)) /\
  isPaused h' = false.
Proof.
  revert h. induction arrivals as [|[now log] rest IH]; intros h P; cbv zeta.
  - simpl. repeat split; try lia; exact P.
  - change (run clock time_key history_traffic h (log_events ((now, log) :: rest)))
      with (run clock time_key history_traffic
              (onmessage clock time_key history_traffic now (MsgLog log) h)
              (log_events rest)).
    unfold onmessage. rewrite P. simpl negb. cbv iota.
    specialize (IH (log_branch clock time_key now log h) P). cbv zeta in IH.
    destruct IH as [L [T [Al [Bl Pa]]]].
    rewrite L, T, Al, Bl. unfold log_branch.
    cbn [logs stats total_logs allowed_count blocked_count].
    fold (isAllowed log). fold (isBlocked log).
    repeat split.
    + destruct rest as [|r rest]; [reflexivity|].
      rewrite firstn_app_firstn by lia.
      cbn [map snd List.rev]. now rewrite <- !app_assoc.
    + cbn [length]. lia.
    + cbn [filter snd]. unfold flag. destruct (isAllowed log); cbn [length]; lia.
    + cbn [filter snd]. unfold flag. destruct (isBlocked log); cbn [length]; lia.
    + exact Pa.
Qed.

(** X23.  While the hook is not paused, a run of [log] messages leaves in
    [logs] the newest 1000 of the records received and those held before,
    newest first; [total_logs] has grown by the number of records, and
    [allowed_count] and [blocked_count] by the number whose action is in the
    list of the viewer. *)
Theorem live_logs_window (h : hook) (arrivals : list (clock * record)) :
  isPaused h = false ->
  arrivals <> [] ->
  let h' := run clock time_key history_traffic h (log_events arrivals) in
  logs h' = firstn 1000 (List.rev (map snd arrivals) ++ logs h) /\
  total_logs (stats h') = total_logs (stats h) + Z.of_nat (length arrivals) /\
  allowed_count (stats h') =
    allowed_count (stats h) +
    Z.of_nat (length (filter (fun nl => isAllowed (snd nl)) arrivals)) /\
  blocked_count (stats h') =
    blocked_count (stats h) +
    Z.of_nat (length (filter (fun nl => isBlocked (snd nl)) arrivals)).
Proof.
  intros P N. cbv zeta.
  destruct (run_log_events h arrivals P) as [L [T [Al [Bl _]]]].
  destruct arrivals as [|a rest]; [contradiction|]. auto.
Qed.

Lemma last_n_length {A} n (l : list A) : (length (last_n n l) <= n)%nat.
Proof. unfold last_n. rewrite length_skipn. lia. Qed.

Lemma traffic_step_length key a b prev :
  (length prev <= 20)%nat -> (length (traffic_step key a b prev) <= 20)%nat.
Proof.
  intros L. unfold traffic_step.
  destruct (List.rev prev) as [|lastEntry before] eqn:E; [apply last_n_length|].
  destruct (String.eqb (time lastEntry) key); [|apply last_n_length].
  rewrite length_app, length_rev. simpl.
  assert (length prev = S (length before)).
  { rewrite <- (length_rev prev), E. reflexivity. }
  lia.
Qed.

(** X24.  The chart never holds more than twenty points: if the points
    built from the initial logs are at most twenty, as the slice in the [init]
    branch makes them, then [trafficOverTime] has at most twenty entries
    after any sequence of messages, pauses and clears. *)
Theorem chart_has_at_most_twenty_points (h : hook) (es : list (event clock)) :
  (forall initialLogs now, (length (history_traffic initialLogs now) <= 20)%nat) ->
  (length (trafficOverTime h) <= 20)%nat ->
  (length (trafficOverTime (run clock time_key history_traffic h es)) <= 20)%nat.
Proof.
  intros Hh. revert h. induction es as [|e es IH]; intros h L; [exact L|].
  change (run clock time_key history_traffic h (e :: es))
    with (run clock time_key history_traffic
            (step clock time_key history_traffic h e) es).
  apply IH. destruct e as [now [st lg tb tbc tbd tbcd|log|ts td tb tbc tbd tbcd|ty]|p|];
    simpl; try exact L; try lia.
  - apply Hh.
  - destruct (isPaused h); simpl; [exact L|]. now apply traffic_step_length.
Qed.

End Live.


Lemma live_logs_window_witness :
  let h := run unit (fun _ _ => "8:00") (fun _ _ => []) initial
             (log_events [(tt, sample_log); (tt, [("action", VStr "accept")])]) in
  isPaused initial = false /\
  logs h = [[("action", VStr "accept")]; sample_log] /\
  total_logs (stats h) = 2 /\ blocked_count (stats h) = 1.
Proof.
  cbv zeta.
  pose proof (live_logs_window unit (fun _ _ => "8:00") (fun _ _ => []) initial
                [(tt, sample_log); (tt, [("action", VStr "accept")])]
                eq_refl ltac:(discriminate)) as H.
  cbv zeta in H. destruct H as [L [T [_ B]]].
  split; [reflexivity|]. split; [exact L|]. split; [exact T|exact B].
Defined.

Lemma chart_has_at_most_twenty_points_witness :
  (forall (initialLogs : list record) (now : unit),
     (length (@nil bucket) <= 20)%nat) /\
  (length (trafficOverTime initial) <= 20)%nat /\
  (length (trafficOverTime
             (run unit (fun _ _ => "8:00") (fun _ _ => []) initial
                [Receive unit tt (MsgLog sample_log); Clear unit])) <= 20)%nat.
Proof.
  split; [intros; simpl; lia|]. split; [simpl; lia|].
  apply (chart_has_at_most_twenty_points unit (fun _ _ => "8:00") (fun _ _ => [])).
  - intros; simpl; lia.
  - simpl; lia.
Defined.

(** *** The viewer's counters against the aggregator's *)

Lemma viewer_blocked_is_block_like log :
  isBlocked log = true -> AggregatorSpec.block_like log = true.
Proof.
  unfold isBlocked, includes, AggregatorSpec.block_like, AggregatorSpec.action_in,
    Aggregator.action_of, dict_get_default.
  destruct (dict_get log "action") as [[s|n]|]; try discriminate.
  simpl existsb. intros H.
  repeat (apply orb_prop in H; destruct H as [H|H]); try discriminate;
    apply String.eqb_eq in H; subst; reflexivity.
Qed.

Lemma viewer_allowed_is_allow_like log :
  isAllowed log = true ->
  (negb (AggregatorSpec.block_like log) && AggregatorSpec.allow_like log
   || opt_eqb (dict_get log "action") (Some (VStr "passthrough"))) = true.
Proof.
  unfold isAllowed, includes, AggregatorSpec.block_like, AggregatorSpec.allow_like,
    AggregatorSpec.action_in, Aggregator.action_of, dict_get_default.
  destruct (dict_get log "action") as [[s|n]|]; try discriminate.
  simpl existsb. intros H.
  repeat (apply orb_prop in H; destruct H as [H|H]); try discriminate;
    apply String.eqb_eq in H; subst; reflexivity.
Qed.

Lemma filter_length_le {A} (p q : A -> bool) (l : list A) :
  (forall x, p x = true -> q x = true) ->
  (length (filter p l) <= length (filter q l))%nat.
Proof.
  intros H. induction l as [|x l IH]; simpl; [lia|].
  specialize (H x). destruct (p x), (q x); simpl; try lia.
Qed.

Lemma filter_length_or {A} (p q : A -> bool) (l : list A) :
  (length (filter (fun x => p x || q x) l) <=
   length (filter p l) + length (filter q l))%nat.
Proof.
  induction l as [|x l IH]; simpl; [lia|].
  destruct (p x), (q x); simpl; lia.
Qed.

Lemma filter_map_length {A B} (f : A -> B) (p : B -> bool) (l : list A) :
  length (filter p (map f l)) = length (filter (fun x => p (f x)) l).
Proof.
  induction l as [|x l IH]; simpl; [reflexivity|].
  destruct (p (f x)); simpl; now rewrite IH.
Qed.

(** X25.  Over the same records, the blocked counter the viewer keeps from
    [log] messages never exceeds the [blocked_count] of the aggregator, and
    its allowed counter exceeds the [allowed_count] of the aggregator by at
    most the number of records whose action is [passthrough]. *)
Theorem viewer_counters_against_aggregator
  (clock : Type) (time_key : record -> clock -> string)
  (history_traffic : list record -> clock -> list bucket)
  (C : Z) (arrivals : list (clock * record)) :
  let h := run clock time_key history_traffic initial (log_events arrivals) in
  let s := Aggregator.stats
             (Aggregator.ingest (Aggregator.init C) (map snd arrivals)) in
  blocked_count (stats h) <= Aggregator.blocked_count s /\
  allowed_count (stats h) <=
    Aggregator.allowed_count s +
    Z.of_nat (length (filter (fun nl => opt_eqb (dict_get (snd nl) "action")
                                          (Some (VStr "passthrough"))) arrivals)).
Proof.
  cbv zeta.
  destruct (run_log_events clock time_key history_traffic initial arrivals eq_refl)
    as [_ [_ [Al [Bl _]]]].
  rewrite Al, Bl. simpl allowed_count. simpl blocked_count.
  rewrite AggregatorMore.ingest_blocked_count, AggregatorMore.ingest_allowed_count.
  simpl Aggregator.blocked_count. simpl Aggregator.allowed_count.
  rewrite !filter_map_length. split.
  - apply inj_le, filter_length_le. intros [now log]. apply viewer_blocked_is_block_like.
  - pose proof (filter_length_le (fun nl : clock * record => isAllowed (snd nl))
                  (fun nl => negb (AggregatorSpec.block_like (snd nl))
                             && AggregatorSpec.allow_like (snd nl)
                             || opt_eqb (dict_get (snd nl) "action")
                                  (Some (VStr "passthrough"))) arrivals) as L1.
    pose proof (filter_length_or
                  (fun nl : clock * record =>
                     negb (AggregatorSpec.block_like (snd nl))
                     && AggregatorSpec.allow_like (snd nl))
                  (fun nl => opt_eqb (dict_get (snd nl) "action")
                               (Some (VStr "passthrough"))) arrivals) as L2.
    assert (forall x : clock * record, isAllowed (snd x) = true ->
              (negb (AggregatorSpec.block_like (snd x))
               && AggregatorSpec.allow_like (snd x)
               || opt_eqb (dict_get (snd x) "action") (Some (VStr "passthrough")))
              = true) as V
      by (intros [now log]; apply viewer_allowed_is_allow_like).
    specialize (L1 V). cbv beta in L2. rewrite !Z.add_0_l.
    eapply Z.le_trans; [apply inj_le; exact L1|].
    eapply Z.le_trans; [apply inj_le; exact L2|].
    rewrite Nat2Z.inj_add. apply Z.le_refl.
Qed.


(** *** The points built from the initial logs *)

Lemma on_entry_get f key m k :
  dict_get (on_entry f key m) k =
  if String.eqb key k then option_map f (dict_get m k) else dict_get m k.
Proof.
  unfold on_entry. destruct (String.eqb_spec key k) as [->|N].
  - destruct (dict_get m k) as [b|] eqn:E; simpl.
    + now rewrite dict_get_set_same.
    + exact E.
  - destruct (dict_get m key); [|reflexivity].
    rewrite dict_get_set_other by exact N. reflexivity.
Qed.

Lemma bucket_eq t a a' b b' tot :
  a = a' -> b = b' -> Some (mkBucket t a b tot) = Some (mkBucket t a' b' tot).
Proof. now intros -> ->. Qed.

(** One pass of the loop body, seen from a key. *)
Lemma note_get m key log k :
  dict_get (note m (key, log)) k =
  if String.eqb key k then
    let b := match dict_get m k with
             | Some b => b
             | None => mkBucket k 0 0 None
             end in
    Some (mkBucket (time b) (allowed b + flag (isAllowed log))
            (blocked b + flag (isBlocked log)) (total b))
  else dict_get m k.
Proof.
  unfold note. cbv zeta. cbn [fst snd].
  fold (isAllowed log). fold (isBlocked log).
  assert (E : dict_get (if dict_mem m key then m
                        else dict_set m key (mkBucket key 0 0 None)) k =
              if String.eqb key k
              then Some (match dict_get m k with
                         | Some b => b
                         | None => mkBucket k 0 0 None
                         end)
              else dict_get m k).
  { unfold dict_mem. destruct (String.eqb_spec key k) as [->|N].
    - destruct (dict_get m k) eqn:G; [exact G|apply dict_get_set_same].
    - destruct (dict_get m key); [reflexivity|].
      now rewrite dict_get_set_other. }
  revert E.
  generalize (if dict_mem m key then m else dict_set m key (mkBucket key 0 0 None)).
  intros m1 E.
  destruct (isAllowed log), (isBlocked log); rewrite ?on_entry_get, E;
    destruct (String.eqb key k); try reflexivity;
    destruct (dict_get m k) as [[t a b tot]|]; unfold flag, inc_allowed, inc_blocked;
    simpl; apply bucket_eq; lia.
Qed.

Lemma fold_note_get timed m k :
  dict_get (fold_left note (map (fun tl => (timeKey (fst tl), snd tl)) timed) m) k =
  let here (tl : option (Z * Z) * record) := String.eqb (timeKey (fst tl)) k in
  let n_allowed :=
    Z.of_nat (length (filter (fun tl => here tl && isAllowed (snd tl)) timed)) in
  let n_blocked :=
    Z.of_nat (length (filter (fun tl => here tl && isBlocked (snd tl)) timed)) in
  match dict_get m k with
  | Some b => Some (mkBucket (time b) (allowed b + n_allowed) (blocked b + n_blocked)
                      (total b))
  | None => if existsb here timed then Some (mkBucket k n_allowed n_blocked None)
            else None
  end.
Proof.
  cbv zeta. revert m. induction timed as [|[t log] rest IH]; intros m.
  - simpl. destruct (dict_get m k) as [[tm a b tot]|]; [|reflexivity].
    simpl. apply bucket_eq; lia.
  - cbn [map fold_left fst snd]. rewrite IH, note_get. cbn [filter existsb fst snd].
    destruct (String.eqb (timeKey t) k); cbn [andb orb].
    + cbv zeta. cbn [time allowed blocked total].
      destruct (dict_get m k) as [[tm a b tot]|]; cbn [time allowed blocked total];
        destruct (isAllowed log), (isBlocked log); unfold flag; cbn [length];
        try destruct (existsb _ rest); apply bucket_eq; lia.
    + reflexivity.
Qed.

(** X26.  The map the [init] branch builds from the initial logs has an
    entry for a time key exactly when some log has that key; the entry counts
    the logs of that key whose action is in the allowed list, and those whose
    action is in the blocked list, and it has no [total]. *)
Theorem history_points (timed : list (option (Z * Z) * record)) (k : string) :
  let here (tl : option (Z * Z) * record) := String.eqb (timeKey (fst tl)) k in
  dict_get (trafficMap timed) k =
  if existsb here timed
  then Some (mkBucket k
               (Z.of_nat (length (filter (fun tl => here tl && isAllowed (snd tl)) timed)))
               (Z.of_nat (length (filter (fun tl => here tl && isBlocked (snd tl)) timed)))
               None)
  else None.
Proof.
  cbv zeta. unfold trafficMap. now rewrite fold_note_get.
Qed.


(** *** The log table *)

Lemma lowered_cases field :
  lowered field = if is_number field then None else Some (text_of field).
Proof.
  destruct field as [[s|n]|]; simpl; try reflexivity.
  now destruct (n =? 0).
Qed.

(** The callback of the filter on one record. *)
Lemma keep_cases filter search log :
  keep filter search log =
  if negb (PyText.is_empty search) && passes_action filter log && numeric_field log
  then None
  else Some (passes_action filter log && matches_search search log).
Proof.
  unfold keep, passes_action, matches_search, numeric_field.
  destruct (String.eqb filter "allow" &&
            negb (includes allow_list (dict_get log "action")));
    [now rewrite andb_false_r|].
  destruct (String.eqb filter "block" &&
            negb (includes block_list (dict_get log "action")));
    [now rewrite andb_false_r|].
  destruct (PyText.is_empty search); [reflexivity|].
  cbn [negb andb orb existsb]. rewrite !lowered_cases.
  destruct (is_number (dict_get log "srcip")), (is_number (dict_get log "dstip")),
    (is_number (dict_get log "hostname")), (is_number (dict_get log "url"));
    cbn [orb]; try reflexivity.
  rewrite orb_false_r.
  destruct (contains _ (text_of (dict_get log "srcip"))),
    (contains _ (text_of (dict_get log "dstip"))),
    (contains _ (text_of (dict_get log "hostname"))),
    (contains _ (text_of (dict_get log "url"))); reflexivity.
Qed.

Lemma matched_logs_rows (filter search : string) (logs rows : list record) :
  matchedLogs filter search logs = Some rows ->
  rows = List.filter (fun log => passes_action filter log
                                 && matches_search search log) logs.
Proof.
  revert rows. induction logs as [|log rest IH]; intros rows H.
  - injection H as <-. reflexivity.
  - cbn [matchedLogs] in H. rewrite keep_cases in H.
    destruct (negb (PyText.is_empty search) && passes_action filter log
              && numeric_field log); [discriminate|].
    destruct (matchedLogs filter search rest) as [r|]; [|discriminate].
    injection H as <-. cbn [List.filter]. now rewrite (IH r eq_refl).
Qed.

(** X27.  What the table shows.  Filtering throws exactly when the search
    box is not empty and some record that passes the action filter has a
    non-zero number in [srcip], [dstip], [hostname] or [url]; otherwise the
    rows are the records that pass the action filter and, when the search box
    is not empty, contain the search text in one of the four fields, case
    ignored, in the order of the log list; the page shows the first
    [viewLimit] of them. *)
Theorem matched_logs_result (filter search : string) (logs : list record) :
  (matchedLogs filter search logs = None <->
   search <> EmptyString /\
   exists log, In log logs /\ passes_action filter log = true /\
               numeric_field log = true) /\
  (forall rows, matchedLogs filter search logs = Some rows ->
     rows = List.filter (fun log => passes_action filter log
                                    && matches_search search log) logs) /\
  (forall rows viewLimit, 0 <= viewLimit ->
     matchedLogs filter search logs = Some rows ->
     filteredLogs filter search viewLimit logs =
       Some (firstn (Z.to_nat viewLimit) rows)).
Proof.
  split; [|split; [apply matched_logs_rows|]].
  2:{ intros rows viewLimit V H. unfold filteredLogs. rewrite H. simpl option_map.
      f_equal. unfold slice_to.
      destruct (Z.ltb_spec viewLimit 0); [lia|].
      destruct (Z.min_spec viewLimit (Z.of_nat (length rows))) as [[_ ->]|[L ->]];
        [reflexivity|].
      rewrite Nat2Z.id, firstn_all. symmetry. apply firstn_all2. lia. }
  induction logs as [|log rest IH].
  - split; [discriminate|]. intros [_ [log [[] _]]].
  - cbn [matchedLogs]. rewrite keep_cases.
    destruct (negb (PyText.is_empty search) && passes_action filter log
              && numeric_field log) eqn:E.
    + split; [|reflexivity]. intros _.
      apply andb_prop in E. destruct E as [E N].
      apply andb_prop in E. destruct E as [S P].
      split; [now destruct search|]. exists log. split; [now left|]. now split.
    + destruct (matchedLogs filter search rest) as [r|].
      * split; [discriminate|]. intros [S [l [[<-|I] [P N]]]].
        -- rewrite P, N in E. destruct search; [contradiction|discriminate].
        -- assert (X : Some r = None); [|discriminate].
           apply IH. split; [exact S|]. now exists l.
      * split; [|reflexivity]. intros _.
        destruct (proj1 IH eq_refl) as [S [l [I [P N]]]].
        split; [exact S|]. exists l. split; [now right|]. now split.
Qed.

Lemma slice_to_incl {A} (stop : Z) (l : list A) x : In x (slice_to stop l) -> In x l.
Proof.
  unfold slice_to. cbv zeta. intros I.
  rewrite <- (firstn_skipn (Z.to_nat (if stop <? 0
                 then Z.max (Z.of_nat (length l) + stop) 0
                 else Z.min stop (Z.of_nat (length l)))) l).
  apply in_or_app. now left.
Qed.

Lemma slice_to_firstn {A} (stop : Z) (l : list A) :
  0 <= stop -> slice_to stop l = firstn (Z.to_nat stop) l.
Proof.
  intros V. unfold slice_to.
  destruct (Z.ltb_spec stop 0); [lia|].
  destruct (Z.min_spec stop (Z.of_nat (length l))) as [[_ ->]|[L ->]];
    [reflexivity|].
  rewrite Nat2Z.id, firstn_all. symmetry. apply firstn_all2. lia.
Qed.

(** X28.  The rows the table shows.  Under the filter [allow] they all have
    the row class [action-allow], under [block] the class [action-block].
    Under any other filter, with an empty search box, the rows are the first
    [viewLimit] records of the log list: all the records when there are at
    most [viewLimit] of them, and only then. *)
Theorem rows_match_filter (filter search : string) (viewLimit : Z)
  (logs shown : list record) :
  filteredLogs filter search viewLimit logs = Some shown ->
  (filter = "allow" ->
     Forall (fun log => getActionClass (dict_get log "action") = "action-allow") shown) /\
  (filter = "block" ->
     Forall (fun log => getActionClass (dict_get log "action") = "action-block") shown) /\
  (filter <> "allow" -> filter <> "block" -> search = EmptyString -> 0 <= viewLimit ->
     shown = firstn (Z.to_nat viewLimit) logs /\
     (shown = logs <-> Z.of_nat (length logs) <= viewLimit)).
Proof.
  unfold filteredLogs. intros H.
  destruct (matchedLogs filter search logs) as [rows|] eqn:M; [|discriminate].
  injection H as <-. apply matched_logs_rows in M. subst rows.
  split; [|split].
  - intros ->. apply Forall_forall. intros log I. apply slice_to_incl, filter_In in I.
    destruct I as [_ I]. apply andb_prop in I. destruct I as [P _].
    unfold passes_action in P. cbn in P. unfold getActionClass.
    destruct (includes allow_list (dict_get log "action")); [reflexivity|discriminate].
  - intros ->. apply Forall_forall. intros log I. apply slice_to_incl, filter_In in I.
    destruct I as [_ I]. apply andb_prop in I. destruct I as [P _].
    unfold passes_action in P. cbn in P. unfold getActionClass.
    destruct (dict_get log "action") as [[s|n]|]; try discriminate.
    cbn in P |- *.
    repeat match type of P with
           | context [String.eqb s ?w] => destruct (String.eqb_spec s w); subst
           end; cbn in P |- *; try reflexivity; discriminate.
  - intros NA NB -> V.
    assert (T : forall log, passes_action filter log && matches_search "" log = true).
    { intros log. unfold passes_action, matches_search.
      destruct (String.eqb_spec filter "allow"); [contradiction|].
      destruct (String.eqb_spec filter "block"); [contradiction|]. reflexivity. }
    assert (E : List.filter (fun log => passes_action filter log
                                        && matches_search "" log) logs = logs).
    { clear -T. induction logs as [|log rest IH]; [reflexivity|].
      cbn [List.filter]. rewrite T. now rewrite IH. }
    rewrite E, slice_to_firstn by exact V. split; [reflexivity|].
    split.
    + intros F. apply (f_equal (@length record)) in F. rewrite length_firstn in F. lia.
    + intros L. apply firstn_all2. lia.
Qed.

(** *** The time column *)

Lemma split_on_first sep a b :
  PyText.all_chars (fun c => negb (Ascii.eqb c sep)) a = true ->
  PyText.all_chars (fun c => negb (Ascii.eqb c sep)) b = true ->
  PyText.split_on sep (a ++ String sep b) = [a; b].
Proof.
  intros A B. rewrite AggregatorMore.split_on_app by exact A.
  now rewrite AggregatorMore.split_on_no_sep.
Qed.

(** X29.  The time column of a parsed record.  When the line carried a date
    and a non-empty time, neither containing a [T], the column shows the time
    in the text [str] returns for the stored value.  When the record's
    [timestamp] is a number other than zero, rendering the row throws. *)
Theorem time_column (local_time : value -> string) (now raw : string) (log : record) :
  Collector.parse_fortigate_log now raw = Ok log ->
  (forall d t,
     dict_get log "date" = Some d -> dict_get log "time" = Some t ->
     PyText.all_chars (fun c => negb (Ascii.eqb c "T")) (value_text d) = true ->
     PyText.all_chars (fun c => negb (Ascii.eqb c "T")) (value_text t) = true ->
     value_text t <> EmptyString ->
     py_str t = Ok (value_text t) /\
     formatTime local_time log = Some (value_text t)) /\
  (forall n, dict_get log "timestamp" = Some (VInt n) -> n <> 0 ->
     formatTime local_time log = None).
Proof.
  intros H. split.
  - intros d t D T Ad At Nt.
    split; [exact (ParserMore.py_str_printable _ _ _
                     (ParserMore.parse_printable now raw log H) T)|].
    unfold formatTime. cbv zeta.
    rewrite (ParserMore.parse_timestamp now raw log d t H D T).
    assert (E : PyText.is_empty (value_text d ++ "T" ++ value_text t) = false)
      by (destruct (value_text d); reflexivity).
    rewrite E.
    change (value_text d ++ "T" ++ value_text t)%string
      with (value_text d ++ String "T" (value_text t))%string.
    rewrite split_on_first by assumption.
    destruct (value_text t); [contradiction|reflexivity].
  - intros n T N. unfold formatTime. cbv zeta. rewrite T.
    destruct (Z.eqb_spec n 0); [contradiction|reflexivity].
Qed.

Lemma time_column_witness :
  exists log,
    Collector.parse_fortigate_log "2026-01-22T08:00:00"
      "date=2026-01-22 time=08:30:15 action=deny" = Ok log /\
    formatTime (fun _ => "-") log = Some "08:30:15".
Proof.
  eexists. split; [reflexivity|].
  match goal with
  | |- formatTime _ ?l = _ =>
      exact (proj2 (proj1 (time_column (fun _ => "-") "2026-01-22T08:00:00"
                             "date=2026-01-22 time=08:30:15 action=deny" l eq_refl)
                      (VStr "2026-01-22") (VStr "08:30:15")
                      eq_refl eq_refl eq_refl eq_refl ltac:(discriminate)))
  end.
Defined.

Lemma rows_match_filter_witness :
  filteredLogs "block" "10.0" 100 [sample_log; [("action", VStr "accept")]] =
    Some [sample_log] /\
  Forall (fun log => getActionClass (dict_get log "action") = "action-block")
    [sample_log].
Proof.
  split; [reflexivity|].
  exact (proj1 (proj2 (rows_match_filter "block" "10.0" 100
                         [sample_log; [("action", VStr "accept")]] [sample_log]
                         eq_refl)) eq_refl).
Defined.

End ViewerMore.

(** ** The dashboard lists over the snapshot *)

Module DashboardFacts.
Import Aggregator AggregatorSpec ExtraSpec TopList.

Section Bars.
Context {A : Type} (count : A -> Z).

Lemma sorted_firstn n (l : list A) :
  StronglySorted (descending count) l ->
  StronglySorted (descending count) (firstn n l).
Proof.
  intros S. revert n. induction S as [|x l S IH F]; intros [|n]; simpl;
    try constructor.
  - apply IH.
  - rewrite Forall_forall in *. intros y I. apply F.
    rewrite <- (firstn_skipn n l). apply in_or_app. now left.
Qed.

Lemma head_is_largest (l : list A) e :
  StronglySorted (descending count) l -> In e l ->
  count e <= match l with first :: _ => count first | [] => 0 end.
Proof.
  intros S I. destruct S as [|x l S F]; [destruct I|].
  destruct I as [<-|I]; [lia|].
  rewrite Forall_forall in F. apply (F e I).
Qed.

(** Every item shown counts at least one when all items do, and at most
    what the first item shown counts. *)
Lemma shown_within_scale maxItems (l : list A) e :
  StronglySorted (descending count) l ->
  (forall x, In x l -> 1 <= count x) ->
  In e (displayItems maxItems l) ->
  1 <= count e <= maxCount count maxItems l.
Proof.
  intros S P I. unfold maxCount. unfold displayItems, LogTable.slice_to in *.
  cbv zeta in *.
  split.
  - apply P. rewrite <- (firstn_skipn (Z.to_nat (if maxItems <? 0
        then Z.max (Z.of_nat (length l) + maxItems) 0
        else Z.min maxItems (Z.of_nat (length l)))) l).
    apply in_or_app. now left.
  - apply head_is_largest; [now apply sorted_firstn|exact I].
Qed.

End Bars.

Lemma sorted_map {A B} (f : A -> B) (count : B -> Z) (l : list A) :
  StronglySorted (descending (fun x => count (f x))) l ->
  StronglySorted (descending count) (map f l).
Proof.
  induction 1 as [|x l S IH F]; simpl; constructor; [exact IH|].
  rewrite Forall_forall in *. intros y I. apply in_map_iff in I.
  destruct I as [z [<- I]]. apply (F z I).
Qed.

Lemma top10_sorted {A} (count : A -> Z) (l : list A) :
  StronglySorted (descending count) (top10 count l).
Proof. apply sorted_firstn, TopFacts.sorted_desc_sorted. Qed.

Lemma top10_positive (d : dict value Z) e :
  positive_counts d -> In e (top10 snd d) -> 1 <= snd e.
Proof.
  intros P I. apply AggregatorMore.top10_In in I.
  apply (AggregatorMore.count_in_range d e P I).
Qed.

(** X30.  The bars of the four lists of the dashboard, drawn from a snapshot
    after a run: every item shown has a count of at least one and at most
    [maxCount], the count of the first item shown, so that [count / maxCount]
    is defined and no bar is wider than the first. *)
Theorem bars_within_scale (C maxItems : Z) (logs : list record) :
  let v := get_stats (ingest (init C) logs) in
  (forall e, In e (displayItems maxItems (top_sources v)) ->
     1 <= snd e <= maxCount snd maxItems (top_sources v)) /\
  (forall e, In e (displayItems maxItems (top_destinations v)) ->
     1 <= snd e <= maxCount snd maxItems (top_destinations v)) /\
  (forall e, In e (displayItems maxItems (top_blocked_detail v)) ->
     1 <= site_count e <= maxCount site_count maxItems (top_blocked_detail v)) /\
  (forall e, In e (displayItems maxItems (top_blocked_categories_detail v)) ->
     1 <= category_count e <=
     maxCount category_count maxItems (top_blocked_categories_detail v)).
Proof.
  cbv zeta. unfold get_stats. cbv zeta. simpl.
  destruct (AggregatorMore.ingest_tables_positive C logs) as [Ps [Pd [Pb Pc]]].
  cbv zeta in Ps, Pd, Pb, Pc.
  split; [|split; [|split]]; intros e; apply shown_within_scale.
  - apply top10_sorted.
  - intros x. now apply top10_positive.
  - apply top10_sorted.
  - intros x. now apply top10_positive.
  - apply sorted_map. apply (top10_sorted snd).
  - intros x I. apply in_map_iff in I. destruct I as [sc [<- I]]. simpl.
    now apply (top10_positive _ sc Pb).
  - apply sorted_map. apply (top10_sorted snd).
  - intros x I. apply in_map_iff in I. destruct I as [cc [<- I]]. simpl.
    now apply (top10_positive _ cc Pc).
Qed.

End DashboardFacts.
